(** * Bibtex-processor: DOI normalisation, standardisation,
      cross-file de-duplication and CSV export (src/bibtex_processor.py)

    A shallow embedding of the core routines of the script:

    - [normalize_doi]            (lines 17-31),
    - [standardize_bibtex_file]  (lines 34-128, the loop of lines 56-115),
    - [remove_duplicates_by_doi] (lines 132-203, the loops of lines 160-190),
    - [convert_bibtex_to_csv]    (lines 206-263, the rows of lines 227-260).

    Reading and writing the BibTeX files is done by the [bibtexparser]
    library; the embedding starts from the parsed [entries] list and ends
    with the [entries] list handed to the writer.  The [logging] calls are
    modelled by an explicit list of diagnostics returned next to the
    result.

    A Python string is a sequence of Unicode code points.  The routines
    on entries are modelled on lists of 8-bit characters, one [ascii] per
    code point: that model covers the strings whose code points lie in
    the Latin-1 range U+0000..U+00FF, and [str.lower], [str.strip] and the
    [re] character classes are given with the meaning Python assigns to
    them on that range.  The module [Unicode] models [normalize_doi] on
    lists of arbitrary code points, with [str.strip], [str.lower] and the
    [re] classes as CPython 3.11 (Unicode 14.0) has them on every code
    point; on Latin-1 text the two models of [normalize_doi] agree. *)

From Stdlib Require Import List Ascii String NArith Bool Lia.
From stdpp Require Import gmap strings.
Import ListNotations.

(* ================================================================== *)
(** * Strings *)
(* ================================================================== *)

Abbreviation str := (list ascii).

(** A Python string literal. *)
Definition lit (s : string) : str := list_ascii_of_string s.

Definition code (c : ascii) : N := N_of_ascii c.

Definition between (lo hi : N) (c : ascii) : bool :=
  ((lo <=? code c) && (code c <=? hi))%N.

(** [str.isspace] on one character: TAB..CR, FS..US, SPACE, NEL, NBSP. *)
Definition isspace (c : ascii) : bool :=
  between 9 13 c || between 28 32 c || (code c =? 133)%N || (code c =? 160)%N.

(** Upper-case letters of Latin-1: A..Z and the accented capitals
    U+00C0..U+00DE without the multiplication sign U+00D7. *)
Definition isupper (c : ascii) : bool :=
  between 65 90 c || (between 192 222 c && negb (code c =? 215)%N).

(** Lower-case letters of Latin-1 whose capital is again in Latin-1. *)
Definition islower (c : ascii) : bool :=
  between 97 122 c || (between 224 254 c && negb (code c =? 247)%N).

Definition char_lower (c : ascii) : ascii :=
  if isupper c then ascii_of_N (code c + 32) else c.

Definition char_upper (c : ascii) : ascii :=
  if islower c then ascii_of_N (code c - 32) else c.

(** [s.lower()] *)
Definition lower (s : str) : str := map char_lower s.

(** [s.lstrip()], [s.rstrip()], [s.strip()] *)
Fixpoint lstrip (s : str) : str :=
  match s with
  | [] => []
  | c :: s' => if isspace c then lstrip s' else s
  end.

Definition rstrip (s : str) : str := rev (lstrip (rev s)).

Definition strip (s : str) : str := rstrip (lstrip s).

(** Truth value of an optional string: [None] and [''] are false. *)
Definition truthy (o : option str) : bool :=
  match o with
  | Some (_ :: _) => true
  | _ => false
  end.

(* ================================================================== *)
(** * Regular expressions *)
(* ================================================================== *)

(** The pattern of line 24 is a concatenation of character classes, each
    with a greedy repetition count [{rmin, rmax}].  [match_here] is the
    backtracking matcher of [re] for such patterns: every atom first takes
    as many characters as it can and gives characters back one at a time
    while the rest of the pattern fails. *)

Record atom := Atom {
  cls : ascii -> bool;
  rmin : nat;
  rmax : option nat
}.

Abbreviation regex := (list atom).

Fixpoint span_all (p : ascii -> bool) (s : str) : nat :=
  match s with
  | c :: s' => if p c then S (span_all p s') else 0
  | [] => 0
  end.

Definition span (p : ascii -> bool) (limit : option nat) (s : str) : nat :=
  match limit with
  | Some h => Nat.min h (span_all p s)
  | None => span_all p s
  end.

(** Try [n], [n - 1], ..., [lo] repetitions, continuing with [k]. *)
Fixpoint backtrack (k : str -> option nat) (s : str) (lo n : nat) : option nat :=
  if n <? lo then None
  else
    match k (skipn n s) with
    | Some m => Some (n + m)
    | None =>
        match n with
        | 0 => None
        | S n' => backtrack k s lo n'
        end
    end.

(** Length of the match of [r] at the start of [s], if there is one. *)
Fixpoint match_here (r : regex) (s : str) : option nat :=
  match r with
  | [] => Some 0
  | a :: r' => backtrack (match_here r') s (rmin a) (span (cls a) (rmax a) s)
  end.

(** [re.search(r, s)]: the text of the leftmost match. *)
Fixpoint re_search (r : regex) (s : str) : option str :=
  match match_here r s with
  | Some n => Some (firstn n s)
  | None =>
      match s with
      | [] => None
      | _ :: s' => re_search r s'
      end
  end.

(** [re.IGNORECASE] on a character class: the character is lowered, and
    the class is tried on the lowered character and on its capital. *)
Definition ignorecase (p : ascii -> bool) (c : ascii) : bool :=
  let l := char_lower c in p l || p (char_upper l).

(** A literal character, and [\d]. *)
Definition chr (c : ascii) : atom :=
  Atom (ignorecase (Ascii.eqb c)) 1 (Some 1).

Definition isdigit (c : ascii) : bool := between 48 57 c.

(** The set [[-._;()/:A-Z0-9]] as written. *)
Definition doi_set (c : ascii) : bool :=
  existsb (Ascii.eqb c) (lit "-._;()/:") || between 65 90 c || between 48 57 c.

(** [r'(10\.\d{4,9}/[-._;()/:A-Z0-9]+)'] with [re.IGNORECASE]; the only
    group spans the whole pattern. *)
Definition doi_pattern : regex :=
  [ chr "1"; chr "0"; chr ".";
    Atom isdigit 4 (Some 9);
    chr "/";
    Atom (ignorecase doi_set) 1 None ].

(* ================================================================== *)
(** * Entries and diagnostics *)
(* ================================================================== *)

(** A parsed BibTeX entry is a Python [dict] from field names to values;
    insertion order is kept, so it is an association list. *)
Abbreviation entry := (list (str * str)).

Fixpoint dict_get (d : entry) (k : str) : option str :=
  match d with
  | [] => None
  | (k', v) :: d' => if bool_decide (k' = k) then Some v else dict_get d' k
  end.

(** [d.get(k, dflt)] *)
Definition dict_get_or (d : entry) (k dflt : str) : str :=
  default dflt (dict_get d k).

(** [k in d] *)
Definition dict_has (d : entry) (k : str) : bool :=
  match dict_get d k with
  | Some _ => true
  | None => false
  end.

(** [d[k] = v]: an existing key keeps its position. *)
Fixpoint dict_set (d : entry) (k v : str) : entry :=
  match d with
  | [] => [(k, v)]
  | (k', v') :: d' =>
      if bool_decide (k' = k) then (k', v) :: d' else (k', v') :: dict_set d' k v
  end.

Definition keys (d : entry) : list str := map fst d.

(** The messages that the three routines log between reading the entries
    and writing them. *)
Inductive diagnostic :=
  | DoiNotStandard (doi_string : str)                  (* warning, line 30 *)
  | EntryWithoutIdOrType (e : entry)                   (* warning, line 66 *)
  | DuplicateEntryId (original_id : str)               (* warning, line 71 *)
  | StandardizeError (entry_id : option str)           (* warning, line 112 *)
  | FoundDois (count : nat)                            (* info, line 167 *)
  | DuplicateEntryIdX (entry_id : option str)          (* warning, line 177 *)
  | RemovingEntry (entry_id : option str) (doi_x : str)  (* info, line 188 *)
  | RemovedCount (removed_count : nat).                 (* info, line 190 *)

(** A computation that logs. *)
Definition logged (A : Type) : Type := A * list diagnostic.

Definition ret {A} (a : A) : logged A := (a, []).

Definition bind {A B} (m : logged A) (k : A -> logged B) : logged B :=
  (fst (k (fst m)), snd m ++ snd (k (fst m))).

Definition log {A} (d : diagnostic) (a : A) : logged A := (a, [d]).

Notation "x <- m ;; k" := (bind m (fun x => k))
  (at level 100, m at next level, right associativity).

Fixpoint for_each {S A} (body : S -> A -> logged S) (l : list A) (st : S) : logged S :=
  match l with
  | [] => ret st
  | x :: l' => st' <- body st x ;; for_each body l' st'
  end.

(* ================================================================== *)
(** * [normalize_doi] *)
(* ================================================================== *)

Definition normalize_doi (doi_string : option str) : logged str :=
  if negb (truthy doi_string) then ret []
  else
    let doi_string := lower (strip (default [] doi_string)) in
    match re_search doi_pattern doi_string with
    | Some group1 => ret group1
    | None => log (DoiNotStandard doi_string) doi_string
    end.

(* ================================================================== *)
(** * [standardize_bibtex_file] *)
(* ================================================================== *)

Definition ID : str := lit "ID".
Definition ENTRYTYPE : str := lit "ENTRYTYPE".

Definition essential_fields : list str :=
  map lit ["doi"; "title"; "abstract"; "keywords"; "author"; "year";
           "publisher"; "journal"; "booktitle"; "pages"; "volume"; "number"]%string.

(** Line 76: [{k.lower(): v for k, v in entry.items() if k not in ['ID', 'ENTRYTYPE']}] *)
Definition lowercase_fields (e : entry) : entry :=
  fold_left
    (fun d kv =>
       if bool_decide (fst kv = ID) || bool_decide (fst kv = ENTRYTYPE) then d
       else dict_set d (lower (fst kv)) (snd kv))
    e [].

(** Lines 84-86. *)
Definition fill_missing (d : entry) : entry :=
  fold_left (fun d field => if dict_has d field then d else dict_set d field [])
            essential_fields d.

(** Lines 89-90; the subscript [d['booktitle']] raises on a missing key,
    which is the [None] result. *)
Definition consolidate_journal (d : entry) : option entry :=
  if negb (truthy (dict_get d (lit "journal"))) && truthy (dict_get d (lit "booktitle"))
  then
    match dict_get d (lit "booktitle") with
    | Some b => Some (dict_set d (lit "journal") b)
    | None => None
    end
  else Some d.

(** Lines 95-101. *)
Definition final_entry (original_id original_entrytype : str) (d : entry) : entry :=
  fold_left (fun fe field => dict_set fe field (dict_get_or d field []))
            essential_fields
            [(ID, original_id); (ENTRYTYPE, original_entrytype)].

(** Lines 76-101, the part of the loop body after the two guards; [None]
    stands for an exception caught by the handler of line 110. *)
Definition standardize_entry (original_id original_entrytype : str) (e : entry)
  : logged (option entry) :=
  let standardized_entry_data := lowercase_fields e in
  let raw_doi := dict_get_or standardized_entry_data (lit "doi") [] in
  doi <- normalize_doi (Some raw_doi) ;;
  let standardized_entry_data := dict_set standardized_entry_data (lit "doi") doi in
  let standardized_entry_data := fill_missing standardized_entry_data in
  ret (option_map (final_entry original_id original_entrytype)
                  (consolidate_journal standardized_entry_data)).

Record std_state := StdState {
  standardized_entries : list entry;
  processed_ids : gset str
}.

(** One iteration of the loop of line 60. *)
Definition standardize_step (st : std_state) (e : entry) : logged std_state :=
  let original_id := dict_get e ID in
  let original_entrytype := dict_get e ENTRYTYPE in
  if negb (truthy original_id) || negb (truthy original_entrytype) then
    log (EntryWithoutIdOrType e) st
  else
    let original_id := default [] original_id in
    let original_entrytype := default [] original_entrytype in
    if bool_decide (original_id ∈ processed_ids st) then
      log (DuplicateEntryId original_id) st
    else
      let processed := processed_ids st ∪ {[ original_id ]} in
      r <- standardize_entry original_id original_entrytype e ;;
      match r with
      | Some fe => ret (StdState (standardized_entries st ++ [fe]) processed)
      | None => log (StandardizeError (Some original_id))
                    (StdState (standardized_entries st) processed)
      end.

(** The entries written to the output file, from the entries read. *)
Definition standardize_bibtex_file (entries : list entry) : logged (list entry) :=
  st <- for_each standardize_step entries (StdState [] ∅) ;;
  ret (standardized_entries st).

(* ================================================================== *)
(** * [remove_duplicates_by_doi] *)
(* ================================================================== *)

(** Line 164 and line 182: [entry.get('doi', '').strip()] *)
Definition entry_doi (e : entry) : str := strip (dict_get_or e (lit "doi") []).

(** Lines 161-166. *)
Definition collect_dois (entries_y : list entry) : gset str :=
  fold_left
    (fun dois_y e =>
       let doi := entry_doi e in
       if truthy (Some doi) then dois_y ∪ {[ doi ]} else dois_y)
    entries_y ∅.

Record filter_state := FilterState {
  unique_entries_x : list entry;
  removed_count : nat;
  processed_ids_x : gset (option str)
}.

(** One iteration of the loop of line 174. *)
Definition filter_step (dois_y : gset str) (st : filter_state) (e : entry)
  : logged filter_state :=
  let entry_id := dict_get e ID in
  if bool_decide (entry_id ∈ processed_ids_x st) then
    log (DuplicateEntryIdX entry_id) st
  else
    let processed := processed_ids_x st ∪ {[ entry_id ]} in
    let doi_x := entry_doi e in
    if negb (truthy (Some doi_x)) || negb (bool_decide (doi_x ∈ dois_y)) then
      ret (FilterState (unique_entries_x st ++ [e]) (removed_count st) processed)
    else
      log (RemovingEntry entry_id doi_x)
          (FilterState (unique_entries_x st) (removed_count st + 1) processed).

(** The entries written to the output file, from the entries of the two
    files read. *)
Definition remove_duplicates_by_doi (entries_x entries_y : list entry)
  : logged (list entry) :=
  let dois_y := collect_dois entries_y in
  _ <- log (FoundDois (size dois_y)) tt ;;
  st <- for_each (filter_step dois_y) entries_x (FilterState [] 0 ∅) ;;
  log (RemovedCount (removed_count st)) (unique_entries_x st).

(* ================================================================== *)
(** * The shape of a DOI, stated without the matcher *)
(* ================================================================== *)

Definition isletter (c : ascii) : bool := between 65 90 c || between 97 122 c.

(** Letters, digits and the eight punctuation characters of the set. *)
Definition doi_char (c : ascii) : bool :=
  isletter c || isdigit c || existsb (Ascii.eqb c) (lit "-._;()/:").

(** [10.], four to nine digits, [/], a non-empty run of [doi_char]s. *)
Definition doi_shape (m : str) : Prop :=
  exists digits run,
    m = lit "10." ++ digits ++ "/"%char :: run /\
    4 <= length digits <= 9 /\
    forallb isdigit digits = true /\
    run <> [] /\
    forallb doi_char run = true.

(** Some substring of [s] has the shape of a DOI. *)
Definition contains_doi (s : str) : Prop :=
  exists pre m post, s = pre ++ m ++ post /\ doi_shape m.

(* ================================================================== *)
(** * Vocabulary of the statements about entries *)
(* ================================================================== *)

(** The entry is rejected by the guard of line 65. *)
Definition missing_id_or_type (e : entry) : bool :=
  negb (truthy (dict_get e ID)) || negb (truthy (dict_get e ENTRYTYPE)).

(** No field of the raw entry is named [f], in any letter case. *)
Definition field_absent (e : entry) (f : str) : Prop :=
  forall k v, In (k, v) e -> k <> ID -> k <> ENTRYTYPE -> lower k <> f.

(** The eleven fields that the specification lists for a canonical
    record, the normalised identifier being the [doi] field. *)
Definition spec_fields : list str :=
  map lit ["doi"; "title"; "abstract"; "keywords"; "author"; "year";
           "publisher"; "journal"; "pages"; "volume"; "number"]%string.

(** Only white space. *)
Definition blank (v : str) : bool := forallb isspace v.

(** [d] is the trimmed [doi] of some entry of file Y. *)
Definition doi_among (entries_y : list entry) (d : str) : bool :=
  existsb (fun e => bool_decide (entry_doi e = d)) entries_y.

(** The test of line 184, read on the entries of file Y. *)
Definition kept (entries_y : list entry) (e : entry) : bool :=
  negb (truthy (Some (entry_doi e))) || negb (doi_among entries_y (entry_doi e)).

(* ================================================================== *)
(** * Sample entries *)
(* ================================================================== *)

Definition sample_article : entry :=
  [(ID, lit "a"); (ENTRYTYPE, lit "article"); (lit "title", lit "T")].

Definition sample_inproceedings : entry :=
  [(ID, lit "k1"); (ENTRYTYPE, lit "InProceedings");
   (lit "Title", lit "T"); (lit "BookTitle", lit "Proc. X")].

(** Two entries with the identifier [a]; only the second has a type. *)
Definition sample_untyped_first : entry :=
  [(ID, lit "a"); (lit "title", lit "first")].

Definition sample_typed_second : entry :=
  [(ID, lit "a"); (ENTRYTYPE, lit "article"); (lit "title", lit "second")].

Definition sample_typed_third : entry :=
  [(ID, lit "a"); (ENTRYTYPE, lit "book"); (lit "title", lit "third")].

(** An entry without identifier and an entry without type. *)
Definition sample_no_id : entry :=
  [(ENTRYTYPE, lit "article"); (lit "title", lit "T")].

Definition sample_no_type : entry :=
  [(ID, lit "b"); (lit "title", lit "U")].

(** The two record sets of the scenario of the specification, as
    written there and with a type tag added. *)
Definition scenario_x : list entry :=
  [[(ID, lit "a"); (lit "doi", lit "10.1234/example.doi")]].

Definition scenario_y : list entry :=
  [[(ID, lit "b"); (lit "doi", lit "https://doi.org/10.1234/EXAMPLE.DOI")]].

Definition scenario_x_typed (entrytype : str) : list entry :=
  [[(ID, lit "a"); (ENTRYTYPE, entrytype); (lit "doi", lit "10.1234/example.doi")]].

Definition scenario_y_typed (entrytype : str) : list entry :=
  [[(ID, lit "b"); (ENTRYTYPE, entrytype);
    (lit "doi", lit "https://doi.org/10.1234/EXAMPLE.DOI")]].

(** Entries for file X: a second entry with identifier [a] whose DOI is
    blank, two entries without identifier, and one with a DOI. *)
Definition sample_blank_doi : entry :=
  [(ID, lit "a"); (lit "doi", lit "  "); (lit "title", lit "W")].

Definition sample_idless_first : entry :=
  [(lit "title", lit "no id, first")].

Definition sample_idless_second : entry :=
  [(lit "title", lit "no id, second")].

Definition sample_with_doi : entry :=
  [(ID, lit "c"); (lit "doi", lit "10.1000/xyz")].

(** The MDPI entry of the script's own example data, with its field
    names in capitals. *)
Definition sample_mdpi : entry :=
  [(ID, lit "f16060891"); (ENTRYTYPE, lit "Article");
   (lit "TITLE", lit "Study on Forest Growing Stock Volume");
   (lit "JOURNAL", lit "Forests"); (lit "DOI", lit "10.3390/f16060891")].

(* ================================================================== *)
(** * [convert_bibtex_to_csv] *)
(* ================================================================== *)

(** The line boundaries of [str.splitlines] in the Latin-1 range: LF, VT,
    FF, CR, FS, GS, RS and NEL. *)
Definition is_linebreak (c : ascii) : bool :=
  between 10 13 c || between 28 30 c || (code c =? 133)%N.

(** [s.splitlines()], with the line read so far in [cur], last character
    first.  CR LF is one boundary, and a boundary at the very end opens no
    further line. *)
Fixpoint splitlines_from (cur s : str) : list str :=
  match s with
  | [] =>
      match cur with
      | [] => []
      | _ => [rev cur]
      end
  | c :: s' =>
      if is_linebreak c then
        rev cur ::
        match s' with
        | c' :: s'' =>
            if Ascii.eqb c "013" && Ascii.eqb c' "010"
            then splitlines_from [] s''
            else splitlines_from [] s'
        | [] => splitlines_from [] s'
        end
      else splitlines_from (c :: cur) s'
  end.

Definition splitlines (s : str) : list str := splitlines_from [] s.

(** [sep.join(parts)] *)
Fixpoint join (sep : str) (parts : list str) : str :=
  match parts with
  | [] => []
  | [x] => x
  | x :: parts' => x ++ sep ++ join sep parts'
  end.

(** Lines 227-228. *)
Definition csv_header : list str :=
  map lit ["ID"; "doi"; "classification"; "title"; "abstract"; "keywords";
           "Review"; "author"; "year"; "Publisher"; "journal"; "type title"]%string.

(** Lines 238-252. *)
Definition row_data (e : entry) : entry :=
  [ (lit "ID", dict_get_or e (lit "ID") []);
    (lit "doi", dict_get_or e (lit "doi") []);
    (lit "classification", []);
    (lit "title", dict_get_or e (lit "title") []);
    (lit "abstract", dict_get_or e (lit "abstract") []);
    (lit "keywords", dict_get_or e (lit "keywords") []);
    (lit "Review", []);
    (lit "author", dict_get_or e (lit "author") []);
    (lit "year", dict_get_or e (lit "year") []);
    (lit "Publisher", dict_get_or e (lit "publisher") []);
    (lit "journal", dict_get_or e (lit "journal") []);
    (lit "type title", lower (dict_get_or e (lit "ENTRYTYPE") [])) ].

(** Line 258: [' '.join(value.splitlines()).strip()] *)
Definition clean_cell (value : str) : str :=
  strip (join (lit " ") (splitlines value)).

(** Lines 255-258: every value of the row is replaced, key by key. *)
Definition clean_row (row : entry) : entry :=
  fold_left (fun d key => dict_set d key (clean_cell (dict_get_or d key [])))
            (keys row) row.

(** What [csv.DictWriter.writerow] hands to the writer: it raises when the
    row has a key that is no field name ([None]), and otherwise lists the
    values in the order of the field names, [''] for a missing one. *)
Definition dict_to_list (fieldnames : list str) (rowdict : entry) : option (list str) :=
  if forallb (fun k => existsb (fun f => bool_decide (f = k)) fieldnames) (keys rowdict)
  then Some (map (fun key => dict_get_or rowdict key []) fieldnames)
  else None.

(** The loop of line 236: the rows written, and whether the loop ran to
    its end; an exception leaves the rows written before it (handler of
    line 262). *)
Fixpoint write_rows (entries : list entry) : list (list str) * bool :=
  match entries with
  | [] => ([], true)
  | e :: entries' =>
      match dict_to_list csv_header (clean_row (row_data e)) with
      | Some cells => (cells :: fst (write_rows entries'), snd (write_rows entries'))
      | None => ([], false)
      end
  end.

(** The rows of the CSV file, the header first, from the entries read. *)
Definition convert_bibtex_to_csv (entries : list entry) : list (list str) * bool :=
  (csv_header :: fst (write_rows entries), snd (write_rows entries)).

(* ================================================================== *)
(** * Vocabulary of the further statements *)
(* ================================================================== *)

(** The entries whose [ID] is neither in [seen] nor the [ID] of an
    earlier entry of the list. *)
Fixpoint first_by_id (seen : gset (option str)) (l : list entry) : list entry :=
  match l with
  | [] => []
  | e :: l' =>
      if bool_decide (dict_get e ID ∈ seen) then first_by_id seen l'
      else e :: first_by_id (seen ∪ {[ dict_get e ID ]}) l'
  end.

(** The entry [fe] is what the standardizer builds from the entry [e],
    which has an identifier and a type. *)
Definition standardized_from (e fe : entry) : Prop :=
  exists id t,
    dict_get e ID = Some id /\ dict_get e ENTRYTYPE = Some t /\
    id <> [] /\ t <> [] /\
    fst (standardize_entry id t e) = Some fe.

(** The warnings with which the standardizer skips an entry. *)
Definition is_skip (d : diagnostic) : bool :=
  match d with
  | EntryWithoutIdOrType _ | DuplicateEntryId _ | StandardizeError _ => true
  | _ => false
  end.

Definition is_removal (d : diagnostic) : bool :=
  match d with
  | RemovingEntry _ _ => true
  | _ => false
  end.

Definition is_duplicate_x (d : diagnostic) : bool :=
  match d with
  | DuplicateEntryIdX _ => true
  | _ => false
  end.

(** The text has no line boundary. *)
Definition one_line (s : str) : bool :=
  forallb (fun c => negb (is_linebreak c)) s.

(** The values of an entry in the order of the CSV columns, before they
    are cleaned; the two placeholder columns are empty. *)
Definition csv_values (e : entry) : list str :=
  [ dict_get_or e (lit "ID") []; dict_get_or e (lit "doi") []; [];
    dict_get_or e (lit "title") []; dict_get_or e (lit "abstract") [];
    dict_get_or e (lit "keywords") []; [];
    dict_get_or e (lit "author") []; dict_get_or e (lit "year") [];
    dict_get_or e (lit "publisher") []; dict_get_or e (lit "journal") [];
    lower (dict_get_or e (lit "ENTRYTYPE") []) ].

(** An entry with two fields whose names differ only in letter case. *)
Definition sample_case_collision : entry :=
  [(ID, lit "c1"); (ENTRYTYPE, lit "misc");
   (lit "Title", lit "first"); (lit "TITLE", lit "second");
   (lit "Journal", []); (lit "booktitle", lit "Proc. Y")].

(** An entry with a line break and surrounding blanks in its fields. *)
Definition sample_multiline : entry :=
  [(ID, lit "m1"); (ENTRYTYPE, lit "Article");
   (lit "title", lit "  A title" ++ ["010"%char] ++ lit "over two lines ");
   (lit "doi", lit "10.1000/xyz"); (lit "publisher", lit "P")].

(* ================================================================== *)
(** * [normalize_doi] on text of arbitrary code points *)
(* ================================================================== *)

(** Python's [str] is a sequence of Unicode code points.  In this module
    a string is a list of code points, and [str.strip], [str.lower] and
    the [re] classes have the meaning CPython 3.11 (Unicode 14.0) gives
    them on every code point. *)

Module Unicode.

Local Open Scope N_scope.

Abbreviation str := (list N).

(** A literal of ASCII characters. *)
Definition lit (s : string) : str := map N_of_ascii (list_ascii_of_string s).

Definition in_ranges (table : list (N * N)) (c : N) : bool :=
  existsb (fun r => (fst r <=? c) && (c <=? snd r)) table.

(** [str.isspace] on one character. *)
Definition whitespace : list (N * N) :=
  [
   (9, 13); (28, 32); (133, 133); (160, 160); (5760, 5760); (8192, 8202);
   (8232, 8233); (8239, 8239); (8287, 8287); (12288, 12288) ].

Definition isspace (c : N) : bool := in_ranges whitespace c.

(** The decimal digits (category Nd): [str.isdecimal], and [\d] in a
    pattern on [str]. *)
Definition decimal_digits : list (N * N) :=
  [
   (48, 57); (1632, 1641); (1776, 1785); (1984, 1993); (2406, 2415); (2534, 2543);
   (2662, 2671); (2790, 2799); (2918, 2927); (3046, 3055); (3174, 3183); (3302, 3311);
   (3430, 3439); (3558, 3567); (3664, 3673); (3792, 3801); (3872, 3881); (4160, 4169);
   (4240, 4249); (6112, 6121); (6160, 6169); (6470, 6479); (6608, 6617); (6784, 6793);
   (6800, 6809); (6992, 7001); (7088, 7097); (7232, 7241); (7248, 7257); (42528, 42537);
   (43216, 43225); (43264, 43273); (43472, 43481); (43504, 43513); (43600, 43609); (44016, 44025);
   (65296, 65305); (66720, 66729); (68912, 68921); (69734, 69743); (69872, 69881); (69942, 69951);
   (70096, 70105); (70384, 70393); (70736, 70745); (70864, 70873); (71248, 71257); (71360, 71369);
   (71472, 71481); (71904, 71913); (72016, 72025); (72784, 72793); (73040, 73049); (73120, 73129);
   (92768, 92777); (92864, 92873); (93008, 93017); (120782, 120831); (123200, 123209); (123632, 123641);
   (125264, 125273); (130032, 130041) ].

Definition isdecimal (c : N) : bool := in_ranges decimal_digits c.

(** The characters with the property Cased. *)
Definition cased_ranges : list (N * N) :=
  [
   (65, 90); (97, 122); (170, 170); (181, 181); (186, 186); (192, 214);
   (216, 246); (248, 442); (444, 447); (452, 659); (661, 696); (704, 705);
   (736, 740); (837, 837); (880, 883); (886, 887); (890, 893); (895, 895);
   (902, 902); (904, 906); (908, 908); (910, 929); (931, 1013); (1015, 1153);
   (1162, 1327); (1329, 1366); (1376, 1416); (4256, 4293); (4295, 4295); (4301, 4301);
   (4304, 4346); (4349, 4351); (5024, 5109); (5112, 5117); (7296, 7304); (7312, 7354);
   (7357, 7359); (7424, 7615); (7680, 7957); (7960, 7965); (7968, 8005); (8008, 8013);
   (8016, 8023); (8025, 8025); (8027, 8027); (8029, 8029); (8031, 8061); (8064, 8116);
   (8118, 8124); (8126, 8126); (8130, 8132); (8134, 8140); (8144, 8147); (8150, 8155);
   (8160, 8172); (8178, 8180); (8182, 8188); (8305, 8305); (8319, 8319); (8336, 8348);
   (8450, 8450); (8455, 8455); (8458, 8467); (8469, 8469); (8473, 8477); (8484, 8484);
   (8486, 8486); (8488, 8488); (8490, 8493); (8495, 8500); (8505, 8505); (8508, 8511);
   (8517, 8521); (8526, 8526); (8544, 8575); (8579, 8580); (9398, 9449); (11264, 11492);
   (11499, 11502); (11506, 11507); (11520, 11557); (11559, 11559); (11565, 11565); (42560, 42605);
   (42624, 42653); (42786, 42887); (42891, 42894); (42896, 42954); (42960, 42961); (42963, 42963);
   (42965, 42969); (42997, 42998); (43000, 43002); (43824, 43866); (43868, 43880); (43888, 43967);
   (64256, 64262); (64275, 64279); (65313, 65338); (65345, 65370); (66560, 66639); (66736, 66771);
   (66776, 66811); (66928, 66938); (66940, 66954); (66956, 66962); (66964, 66965); (66967, 66977);
   (66979, 66993); (66995, 67001); (67003, 67004); (67456, 67456); (67459, 67461); (67463, 67504);
   (67506, 67514); (68736, 68786); (68800, 68850); (71840, 71903); (93760, 93823); (119808, 119892);
   (119894, 119964); (119966, 119967); (119970, 119970); (119973, 119974); (119977, 119980); (119982, 119993);
   (119995, 119995); (119997, 120003); (120005, 120069); (120071, 120074); (120077, 120084); (120086, 120092);
   (120094, 120121); (120123, 120126); (120128, 120132); (120134, 120134); (120138, 120144); (120146, 120485);
   (120488, 120512); (120514, 120538); (120540, 120570); (120572, 120596); (120598, 120628); (120630, 120654);
   (120656, 120686); (120688, 120712); (120714, 120744); (120746, 120770); (120772, 120779); (122624, 122633);
   (122635, 122654); (125184, 125251); (127280, 127305); (127312, 127337); (127344, 127369) ].

Definition cased (c : N) : bool := in_ranges cased_ranges c.

(** The characters with the property Case_Ignorable. *)
Definition case_ignorable_ranges : list (N * N) :=
  [
   (39, 39); (46, 46); (58, 58); (94, 94); (96, 96); (168, 168);
   (173, 173); (175, 175); (180, 180); (183, 184); (688, 879); (884, 885);
   (890, 890); (900, 901); (903, 903); (1155, 1161); (1369, 1369); (1375, 1375);
   (1425, 1469); (1471, 1471); (1473, 1474); (1476, 1477); (1479, 1479); (1524, 1524);
   (1536, 1541); (1552, 1562); (1564, 1564); (1600, 1600); (1611, 1631); (1648, 1648);
   (1750, 1757); (1759, 1768); (1770, 1773); (1807, 1807); (1809, 1809); (1840, 1866);
   (1958, 1968); (2027, 2037); (2042, 2042); (2045, 2045); (2070, 2093); (2137, 2139);
   (2184, 2184); (2192, 2193); (2200, 2207); (2249, 2306); (2362, 2362); (2364, 2364);
   (2369, 2376); (2381, 2381); (2385, 2391); (2402, 2403); (2417, 2417); (2433, 2433);
   (2492, 2492); (2497, 2500); (2509, 2509); (2530, 2531); (2558, 2558); (2561, 2562);
   (2620, 2620); (2625, 2626); (2631, 2632); (2635, 2637); (2641, 2641); (2672, 2673);
   (2677, 2677); (2689, 2690); (2748, 2748); (2753, 2757); (2759, 2760); (2765, 2765);
   (2786, 2787); (2810, 2815); (2817, 2817); (2876, 2876); (2879, 2879); (2881, 2884);
   (2893, 2893); (2901, 2902); (2914, 2915); (2946, 2946); (3008, 3008); (3021, 3021);
   (3072, 3072); (3076, 3076); (3132, 3132); (3134, 3136); (3142, 3144); (3146, 3149);
   (3157, 3158); (3170, 3171); (3201, 3201); (3260, 3260); (3263, 3263); (3270, 3270);
   (3276, 3277); (3298, 3299); (3328, 3329); (3387, 3388); (3393, 3396); (3405, 3405);
   (3426, 3427); (3457, 3457); (3530, 3530); (3538, 3540); (3542, 3542); (3633, 3633);
   (3636, 3642); (3654, 3662); (3761, 3761); (3764, 3772); (3782, 3782); (3784, 3789);
   (3864, 3865); (3893, 3893); (3895, 3895); (3897, 3897); (3953, 3966); (3968, 3972);
   (3974, 3975); (3981, 3991); (3993, 4028); (4038, 4038); (4141, 4144); (4146, 4151);
   (4153, 4154); (4157, 4158); (4184, 4185); (4190, 4192); (4209, 4212); (4226, 4226);
   (4229, 4230); (4237, 4237); (4253, 4253); (4348, 4348); (4957, 4959); (5906, 5908);
   (5938, 5939); (5970, 5971); (6002, 6003); (6068, 6069); (6071, 6077); (6086, 6086);
   (6089, 6099); (6103, 6103); (6109, 6109); (6155, 6159); (6211, 6211); (6277, 6278);
   (6313, 6313); (6432, 6434); (6439, 6440); (6450, 6450); (6457, 6459); (6679, 6680);
   (6683, 6683); (6742, 6742); (6744, 6750); (6752, 6752); (6754, 6754); (6757, 6764);
   (6771, 6780); (6783, 6783); (6823, 6823); (6832, 6862); (6912, 6915); (6964, 6964);
   (6966, 6970); (6972, 6972); (6978, 6978); (7019, 7027); (7040, 7041); (7074, 7077);
   (7080, 7081); (7083, 7085); (7142, 7142); (7144, 7145); (7149, 7149); (7151, 7153);
   (7212, 7219); (7222, 7223); (7288, 7293); (7376, 7378); (7380, 7392); (7394, 7400);
   (7405, 7405); (7412, 7412); (7416, 7417); (7468, 7530); (7544, 7544); (7579, 7679);
   (8125, 8125); (8127, 8129); (8141, 8143); (8157, 8159); (8173, 8175); (8189, 8190);
   (8203, 8207); (8216, 8217); (8228, 8228); (8231, 8231); (8234, 8238); (8288, 8292);
   (8294, 8303); (8305, 8305); (8319, 8319); (8336, 8348); (8400, 8432); (11388, 11389);
   (11503, 11505); (11631, 11631); (11647, 11647); (11744, 11775); (11823, 11823); (12293, 12293);
   (12330, 12333); (12337, 12341); (12347, 12347); (12441, 12446); (12540, 12542); (40981, 40981);
   (42232, 42237); (42508, 42508); (42607, 42610); (42612, 42621); (42623, 42623); (42652, 42655);
   (42736, 42737); (42752, 42785); (42864, 42864); (42888, 42890); (42994, 42996); (43000, 43001);
   (43010, 43010); (43014, 43014); (43019, 43019); (43045, 43046); (43052, 43052); (43204, 43205);
   (43232, 43249); (43263, 43263); (43302, 43309); (43335, 43345); (43392, 43394); (43443, 43443);
   (43446, 43449); (43452, 43453); (43471, 43471); (43493, 43494); (43561, 43566); (43569, 43570);
   (43573, 43574); (43587, 43587); (43596, 43596); (43632, 43632); (43644, 43644); (43696, 43696);
   (43698, 43700); (43703, 43704); (43710, 43711); (43713, 43713); (43741, 43741); (43756, 43757);
   (43763, 43764); (43766, 43766); (43867, 43871); (43881, 43883); (44005, 44005); (44008, 44008);
   (44013, 44013); (64286, 64286); (64434, 64450); (65024, 65039); (65043, 65043); (65056, 65071);
   (65106, 65106); (65109, 65109); (65279, 65279); (65287, 65287); (65294, 65294); (65306, 65306);
   (65342, 65342); (65344, 65344); (65392, 65392); (65438, 65439); (65507, 65507); (65529, 65531);
   (66045, 66045); (66272, 66272); (66422, 66426); (67456, 67461); (67463, 67504); (67506, 67514);
   (68097, 68099); (68101, 68102); (68108, 68111); (68152, 68154); (68159, 68159); (68325, 68326);
   (68900, 68903); (69291, 69292); (69446, 69456); (69506, 69509); (69633, 69633); (69688, 69702);
   (69744, 69744); (69747, 69748); (69759, 69761); (69811, 69814); (69817, 69818); (69821, 69821);
   (69826, 69826); (69837, 69837); (69888, 69890); (69927, 69931); (69933, 69940); (70003, 70003);
   (70016, 70017); (70070, 70078); (70089, 70092); (70095, 70095); (70191, 70193); (70196, 70196);
   (70198, 70199); (70206, 70206); (70367, 70367); (70371, 70378); (70400, 70401); (70459, 70460);
   (70464, 70464); (70502, 70508); (70512, 70516); (70712, 70719); (70722, 70724); (70726, 70726);
   (70750, 70750); (70835, 70840); (70842, 70842); (70847, 70848); (70850, 70851); (71090, 71093);
   (71100, 71101); (71103, 71104); (71132, 71133); (71219, 71226); (71229, 71229); (71231, 71232);
   (71339, 71339); (71341, 71341); (71344, 71349); (71351, 71351); (71453, 71455); (71458, 71461);
   (71463, 71467); (71727, 71735); (71737, 71738); (71995, 71996); (71998, 71998); (72003, 72003);
   (72148, 72151); (72154, 72155); (72160, 72160); (72193, 72202); (72243, 72248); (72251, 72254);
   (72263, 72263); (72273, 72278); (72281, 72283); (72330, 72342); (72344, 72345); (72752, 72758);
   (72760, 72765); (72767, 72767); (72850, 72871); (72874, 72880); (72882, 72883); (72885, 72886);
   (73009, 73014); (73018, 73018); (73020, 73021); (73023, 73029); (73031, 73031); (73104, 73105);
   (73109, 73109); (73111, 73111); (73459, 73460); (78896, 78904); (92912, 92916); (92976, 92982);
   (92992, 92995); (94031, 94031); (94095, 94111); (94176, 94177); (94179, 94180); (110576, 110579);
   (110581, 110587); (110589, 110590); (113821, 113822); (113824, 113827); (118528, 118573); (118576, 118598);
   (119143, 119145); (119155, 119170); (119173, 119179); (119210, 119213); (119362, 119364); (121344, 121398);
   (121403, 121452); (121461, 121461); (121476, 121476); (121499, 121503); (121505, 121519); (122880, 122886);
   (122888, 122904); (122907, 122913); (122915, 122916); (122918, 122922); (123184, 123197); (123566, 123566);
   (123628, 123631); (125136, 125142); (125252, 125259); (127995, 127999); (917505, 917505); (917536, 917631);
   (917760, 917999) ].

Definition case_ignorable (c : N) : bool := in_ranges case_ignorable_ranges c.

(** The simple lower-case mapping.  A run [(lo, hi, step, target)] maps
    [lo], [lo + step], ..., [hi] to [target], [target + step], ...; every
    other character is its own lower case. *)
Definition lowercase_runs : list (N * N * N * N) :=
  [
   (65, 90, 1, 97); (192, 214, 1, 224); (216, 222, 1, 248); (256, 302, 2, 257);
   (304, 304, 1, 105); (306, 310, 2, 307); (313, 327, 2, 314); (330, 374, 2, 331);
   (376, 376, 1, 255); (377, 381, 2, 378); (385, 385, 1, 595); (386, 388, 2, 387);
   (390, 390, 1, 596); (391, 391, 1, 392); (393, 394, 1, 598); (395, 395, 1, 396);
   (398, 398, 1, 477); (399, 399, 1, 601); (400, 400, 1, 603); (401, 401, 1, 402);
   (403, 403, 1, 608); (404, 404, 1, 611); (406, 406, 1, 617); (407, 407, 1, 616);
   (408, 408, 1, 409); (412, 412, 1, 623); (413, 413, 1, 626); (415, 415, 1, 629);
   (416, 420, 2, 417); (422, 422, 1, 640); (423, 423, 1, 424); (425, 425, 1, 643);
   (428, 428, 1, 429); (430, 430, 1, 648); (431, 431, 1, 432); (433, 434, 1, 650);
   (435, 437, 2, 436); (439, 439, 1, 658); (440, 440, 1, 441); (444, 444, 1, 445);
   (452, 452, 1, 454); (453, 453, 1, 454); (455, 455, 1, 457); (456, 456, 1, 457);
   (458, 458, 1, 460); (459, 475, 2, 460); (478, 494, 2, 479); (497, 497, 1, 499);
   (498, 500, 2, 499); (502, 502, 1, 405); (503, 503, 1, 447); (504, 542, 2, 505);
   (544, 544, 1, 414); (546, 562, 2, 547); (570, 570, 1, 11365); (571, 571, 1, 572);
   (573, 573, 1, 410); (574, 574, 1, 11366); (577, 577, 1, 578); (579, 579, 1, 384);
   (580, 580, 1, 649); (581, 581, 1, 652); (582, 590, 2, 583); (880, 882, 2, 881);
   (886, 886, 1, 887); (895, 895, 1, 1011); (902, 902, 1, 940); (904, 906, 1, 941);
   (908, 908, 1, 972); (910, 911, 1, 973); (913, 929, 1, 945); (931, 939, 1, 963);
   (975, 975, 1, 983); (984, 1006, 2, 985); (1012, 1012, 1, 952); (1015, 1015, 1, 1016);
   (1017, 1017, 1, 1010); (1018, 1018, 1, 1019); (1021, 1023, 1, 891); (1024, 1039, 1, 1104);
   (1040, 1071, 1, 1072); (1120, 1152, 2, 1121); (1162, 1214, 2, 1163); (1216, 1216, 1, 1231);
   (1217, 1229, 2, 1218); (1232, 1326, 2, 1233); (1329, 1366, 1, 1377); (4256, 4293, 1, 11520);
   (4295, 4295, 1, 11559); (4301, 4301, 1, 11565); (5024, 5103, 1, 43888); (5104, 5109, 1, 5112);
   (7312, 7354, 1, 4304); (7357, 7359, 1, 4349); (7680, 7828, 2, 7681); (7838, 7838, 1, 223);
   (7840, 7934, 2, 7841); (7944, 7951, 1, 7936); (7960, 7965, 1, 7952); (7976, 7983, 1, 7968);
   (7992, 7999, 1, 7984); (8008, 8013, 1, 8000); (8025, 8031, 2, 8017); (8040, 8047, 1, 8032);
   (8072, 8079, 1, 8064); (8088, 8095, 1, 8080); (8104, 8111, 1, 8096); (8120, 8121, 1, 8112);
   (8122, 8123, 1, 8048); (8124, 8124, 1, 8115); (8136, 8139, 1, 8050); (8140, 8140, 1, 8131);
   (8152, 8153, 1, 8144); (8154, 8155, 1, 8054); (8168, 8169, 1, 8160); (8170, 8171, 1, 8058);
   (8172, 8172, 1, 8165); (8184, 8185, 1, 8056); (8186, 8187, 1, 8060); (8188, 8188, 1, 8179);
   (8486, 8486, 1, 969); (8490, 8490, 1, 107); (8491, 8491, 1, 229); (8498, 8498, 1, 8526);
   (8544, 8559, 1, 8560); (8579, 8579, 1, 8580); (9398, 9423, 1, 9424); (11264, 11311, 1, 11312);
   (11360, 11360, 1, 11361); (11362, 11362, 1, 619); (11363, 11363, 1, 7549); (11364, 11364, 1, 637);
   (11367, 11371, 2, 11368); (11373, 11373, 1, 593); (11374, 11374, 1, 625); (11375, 11375, 1, 592);
   (11376, 11376, 1, 594); (11378, 11378, 1, 11379); (11381, 11381, 1, 11382); (11390, 11391, 1, 575);
   (11392, 11490, 2, 11393); (11499, 11501, 2, 11500); (11506, 11506, 1, 11507); (42560, 42604, 2, 42561);
   (42624, 42650, 2, 42625); (42786, 42798, 2, 42787); (42802, 42862, 2, 42803); (42873, 42875, 2, 42874);
   (42877, 42877, 1, 7545); (42878, 42886, 2, 42879); (42891, 42891, 1, 42892); (42893, 42893, 1, 613);
   (42896, 42898, 2, 42897); (42902, 42920, 2, 42903); (42922, 42922, 1, 614); (42923, 42923, 1, 604);
   (42924, 42924, 1, 609); (42925, 42925, 1, 620); (42926, 42926, 1, 618); (42928, 42928, 1, 670);
   (42929, 42929, 1, 647); (42930, 42930, 1, 669); (42931, 42931, 1, 43859); (42932, 42946, 2, 42933);
   (42948, 42948, 1, 42900); (42949, 42949, 1, 642); (42950, 42950, 1, 7566); (42951, 42953, 2, 42952);
   (42960, 42960, 1, 42961); (42966, 42968, 2, 42967); (42997, 42997, 1, 42998); (65313, 65338, 1, 65345);
   (66560, 66599, 1, 66600); (66736, 66771, 1, 66776); (66928, 66938, 1, 66967); (66940, 66954, 1, 66979);
   (66956, 66962, 1, 66995); (66964, 66965, 1, 67003); (68736, 68786, 1, 68800); (71840, 71871, 1, 71872);
   (93760, 93791, 1, 93792); (125184, 125217, 1, 125218) ].

Definition in_run (c : N) (r : N * N * N * N) : bool :=
  let '(lo, hi, step, _) := r in
  (lo <=? c) && (c <=? hi) && ((c - lo) mod step =? 0).

Definition tolower (c : N) : N :=
  match find (in_run c) lowercase_runs with
  | Some (lo, _, _, target) => target + (c - lo)
  | None => c
  end.

(** [s.lstrip()], [s.rstrip()], [s.strip()] *)
Fixpoint lstrip (s : str) : str :=
  match s with
  | [] => []
  | c :: s' => if isspace c then lstrip s' else s
  end.

Definition rstrip (s : str) : str := rev (lstrip (rev s)).

Definition strip (s : str) : str := rstrip (lstrip s).

(** [s.lower()].  Capital sigma becomes the final sigma when a cased
    character comes before it and none after it, case-ignorable characters
    being skipped on both sides; capital I with dot above becomes [i] and a
    combining dot; every other character takes its simple lower case. *)
Fixpoint skip_ignorable (s : str) : str :=
  match s with
  | [] => []
  | c :: s' => if case_ignorable c then skip_ignorable s' else s
  end.

(** [before] is the text before the sigma, last character first. *)
Definition final_sigma (before after : str) : bool :=
  match skip_ignorable before with
  | [] => false
  | c :: _ =>
      cased c &&
      match skip_ignorable after with
      | [] => true
      | c' :: _ => negb (cased c')
      end
  end.

Definition lower_char (before after : str) (c : N) : str :=
  if c =? 931 then [if final_sigma before after then 962 else 963]
  else if c =? 304 then [105; 775]
  else [tolower c].

Fixpoint lower_from (before s : str) : str :=
  match s with
  | [] => []
  | c :: s' => lower_char before s' c ++ lower_from (c :: before) s'
  end.

Definition lower (s : str) : str := lower_from [] s.

Definition truthy (o : option str) : bool :=
  match o with
  | Some (_ :: _) => true
  | _ => false
  end.

(** The matcher, as for 8-bit text. *)
Record atom := Atom {
  cls : N -> bool;
  rmin : nat;
  rmax : option nat
}.

Abbreviation regex := (list atom).

Fixpoint span_all (p : N -> bool) (s : str) : nat :=
  match s with
  | c :: s' => if p c then S (span_all p s') else 0%nat
  | [] => 0%nat
  end.

Definition span (p : N -> bool) (limit : option nat) (s : str) : nat :=
  match limit with
  | Some h => Nat.min h (span_all p s)
  | None => span_all p s
  end.

Fixpoint backtrack (k : str -> option nat) (s : str) (lo n : nat) : option nat :=
  if (n <? lo)%nat then None
  else
    match k (skipn n s) with
    | Some m => Some (n + m)%nat
    | None =>
        match n with
        | O => None
        | S n' => backtrack k s lo n'
        end
    end.

Fixpoint match_here (r : regex) (s : str) : option nat :=
  match r with
  | [] => Some 0%nat
  | a :: r' => backtrack (match_here r') s (rmin a) (span (cls a) (rmax a) s)
  end.

Fixpoint re_search (r : regex) (s : str) : option str :=
  match match_here r s with
  | Some n => Some (firstn n s)
  | None =>
      match s with
      | [] => None
      | _ :: s' => re_search r s'
      end
  end.

(** The characters that [re] adds to a lowered character of a set, because
    they have the same capital (the table of [re._casefix]). *)
Definition extra_cases : list (N * list N) :=
  [
   (105, [305]); (115, [383]); (181, [956]); (305, [105]); (383, [115]);
   (837, [953; 8126]); (912, [8147]); (944, [8163]); (946, [976]); (949, [1013]);
   (952, [977]); (953, [837; 8126]); (954, [1008]); (956, [181]); (960, [982]);
   (961, [1009]); (962, [963]); (963, [962]); (966, [981]); (976, [946]);
   (977, [952]); (981, [966]); (982, [960]); (1008, [954]); (1009, [961]);
   (1013, [949]); (1074, [7296]); (1076, [7297]); (1086, [7298]); (1089, [7299]);
   (1090, [7300; 7301]); (1098, [7302]); (1123, [7303]); (7296, [1074]); (7297, [1076]);
   (7298, [1086]); (7299, [1089]); (7300, [1090; 7301]); (7301, [1090; 7300]); (7302, [1098]);
   (7303, [1123]); (7304, [42571]); (7777, [7835]); (7835, [7777]); (8126, [837; 953]);
   (8147, [912]); (8163, [944]); (42571, [7304]); (64261, [64262]); (64262, [64261]) ].

Definition casefix (c : N) : list N :=
  match find (fun p => fst p =? c) extra_cases with
  | Some p => snd p
  | None => []
  end.

Definition range (r : N * N) : list N :=
  map (fun i => fst r + N.of_nat i) (seq 0 (N.to_nat (snd r + 1 - fst r))).

(** [re.IGNORECASE] on a set of characters and ranges: the set is compiled
    to the lower case of its members and the characters [casefix] adds to
    them, and a character of the text is looked up by its lower case. *)
Definition charmap (set : list (N * N)) : list N :=
  flat_map (fun i => tolower i :: casefix (tolower i)) (flat_map range set).

Definition ignorecase (set : list (N * N)) (c : N) : bool :=
  existsb (N.eqb (tolower c)) (charmap set).

(** A literal character that has no case matches itself only. *)
Definition chr (c : N) : atom := Atom (N.eqb c) 1 (Some 1%nat).

(** The set [[-._;()/:A-Z0-9]] as written. *)
Definition doi_set : list (N * N) :=
  [(45, 45); (46, 46); (95, 95); (59, 59); (40, 40); (41, 41); (47, 47);
   (58, 58); (65, 90); (48, 57)].

(** [r'(10\.\d{4,9}/[-._;()/:A-Z0-9]+)'] with [re.IGNORECASE]. *)
Definition doi_pattern : regex :=
  [ chr 49; chr 48; chr 46;
    Atom isdecimal 4 (Some 9%nat);
    chr 47;
    Atom (ignorecase doi_set) 1 None ].

Inductive diagnostic :=
  | DoiNotStandard (doi_string : str).   (* warning, line 30 *)

Definition normalize_doi (doi_string : option str) : str * list diagnostic :=
  if negb (truthy doi_string) then ([], [])
  else
    let doi_string := lower (strip (default [] doi_string)) in
    match re_search doi_pattern doi_string with
    | Some group1 => (group1, [])
    | None => (doi_string, [DoiNotStandard doi_string])
    end.

(** ** The shape of a DOI, as the pattern has it on any text *)

(** The characters that the set of the pattern takes when case is
    ignored: the ASCII letters and digits, the eight punctuation
    characters, and the four letters outside ASCII whose lower case or
    capital is [i], [s] or [k]: capital I with dot above (U+0130), dotless
    i (U+0131), long s (U+017F) and the Kelvin sign (U+212A). *)
Definition doi_char (c : N) : bool :=
  in_ranges [(65, 90); (97, 122); (48, 57)] c ||
  existsb (N.eqb c) (lit "-._;()/:") ||
  existsb (N.eqb c) [304; 305; 383; 8490].

(** [10.], four to nine decimal digits of any script, [/], a non-empty
    run of [doi_char]s. *)
Definition doi_shape (m : str) : Prop :=
  exists digits run,
    m = lit "10." ++ digits ++ 47 :: run /\
    (4 <= length digits <= 9)%nat /\
    forallb isdecimal digits = true /\
    run <> [] /\
    forallb doi_char run = true.

Definition contains_doi (s : str) : Prop :=
  exists pre m post, s = pre ++ m ++ post /\ doi_shape m.

Definition run_ends (post : str) : Prop :=
  match post with
  | [] => True
  | c :: _ => doi_char c = false
  end.

Definition no_earlier_match (pre rest : str) : Prop :=
  forall a b, pre = a ++ b -> b <> [] ->
    ~ exists m' tl, doi_shape m' /\ b ++ rest = m' ++ tl.

(** The executable form of [no_earlier_match]: the matcher fails at
    every position of [pre]. *)
Fixpoint no_match_in (pre rest : str) : bool :=
  match pre with
  | [] => true
  | _ :: pre' =>
      match match_here doi_pattern (pre ++ rest) with
      | Some _ => false
      | None => no_match_in pre' rest
      end
  end.

(** The same shape with the ASCII digits and the ASCII letters only. *)
Definition ascii_doi_char (c : N) : bool :=
  in_ranges [(65, 90); (97, 122); (48, 57)] c ||
  existsb (N.eqb c) (lit "-._;()/:").

Definition ascii_doi_shape (m : str) : Prop :=
  exists digits run,
    m = lit "10." ++ digits ++ 47 :: run /\
    (4 <= length digits <= 9)%nat /\
    forallb (fun c => in_ranges [(48, 57)] c) digits = true /\
    run <> [] /\
    forallb ascii_doi_char run = true.

(** A text whose only digits after [10.] are Arabic-Indic ones. *)
Definition sample_arabic_digits : str :=
  lit "x 10." ++ [1633; 1634; 1635; 1636] ++ lit "/a y".

(** ** Vocabulary of the proofs *)

(** The characters of a run, and what [tolower] makes of a character of
    the run. *)
Definition run_chars (r : N * N * N * N) : list N :=
  let '(lo, hi, step, _) := r in
  map (fun i => lo + step * N.of_nat i) (seq 0 (N.to_nat ((hi - lo) / step + 1))).

Definition run_image (r : N * N * N * N) (c : N) : N :=
  let '(lo, _, _, target) := r in target + (c - lo).

(** Two characters that no atom of the pattern tells apart. *)
Definition same_class (c x : N) : bool :=
  eqb (isdecimal c) (isdecimal x) && eqb (doi_char c) (doi_char x) &&
  forallb (fun l => eqb (c =? l) (x =? l)) [49; 48; 46; 47].

(** [t] is [s] with every character replaced by one of the same class,
    or capital I with dot above replaced by [i] and the combining dot. *)
Inductive lowered : str -> str -> Prop :=
  | lowered_nil : lowered [] []
  | lowered_char c x s t :
      same_class c x = true -> lowered s t -> lowered (c :: s) (x :: t)
  | lowered_dotted s t :
      lowered s t -> lowered (304 :: s) (105 :: 775 :: t).

End Unicode.

(** A text of 8-bit characters as a text of code points, and the
    warnings of [normalize_doi] among the messages logged. *)
Definition of_latin1 (s : str) : Unicode.str := map code s.

Definition doi_warnings (messages : list diagnostic) : list Unicode.diagnostic :=
  flat_map (fun d => match d with
                     | DoiNotStandard doi_string =>
                         [Unicode.DoiNotStandard (of_latin1 doi_string)]
                     | _ => []
                     end) messages.

(** The atoms of the two patterns take the same characters. *)
Definition same_atom (a : atom) (a' : Unicode.atom) : Prop :=
  rmin a = Unicode.rmin a' /\ rmax a = Unicode.rmax a' /\
  forall c, Unicode.cls a' (code c) = cls a c.

(* ================================================================== *)
(** * Sample runs *)
(* ================================================================== *)

Example normalize_doi_resolver_url :
  normalize_doi (Some (lit "https://doi.org/10.1109/x.2024.1"))
  = (lit "10.1109/x.2024.1", []).
Proof. vm_compute. reflexivity. Qed.

Example normalize_doi_mixed_case :
  normalize_doi (Some (lit " 10.3390/F16060891 ")) = (lit "10.3390/f16060891", []).
Proof. vm_compute. reflexivity. Qed.

(** Ten digits after [10.] are one too many for [\d{4,9}]. *)
Example normalize_doi_ten_digits :
  normalize_doi (Some (lit "10.1234567890/ABC"))
  = (lit "10.1234567890/abc", [DoiNotStandard (lit "10.1234567890/abc")]).
Proof. vm_compute. reflexivity. Qed.

Example normalize_doi_blank :
  normalize_doi (Some (lit "   ")) = ([], [DoiNotStandard []]).
Proof. vm_compute. reflexivity. Qed.

Example standardize_mdpi :
  standardize_bibtex_file [sample_mdpi]
  = ([[(ID, lit "f16060891"); (ENTRYTYPE, lit "Article");
       (lit "doi", lit "10.3390/f16060891");
       (lit "title", lit "Study on Forest Growing Stock Volume");
       (lit "abstract", []); (lit "keywords", []); (lit "author", []);
       (lit "year", []); (lit "publisher", []); (lit "journal", lit "Forests");
       (lit "booktitle", []); (lit "pages", []); (lit "volume", []);
       (lit "number", [])]], []).
Proof. vm_compute. reflexivity. Qed.

Example standardize_booktitle_fallback :
  map (fun fe => (dict_get fe (lit "journal"), dict_get fe (lit "booktitle")))
      (fst (standardize_bibtex_file [sample_inproceedings]))
  = [(Some (lit "Proc. X"), Some (lit "Proc. X"))].
Proof. vm_compute. reflexivity. Qed.

(* ================================================================== *)
(** * Characters *)
(* ================================================================== *)

Ltac each_char c :=
  destruct c as [[] [] [] [] [] [] [] []]; vm_compute; try reflexivity; try discriminate.

Lemma ignorecase_doi_set c : ignorecase doi_set c = doi_char c.
Proof. each_char c. Qed.

Lemma ignorecase_literal c x :
  In c (lit "10./") -> ignorecase (Ascii.eqb c) x = Ascii.eqb c x.
Proof.
  intros Hc. cbn in Hc.
  destruct Hc as [<- | [<- | [<- | [<- | []]]]]; each_char x.
Qed.

Lemma isspace_lower c : isspace (char_lower c) = isspace c.
Proof. each_char c. Qed.

Lemma char_lower_idem c : char_lower (char_lower c) = char_lower c.
Proof. each_char c. Qed.

Lemma doi_char_lower c : doi_char (char_lower c) = doi_char c.
Proof. each_char c. Qed.

Lemma isdigit_lower c : isdigit (char_lower c) = isdigit c.
Proof. each_char c. Qed.


Lemma doi_char_not_space c : doi_char c = true -> isspace c = false.
Proof. each_char c. Qed.

Lemma isdigit_doi_char c : isdigit c = true -> doi_char c = true.
Proof. each_char c. Qed.

(* ================================================================== *)
(** * [lower] and [strip] *)
(* ================================================================== *)

Section Strings.

Lemma lower_app a b : lower (a ++ b) = lower a ++ lower b.
Proof. apply map_app. Qed.

Lemma lower_idem s : lower (lower s) = lower s.
Proof.
  unfold lower. rewrite map_map. apply map_ext. apply char_lower_idem.
Qed.

Lemma lower_length s : length (lower s) = length s.
Proof. apply length_map. Qed.

Lemma lower_nil_inv s : lower s = [] -> s = [].
Proof. destruct s; [reflexivity | discriminate]. Qed.


Lemma lstrip_lower s : lstrip (lower s) = lower (lstrip s).
Proof.
  induction s as [|c s IH]; [reflexivity|].
  cbn. rewrite isspace_lower. destruct (isspace c); [exact IH | reflexivity].
Qed.

Lemma rstrip_lower s : rstrip (lower s) = lower (rstrip s).
Proof.
  unfold rstrip, lower. rewrite <- map_rev.
  fold (lower (rev s)). rewrite lstrip_lower. unfold lower. symmetry. apply map_rev.
Qed.

Lemma strip_lower s : strip (lower s) = lower (strip s).
Proof. unfold strip. rewrite lstrip_lower. apply rstrip_lower. Qed.

Lemma lstrip_idem s : lstrip (lstrip s) = lstrip s.
Proof.
  induction s as [|c s IH]; [reflexivity|].
  cbn. destruct (isspace c) eqn:E; [exact IH|]. cbn. now rewrite E.
Qed.

Lemma lstrip_snoc s c :
  lstrip (s ++ [c]) =
  match lstrip s with
  | [] => if isspace c then [] else [c]
  | l => l ++ [c]
  end.
Proof.
  induction s as [|a s IH]; [reflexivity|].
  cbn. destruct (isspace a); [exact IH | reflexivity].
Qed.

(** [rstrip] read from the left. *)
Lemma rstrip_cons c s :
  rstrip (c :: s) =
  match rstrip s with
  | [] => if isspace c then [] else [c]
  | r => c :: r
  end.
Proof.
  unfold rstrip. cbn [rev]. rewrite lstrip_snoc.
  destruct (lstrip (rev s)) as [|x l] eqn:E.
  - cbn. now destruct (isspace c).
  - rewrite rev_app_distr. cbn [rev app].
    destruct (rev l ++ [x]) eqn:E'; [|reflexivity].
    now destruct (rev l).
Qed.

Lemma rstrip_nil : rstrip [] = [].
Proof. reflexivity. Qed.

Lemma lstrip_rstrip s : lstrip (rstrip s) = rstrip (lstrip s).
Proof.
  induction s as [|c s IH]; [reflexivity|].
  rewrite rstrip_cons. cbn [lstrip].
  destruct (rstrip s) as [|x r] eqn:E.
  - destruct (isspace c) eqn:Ec.
    + now rewrite <- IH.
    + rewrite rstrip_cons, E, Ec. cbn. now rewrite Ec.
  - destruct (isspace c) eqn:Ec.
    + cbn [lstrip]. rewrite Ec. exact IH.
    + cbn [lstrip]. rewrite Ec. now rewrite rstrip_cons, E.
Qed.

Lemma rstrip_idem s : rstrip (rstrip s) = rstrip s.
Proof.
  unfold rstrip. rewrite rev_involutive. now rewrite lstrip_idem.
Qed.

Lemma strip_idem s : strip (strip s) = strip s.
Proof.
  unfold strip. rewrite lstrip_rstrip, lstrip_idem. apply rstrip_idem.
Qed.

(** What [strip] removes is at the two ends. *)
Lemma lstrip_suffix s : exists sp, s = sp ++ lstrip s.
Proof.
  induction s as [|c s [sp IH]]; [now exists []|].
  cbn. destruct (isspace c).
  - exists (c :: sp). cbn. now rewrite <- IH.
  - now exists [].
Qed.

Lemma rstrip_prefix s : exists sp, s = rstrip s ++ sp.
Proof.
  unfold rstrip. destruct (lstrip_suffix (rev s)) as [sp H].
  exists (rev sp).
  rewrite <- rev_app_distr, <- H. symmetry. apply rev_involutive.
Qed.

Lemma strip_infix s : exists l r, s = l ++ strip s ++ r.
Proof.
  destruct (lstrip_suffix s) as [l Hl].
  destruct (rstrip_prefix (lstrip s)) as [r Hr].
  exists l, r. unfold strip. now rewrite <- Hr.
Qed.

Lemma lstrip_app_keep a c b :
  isspace c = false -> lstrip (a ++ c :: b) = lstrip a ++ c :: b.
Proof.
  intros Hc. induction a as [|x a IH]; cbn.
  - now rewrite Hc.
  - destruct (isspace x); [exact IH | reflexivity].
Qed.

Lemma rstrip_app_keep a c b :
  isspace c = false -> rstrip (a ++ c :: b) = a ++ c :: rstrip b.
Proof.
  intros Hc. unfold rstrip.
  rewrite rev_app_distr. cbn [rev]. rewrite <- app_assoc. cbn [app].
  rewrite lstrip_app_keep by exact Hc.
  rewrite rev_app_distr. cbn [rev]. rewrite rev_involutive.
  now rewrite <- app_assoc.
Qed.

End Strings.

(* ================================================================== *)
(** * The matcher *)
(* ================================================================== *)

Section Matcher.

Lemma span_all_le p s : span_all p s <= length s.
Proof.
  induction s as [|c s IH]; cbn; [lia|]. destruct (p c); cbn; lia.
Qed.

Lemma span_all_firstn p s j :
  j <= span_all p s -> forallb p (firstn j s) = true.
Proof.
  revert j. induction s as [|c s IH]; intros j Hj.
  - now destruct j.
  - destruct j as [|j]; [reflexivity|]. cbn in *.
    destruct (p c); [|lia]. cbn. apply IH. lia.
Qed.

Lemma span_all_app p a b :
  forallb p a = true -> span_all p (a ++ b) = length a + span_all p b.
Proof.
  induction a as [|c a IH]; intros H; [reflexivity|].
  cbn in *. apply andb_prop in H as [Hc Ha]. rewrite Hc. now rewrite IH.
Qed.

Lemma span_le p limit s : span p limit s <= span_all p s.
Proof. destruct limit; cbn; lia. Qed.

Lemma backtrack_first k s lo n m :
  lo <= n -> k (skipn n s) = Some m -> backtrack k s lo n = Some (n + m).
Proof.
  intros Hlo Hk.
  destruct n; cbn [backtrack].
  - destruct (Nat.ltb_spec 0 lo); [lia|]. now rewrite Hk.
  - destruct (Nat.ltb_spec (S n) lo); [lia|]. now rewrite Hk.
Qed.

Lemma backtrack_sound k s lo n t :
  backtrack k s lo n = Some t ->
  exists j m, lo <= j <= n /\ k (skipn j s) = Some m /\ t = j + m.
Proof.
  induction n as [|n IH]; cbn [backtrack].
  - destruct (Nat.ltb_spec 0 lo); [discriminate|].
    destruct (k (skipn 0 s)) as [m|] eqn:E; [|discriminate].
    intros [= <-]. exists 0, m. repeat split; auto; lia.
  - destruct (Nat.ltb_spec (S n) lo); [discriminate|].
    destruct (k (skipn (S n) s)) as [m|] eqn:E.
    + intros [= <-]. exists (S n), m. repeat split; auto; lia.
    + intros H'. destruct (IH H') as (j & m & Hj & Hk & ->).
      exists j, m. repeat split; auto; lia.
Qed.

(** A match never runs past the end of the string. *)
Lemma match_here_le r s n : match_here r s = Some n -> n <= length s.
Proof.
  revert s n. induction r as [|a r IH]; intros s n; cbn [match_here].
  - intros [= <-]. lia.
  - intros H. apply backtrack_sound in H as (j & m & Hj & Hk & ->).
    apply IH in Hk. rewrite length_skipn in Hk.
    pose proof (span_le (cls a) (rmax a) s).
    pose proof (span_all_le (cls a) s). lia.
Qed.

Lemma match_here_cons a r s :
  match_here (a :: r) s =
  backtrack (match_here r) s (rmin a) (span (cls a) (rmax a) s).
Proof. reflexivity. Qed.

(** A literal character. *)
Lemma match_here_chr c r s :
  match_here (chr c :: r) s =
  match s with
  | x :: s' =>
      if ignorecase (Ascii.eqb c) x then option_map S (match_here r s') else None
  | [] => None
  end.
Proof.
  rewrite match_here_cons. cbn [chr rmin rmax cls span].
  destruct s as [|x s]; [reflexivity|]. cbn [span_all].
  destruct (ignorecase (Ascii.eqb c) x); [|reflexivity].
  rewrite (Nat.min_l 1) by lia.
  cbn [backtrack Nat.ltb Nat.leb skipn].
  change (skipn 0 s) with s.
  now destruct (match_here r s).
Qed.

(** The last atom of a pattern takes all it can. *)
Lemma match_here_last p lo s :
  match_here [Atom p lo None] s =
  if span_all p s <? lo then None else Some (span_all p s).
Proof.
  rewrite match_here_cons. cbn [rmin rmax cls span match_here].
  destruct (span_all p s) as [|u]; cbn [backtrack].
  - destruct (Nat.ltb_spec 0 lo); auto.
  - now destruct (Nat.ltb_spec (S u) lo); rewrite ?Nat.add_0_r.
Qed.

Lemma re_search_sound r s m :
  re_search r s = Some m ->
  exists a b, s = a ++ m ++ b /\ match_here r (m ++ b) = Some (length m).
Proof.
  induction s as [|c s IH]; cbn [re_search].
  - destruct (match_here r []) as [n|] eqn:E; [|discriminate].
    intros [= <-]. exists [], []. pose proof (match_here_le _ _ _ E) as Hn.
    cbn in Hn. assert (n = 0) as -> by lia. now cbn.
  - destruct (match_here r (c :: s)) as [n|] eqn:E.
    + intros [= <-]. exists [], (skipn n (c :: s)).
      pose proof (match_here_le _ _ _ E).
      rewrite firstn_skipn, length_firstn. split; [reflexivity|].
      rewrite E. f_equal. lia.
    + intros H. destruct (IH H) as (a & b & -> & Hm).
      exists (c :: a), b. auto.
Qed.


Lemma re_search_complete r pre s n :
  match_here r s = Some n -> exists m, re_search r (pre ++ s) = Some m.
Proof.
  intros Hs. induction pre as [|c pre IH].
  - exists (firstn n s). cbn [app]. destruct s; cbn [re_search]; now rewrite Hs.
  - cbn [app re_search].
    destruct (match_here r (c :: pre ++ s)); eauto.
Qed.

End Matcher.

(* ================================================================== *)
(** * The DOI pattern *)
(* ================================================================== *)

Section DoiPattern.

Lemma span_all_ext p q s :
  (forall c, p c = q c) -> span_all p s = span_all q s.
Proof.
  intros H. induction s as [|c s IH]; [reflexivity|].
  cbn. rewrite H, IH. reflexivity.
Qed.

Lemma literal_matches c x :
  In c (lit "10./") -> ignorecase (Ascii.eqb c) x = true -> x = c.
Proof.
  intros Hc. rewrite ignorecase_literal by exact Hc.
  intros H. symmetry. now apply Ascii.eqb_eq.
Qed.

Lemma literal_self c : In c (lit "10./") -> ignorecase (Ascii.eqb c) c = true.
Proof.
  intros Hc. rewrite ignorecase_literal by exact Hc. apply Ascii.eqb_refl.
Qed.


(** At the start of a string that begins with a DOI the matcher takes
    the DOI and as much of what follows as continues its run. *)
Lemma match_doi_complete m q :
  doi_shape m ->
  match_here doi_pattern (m ++ q) = Some (length m + span_all doi_char q).
Proof.
  intros (ds & run & -> & Hlen & Hds & Hrun & Hrc).
  unfold doi_pattern. change (lit "10.") with ["1"; "0"; "."]%char.
  rewrite <- !app_assoc. cbn [app].
  rewrite !match_here_chr, !literal_self by (cbn; auto).
  rewrite match_here_cons. cbn [rmin rmax cls span].
  rewrite span_all_app by exact Hds. cbn [span_all].
  change (isdigit "/") with false.
  rewrite Nat.add_0_r, Nat.min_r by lia.
  rewrite (backtrack_first _ _ _ _ (S (length run + span_all doi_char q))).
  - cbn [option_map length]. f_equal. rewrite length_app. cbn [length]. lia.
  - lia.
  - rewrite drop_app_length, match_here_chr, literal_self by (cbn; auto).
    rewrite match_here_last.
    rewrite (span_all_ext _ doi_char) by apply ignorecase_doi_set.
    rewrite span_all_app by exact Hrc.
    destruct run; [congruence|]. cbn [length].
    destruct (Nat.ltb_spec (S (length run) + span_all doi_char q) 1); [lia|].
    reflexivity.
Qed.

(** Whatever the matcher takes has the shape of a DOI. *)
Lemma match_doi_sound s n :
  match_here doi_pattern s = Some n -> doi_shape (firstn n s).
Proof.
  unfold doi_pattern. rewrite match_here_chr.
  destruct s as [|x1 s]; [discriminate|].
  destruct (ignorecase (Ascii.eqb "1") x1) eqn:E1; [|discriminate].
  apply literal_matches in E1 as ->; [|cbn; auto].
  rewrite match_here_chr.
  destruct s as [|x2 s]; [discriminate|].
  destruct (ignorecase (Ascii.eqb "0") x2) eqn:E2; [|discriminate].
  apply literal_matches in E2 as ->; [|cbn; auto].
  rewrite match_here_chr.
  destruct s as [|x3 s]; [discriminate|].
  destruct (ignorecase (Ascii.eqb ".") x3) eqn:E3; [|discriminate].
  apply literal_matches in E3 as ->; [|cbn; auto].
  rewrite match_here_cons. cbn [rmin rmax cls span].
  destruct (backtrack _ s 4 _) as [t|] eqn:Hb; [|discriminate].
  cbn [option_map]. intros [= <-].
  apply backtrack_sound in Hb as (j & m & Hj & Hk & ->).
  rewrite match_here_chr in Hk.
  destruct (skipn j s) as [|x5 s5] eqn:Hs5; [discriminate|].
  destruct (ignorecase (Ascii.eqb "/") x5) eqn:E5; [|discriminate].
  apply literal_matches in E5 as ->; [|cbn; auto].
  rewrite match_here_last in Hk.
  rewrite (span_all_ext _ doi_char) in Hk by apply ignorecase_doi_set.
  destruct (Nat.ltb_spec (span_all doi_char s5) 1) as [|Hu]; [discriminate|].
  cbn [option_map] in Hk. injection Hk as <-.
  pose proof (span_all_le isdigit s) as Hle.
  assert (Hjs : j <= span_all isdigit s) by lia.
  exists (firstn j s), (firstn (span_all doi_char s5) s5).
  assert (Hlj : length (firstn j s) = j) by (rewrite length_firstn; lia).
  repeat split.
  - cbn [firstn]. change (lit "10.") with ["1"; "0"; "."]%char.
    cbn [app]. do 3 f_equal.
    rewrite <- (firstn_skipn j s) at 1. rewrite Hs5.
    rewrite firstn_app, Hlj.
    replace (j + S (span_all doi_char s5) - j) with (S (span_all doi_char s5)) by lia.
    rewrite firstn_firstn. rewrite Nat.min_r by lia. reflexivity.
  - lia.
  - lia.
  - now apply span_all_firstn.
  - pose proof (span_all_le doi_char s5).
    intros Hnil. apply (f_equal (@length _)) in Hnil.
    rewrite length_firstn in Hnil. cbn in Hnil. lia.
  - now apply span_all_firstn.
Qed.

Lemma re_search_doi_shape s m :
  re_search doi_pattern s = Some m ->
  doi_shape m /\ exists a b, s = a ++ m ++ b.
Proof.
  intros H. apply re_search_sound in H as (a & b & -> & Hm).
  apply match_doi_sound in Hm. rewrite firstn_app, Nat.sub_diag in Hm.
  rewrite firstn_all in Hm. cbn in Hm. rewrite app_nil_r in Hm. eauto.
Qed.

(** The search finds something exactly when a DOI occurs in the text. *)
Lemma re_search_contains s :
  contains_doi s <-> exists m, re_search doi_pattern s = Some m.
Proof.
  split.
  - intros (pre & m & post & -> & Hm).
    eapply re_search_complete. now apply match_doi_complete.
  - intros (m & H). apply re_search_doi_shape in H as (Hm & a & b & ->).
    now exists a, m, b.
Qed.

Lemma re_search_none s :
  re_search doi_pattern s = None <-> ~ contains_doi s.
Proof.
  rewrite re_search_contains. split.
  - intros -> (m & [=]).
  - intros H. destruct (re_search doi_pattern s) eqn:E; [|reflexivity].
    exfalso. eauto.
Qed.

End DoiPattern.

(* ================================================================== *)
(** * DOIs under [lower] and [strip] *)
(* ================================================================== *)

Section DoiText.

Lemma forallb_lower p s :
  (forall c, p (char_lower c) = p c) -> forallb p (lower s) = forallb p s.
Proof.
  intros H. induction s as [|c s IH]; [reflexivity|].
  change (lower (c :: s)) with (char_lower c :: lower s).
  cbn [forallb]. now rewrite H, IH.
Qed.

Lemma doi_shape_lower m : doi_shape m -> doi_shape (lower m).
Proof.
  intros (ds & run & -> & Hlen & Hds & Hrun & Hrc).
  exists (lower ds), (lower run). repeat split.
  - now rewrite !lower_app.
  - rewrite lower_length. lia.
  - rewrite lower_length. lia.
  - now rewrite forallb_lower by apply isdigit_lower.
  - intros H. now apply lower_nil_inv in H.
  - now rewrite forallb_lower by apply doi_char_lower.
Qed.




(** A DOI begins with [1] and ends with a character of its run. *)
Lemma doi_shape_ends m :
  doi_shape m ->
  exists body z, m = "1"%char :: body ++ [z] /\ doi_char z = true.
Proof.
  intros (ds & run & -> & _ & _ & Hrun & Hrc).
  destruct (exists_last Hrun) as (run0 & z & ->).
  rewrite forallb_app in Hrc. apply andb_prop in Hrc as [_ Hz].
  cbn in Hz. rewrite andb_true_r in Hz.
  exists (["0"; "."]%char ++ ds ++ "/"%char :: run0), z. split; [|exact Hz].
  change (lit "10.") with ["1"; "0"; "."]%char. cbn [app].
  do 3 f_equal. rewrite <- app_assoc. reflexivity.
Qed.

Lemma strip_doi_shape m : doi_shape m -> strip m = m.
Proof.
  intros H. destruct (doi_shape_ends _ H) as (body & z & -> & Hz).
  unfold strip. cbn [lstrip]. change (isspace "1") with false. cbv iota.
  change ("1"%char :: body ++ [z]) with (("1"%char :: body) ++ z :: []).
  rewrite rstrip_app_keep by now apply doi_char_not_space.
  reflexivity.
Qed.

(** [strip] keeps a DOI inside the text and shortens only what is
    around it. *)
Lemma strip_around_doi pre m post :
  doi_shape m -> strip (pre ++ m ++ post) = lstrip pre ++ m ++ rstrip post.
Proof.
  intros H. destruct (doi_shape_ends _ H) as (body & z & -> & Hz).
  unfold strip. cbn [app].
  rewrite lstrip_app_keep by reflexivity.
  replace (lstrip pre ++ "1"%char :: (body ++ [z]) ++ post)
    with ((lstrip pre ++ "1"%char :: body) ++ z :: post)
    by (now rewrite <- !app_assoc).
  rewrite rstrip_app_keep by now apply doi_char_not_space.
  now rewrite <- !app_assoc.
Qed.

End DoiText.

(* ================================================================== *)
(** * [normalize_doi] *)
(* ================================================================== *)

Section NormalizeDoi.

Lemma normalize_doi_some s :
  s <> [] ->
  normalize_doi (Some s) =
  match re_search doi_pattern (lower (strip s)) with
  | Some group1 => ret group1
  | None => log (DoiNotStandard (lower (strip s))) (lower (strip s))
  end.
Proof. destruct s; [congruence | reflexivity]. Qed.





End NormalizeDoi.

(** ** Claims about [normalize_doi] *)


(* ================================================================== *)
(** * Loops that log *)
(* ================================================================== *)

Lemma fst_bind {A B} (m : logged A) (k : A -> logged B) :
  fst (bind m k) = fst (k (fst m)).
Proof. reflexivity. Qed.

Lemma snd_bind {A B} (m : logged A) (k : A -> logged B) :
  snd (bind m k) = snd m ++ snd (k (fst m)).
Proof. reflexivity. Qed.

Section Logged.
Context {S A : Type} (body : S -> A -> logged S).

Lemma for_each_cons x l st :
  for_each body (x :: l) st =
  (fst (for_each body l (fst (body st x))),
   snd (body st x) ++ snd (for_each body l (fst (body st x)))).
Proof. reflexivity. Qed.

Lemma for_each_app_fst l1 l2 st :
  fst (for_each body (l1 ++ l2) st) =
  fst (for_each body l2 (fst (for_each body l1 st))).
Proof.
  revert st. induction l1 as [|x l1 IH]; intros st; [reflexivity|].
  cbn [app]. rewrite !for_each_cons. cbn [fst]. apply IH.
Qed.

Lemma for_each_app_snd l1 l2 st :
  snd (for_each body (l1 ++ l2) st) =
  snd (for_each body l1 st) ++
  snd (for_each body l2 (fst (for_each body l1 st))).
Proof.
  revert st. induction l1 as [|x l1 IH]; intros st; [reflexivity|].
  cbn [app]. rewrite !for_each_cons. cbn [fst snd].
  rewrite IH. now rewrite app_assoc.
Qed.

(** An iteration that leaves the state alone can be taken out of the
    loop without changing the final state. *)
Lemma for_each_skip l1 x l2 st :
  fst (body (fst (for_each body l1 st)) x) = fst (for_each body l1 st) ->
  fst (for_each body (l1 ++ x :: l2) st) = fst (for_each body (l1 ++ l2) st).
Proof.
  intros H. rewrite !for_each_app_fst, for_each_cons. cbn [fst].
  now rewrite H.
Qed.

(** What an iteration logs is in the log of the loop. *)
Lemma for_each_logs l1 x l2 st d :
  In d (snd (body (fst (for_each body l1 st)) x)) ->
  In d (snd (for_each body (l1 ++ x :: l2) st)).
Proof.
  intros H. rewrite for_each_app_snd, for_each_cons. cbn [snd].
  apply in_or_app. right. apply in_or_app. now left.
Qed.

End Logged.

(* ================================================================== *)
(** * Dictionaries *)
(* ================================================================== *)

Section Dict.

Lemma dict_get_set_eq d k v : dict_get (dict_set d k v) k = Some v.
Proof.
  induction d as [|[k' v'] d IH]; cbn.
  - now rewrite bool_decide_eq_true_2.
  - destruct (bool_decide (k' = k)) eqn:E; cbn; now rewrite E.
Qed.

Lemma dict_get_set_ne d k v k' :
  k <> k' -> dict_get (dict_set d k v) k' = dict_get d k'.
Proof.
  intros Hk. induction d as [|[k0 v0] d IH]; cbn.
  - now rewrite bool_decide_eq_false_2.
  - destruct (bool_decide (k0 = k)) eqn:E; cbn.
    + apply bool_decide_eq_true in E as ->.
      now rewrite bool_decide_eq_false_2.
    + now rewrite IH.
Qed.

Lemma dict_get_set d k v k' :
  dict_get (dict_set d k v) k' = if bool_decide (k = k') then Some v else dict_get d k'.
Proof.
  case_bool_decide as E.
  - subst. apply dict_get_set_eq.
  - now apply dict_get_set_ne.
Qed.

End Dict.

(* ================================================================== *)
(** * [standardize_bibtex_file] *)
(* ================================================================== *)

Section Standardize.

Local Abbreviation run l st := (fst (for_each standardize_step l st)).
Local Abbreviation has_id d := (fun fe : entry => bool_decide (dict_get fe ID = Some d)).

Lemma truthy_some o : truthy o = true -> exists c s, o = Some (c :: s).
Proof. destruct o as [[|c s]|]; try discriminate. eauto. Qed.

Lemma missing_false e :
  missing_id_or_type e = false ->
  exists id t, dict_get e ID = Some id /\ dict_get e ENTRYTYPE = Some t /\
               id <> [] /\ t <> [].
Proof.
  unfold missing_id_or_type. intros H.
  apply orb_false_elim in H as [H1 H2].
  apply negb_false_iff, truthy_some in H1 as (c1 & s1 & H1).
  apply negb_false_iff, truthy_some in H2 as (c2 & s2 & H2).
  exists (c1 :: s1), (c2 :: s2). repeat split; auto; discriminate.
Qed.

Lemma missing_false_intro e id t :
  dict_get e ID = Some id -> dict_get e ENTRYTYPE = Some t ->
  id <> [] -> t <> [] -> missing_id_or_type e = false.
Proof.
  unfold missing_id_or_type. intros -> -> Hid Ht.
  destruct id; [congruence|]. destruct t; [congruence|]. reflexivity.
Qed.

(** The subscript of line 90 never fails: no entry is lost to the
    exception handler. *)
Lemma consolidate_journal_some d : exists d', consolidate_journal d = Some d'.
Proof.
  unfold consolidate_journal.
  destruct (dict_get d (lit "booktitle")) as [[|c b]|];
    destruct (truthy (dict_get d (lit "journal"))); cbn; eauto.
Qed.

Lemma standardize_entry_some id t e :
  exists d, fst (standardize_entry id t e) = Some (final_entry id t d).
Proof.
  unfold standardize_entry. rewrite fst_bind. unfold ret. cbn [fst].
  destruct (consolidate_journal_some
              (fill_missing
                 (dict_set (lowercase_fields e) (lit "doi")
                    (fst (normalize_doi
                            (Some (dict_get_or (lowercase_fields e) (lit "doi") [])))))))
    as [d' ->].
  now exists d'.
Qed.

Lemma final_entry_keys id t d :
  keys (final_entry id t d) = ID :: ENTRYTYPE :: essential_fields.
Proof. vm_compute. reflexivity. Qed.

Lemma final_entry_id id t d : dict_get (final_entry id t d) ID = Some id.
Proof. vm_compute. reflexivity. Qed.

Lemma final_entry_type id t d : dict_get (final_entry id t d) ENTRYTYPE = Some t.
Proof. vm_compute. reflexivity. Qed.

Lemma final_entry_get id t d f :
  In f essential_fields ->
  dict_get (final_entry id t d) f = Some (dict_get_or d f []).
Proof.
  intros H. cbn in H.
  repeat (destruct H as [<- | H]; [vm_compute; reflexivity|]). destruct H.
Qed.

Lemma standardize_entry_id id t e fe :
  fst (standardize_entry id t e) = Some fe -> dict_get fe ID = Some id.
Proof.
  destruct (standardize_entry_some id t e) as [d ->].
  intros [= <-]. apply final_entry_id.
Qed.

(** The three ways through one iteration. *)
Lemma standardize_step_rejected st e :
  missing_id_or_type e = true ->
  standardize_step st e = (st, [EntryWithoutIdOrType e]).
Proof.
  unfold standardize_step, missing_id_or_type. now intros ->.
Qed.

Lemma standardize_step_shape st e :
  standardize_step st e =
  match dict_get e ID, dict_get e ENTRYTYPE with
  | Some (c1 :: s1), Some (c2 :: s2) =>
      if bool_decide ((c1 :: s1) ∈ processed_ids st) then
        log (DuplicateEntryId (c1 :: s1)) st
      else
        r <- standardize_entry (c1 :: s1) (c2 :: s2) e ;;
        match r with
        | Some fe =>
            ret (StdState (standardized_entries st ++ [fe])
                          (processed_ids st ∪ {[ c1 :: s1 ]}))
        | None =>
            log (StandardizeError (Some (c1 :: s1)))
                (StdState (standardized_entries st)
                          (processed_ids st ∪ {[ c1 :: s1 ]}))
        end
  | _, _ => log (EntryWithoutIdOrType e) st
  end.
Proof.
  unfold standardize_step.
  destruct (dict_get e ID) as [[|c1 s1]|]; try reflexivity;
    destruct (dict_get e ENTRYTYPE) as [[|c2 s2]|]; reflexivity.
Qed.

Lemma standardize_step_duplicate st e id :
  missing_id_or_type e = false -> dict_get e ID = Some id ->
  id ∈ processed_ids st ->
  standardize_step st e = (st, [DuplicateEntryId id]).
Proof.
  intros Hm Hid Hin.
  destruct (missing_false e Hm) as (id' & t & Hid' & Ht & Hne & Hnt).
  rewrite Hid in Hid'. injection Hid' as <-.
  rewrite standardize_step_shape, Hid, Ht.
  destruct id; [congruence|]. destruct t; [congruence|].
  now rewrite bool_decide_eq_true_2.
Qed.

Lemma standardize_step_accepted st e id t :
  missing_id_or_type e = false ->
  dict_get e ID = Some id -> dict_get e ENTRYTYPE = Some t ->
  id ∉ processed_ids st ->
  exists fe,
    fst (standardize_entry id t e) = Some fe /\
    fst (standardize_step st e) =
      StdState (standardized_entries st ++ [fe]) (processed_ids st ∪ {[ id ]}).
Proof.
  intros Hm Hid Ht Hin.
  destruct (missing_false e Hm) as (id' & t' & Hid' & Ht' & Hne & Hnt).
  rewrite Hid in Hid'. injection Hid' as <-.
  rewrite Ht in Ht'. injection Ht' as <-.
  destruct (standardize_entry_some id t e) as [d Hd].
  exists (final_entry id t d). split; [exact Hd|].
  rewrite standardize_step_shape, Hid, Ht.
  destruct id; [congruence|]. destruct t; [congruence|].
  rewrite bool_decide_eq_false_2 by exact Hin.
  rewrite fst_bind, Hd. reflexivity.
Qed.

(** What the loop adds to its state. *)
Lemma std_run_spec l st :
  exists new,
    standardized_entries (run l st) = standardized_entries st ++ new /\
    processed_ids st ⊆ processed_ids (run l st) /\
    Forall (fun fe => exists e id t,
              In e l /\ missing_id_or_type e = false /\
              dict_get e ID = Some id /\ dict_get e ENTRYTYPE = Some t /\
              (id ∉ processed_ids st) /\
              fst (standardize_entry id t e) = Some fe) new /\
    (forall id, id ∈ processed_ids (run l st) ->
       id ∈ processed_ids st \/
       exists e, In e l /\ missing_id_or_type e = false /\ dict_get e ID = Some id).
Proof.
  revert st. induction l as [|e l IH]; intros st.
  - exists []. cbn [for_each ret fst]. rewrite app_nil_r.
    repeat split; auto.
  - rewrite for_each_cons. cbn [fst].
    destruct (missing_id_or_type e) eqn:Hm.
    + rewrite standardize_step_rejected by exact Hm. cbn [fst].
      destruct (IH st) as (new & He & Hp & Hn & Hi).
      exists new. repeat split; auto.
      * eapply Forall_impl; [exact Hn|]. cbn beta.
        intros fe (e' & id & t & Hin' & H). exists e', id, t.
        split; [now right | exact H].
      * intros id Hid. destruct (Hi id Hid) as [|(e' & Hin' & H)]; [now left|].
        right. exists e'. split; [now right | exact H].
    + destruct (missing_false e Hm) as (id & t & Hid & Ht & _ & _).
      destruct (decide (id ∈ processed_ids st)) as [Hin|Hin].
      * rewrite (standardize_step_duplicate st e id) by assumption. cbn [fst].
        destruct (IH st) as (new & He & Hp & Hn & Hi).
        exists new. repeat split; auto.
        -- eapply Forall_impl; [exact Hn|]. cbn beta.
           intros fe (e' & id' & t' & Hin' & H). exists e', id', t'.
           split; [now right | exact H].
        -- intros id' Hid'.
           destruct (Hi id' Hid') as [|(e' & Hin' & H)]; [now left|].
           right. exists e'. split; [now right | exact H].
      * destruct (standardize_step_accepted st e id t Hm Hid Ht Hin)
          as (fe & Hfe & ->).
        destruct (IH (StdState (standardized_entries st ++ [fe])
                               (processed_ids st ∪ {[ id ]})))
          as (new & He & Hp & Hn & Hi).
        cbn [standardized_entries processed_ids] in *.
        exists (fe :: new). repeat split.
        -- rewrite He. now rewrite <- app_assoc.
        -- intros x Hx. apply Hp, elem_of_union. now left.
        -- constructor.
           ++ exists e, id, t. repeat split; auto. now left.
           ++ eapply Forall_impl; [exact Hn|]. cbn beta.
              intros fe' (e' & id' & t' & Hin' & Hm' & Hid' & Ht' & Hnp & Hfe').
              exists e', id', t'. repeat split; auto; [now right|].
              intros Hx. apply Hnp, elem_of_union. now left.
        -- intros id' Hid'. destruct (Hi id' Hid') as [H|(e' & Hin' & H)].
           ++ apply elem_of_union in H as [H|H]; [now left|].
              apply elem_of_singleton in H as ->.
              right. exists e. repeat split; auto. now left.
           ++ right. exists e'. split; [now right | exact H].
Qed.

(** Every entry written comes from a complete entry read. *)
Lemma standardize_origin l fe :
  In fe (fst (standardize_bibtex_file l)) ->
  exists e id t,
    In e l /\ dict_get e ID = Some id /\ dict_get e ENTRYTYPE = Some t /\
    fst (standardize_entry id t e) = Some fe.
Proof.
  unfold standardize_bibtex_file, bind, ret. cbn [fst].
  destruct (std_run_spec l (StdState [] ∅)) as (new & He & _ & Hn & _).
  rewrite He. cbn [standardized_entries app]. intros Hin.
  rewrite List.Forall_forall in Hn.
  destruct (Hn fe Hin) as (e & id & t & He' & _ & Hid & Ht & _ & Hfe).
  exists e, id, t. repeat split; assumption.
Qed.

(** Entries with identifier [d] are not added once [d] is processed. *)
Lemma std_run_processed l st d :
  d ∈ processed_ids st ->
  List.filter (has_id d) (standardized_entries (run l st)) =
  List.filter (has_id d) (standardized_entries st).
Proof.
  intros Hd. destruct (std_run_spec l st) as (new & -> & _ & Hn & _).
  rewrite List.filter_app.
  replace (List.filter (has_id d) new) with (@nil entry);
    [now rewrite app_nil_r|].
  symmetry. induction Hn as [|fe new (e & id & t & H) _ IH]; [reflexivity|].
  cbn [List.filter]. destruct H as (_ & _ & _ & _ & Hid & Hfe).
  apply standardize_entry_id in Hfe. rewrite Hfe.
  rewrite bool_decide_eq_false_2; [exact IH|].
  intros [= ->]. contradiction.
Qed.

(** Entries of [l] with identifier [d] that lack a type tag leave no
    trace of [d]. *)
Lemma std_run_untyped l st d :
  (forall e, In e l -> dict_get e ID = Some d -> missing_id_or_type e = true) ->
  d ∉ processed_ids st ->
  (d ∉ processed_ids (run l st)) /\
  List.filter (has_id d) (standardized_entries (run l st)) =
  List.filter (has_id d) (standardized_entries st).
Proof.
  intros Hl Hd. destruct (std_run_spec l st) as (new & He & _ & Hn & Hi).
  split.
  - intros Hin. destruct (Hi d Hin) as [|(e & He' & Hm & Hid)]; [contradiction|].
    rewrite (Hl e He' Hid) in Hm. discriminate.
  - rewrite He, List.filter_app.
    replace (List.filter (has_id d) new) with (@nil entry);
      [now rewrite app_nil_r|].
    symmetry. clear He. induction Hn as [|fe new (e & id & t & H) _ IH]; [reflexivity|].
    cbn [List.filter]. destruct H as (He' & Hm & Hid & _ & _ & Hfe).
    apply standardize_entry_id in Hfe. rewrite Hfe.
    rewrite bool_decide_eq_false_2; [exact IH|].
    intros [= ->]. rewrite (Hl e He' Hid) in Hm. discriminate.
Qed.

(** Complete entries with fresh, pairwise distinct identifiers are all
    written. *)
Lemma std_run_length l st :
  Forall (fun e => missing_id_or_type e = false) l ->
  NoDup (map (fun e => dict_get e ID) l) ->
  (forall e id, In e l -> dict_get e ID = Some id -> id ∉ processed_ids st) ->
  length (standardized_entries (run l st)) =
  length (standardized_entries st) + length l.
Proof.
  revert st. induction l as [|e l IH]; intros st Hv Hnd Hfresh.
  - cbn. lia.
  - rewrite for_each_cons. cbn [fst].
    apply Forall_cons_iff in Hv as [Hm Hv].
    cbn [map] in Hnd. apply NoDup_cons in Hnd as [Hne Hnd].
    destruct (missing_false e Hm) as (id & t & Hid & Ht & _ & _).
    destruct (standardize_step_accepted st e id t Hm Hid Ht) as (fe & _ & ->).
    { apply (Hfresh e); [now left | exact Hid]. }
    rewrite IH; auto.
    + cbn [standardized_entries length]. rewrite length_app. cbn. lia.
    + cbn [processed_ids]. intros e' id' He' Hid'.
      apply not_elem_of_union. split.
      * apply (Hfresh e'); [now right | exact Hid'].
      * rewrite elem_of_singleton. intros ->.
        apply Hne, list_elem_of_In. rewrite Hid, <- Hid'.
        apply (in_map (fun e => dict_get e ID)), He'.
Qed.

End Standardize.

(* ================================================================== *)
(** * The fields of a standardized entry *)
(* ================================================================== *)

Section Fields.

Lemma lowercase_fields_absent e f :
  field_absent e f -> dict_get (lowercase_fields e) f = None.
Proof.
  unfold lowercase_fields. change None with (dict_get [] f).
  generalize (@nil (str * str)) as acc.
  induction e as [|[k v] e IH]; intros acc Habs; [reflexivity|].
  cbn [fold_left fst snd]. rewrite IH.
  - destruct (bool_decide (k = ID)) eqn:E1; [reflexivity|].
    destruct (bool_decide (k = ENTRYTYPE)) eqn:E2; [reflexivity|].
    cbn [orb]. apply dict_get_set_ne.
    apply bool_decide_eq_false_1 in E1. apply bool_decide_eq_false_1 in E2.
    apply (Habs k v); auto. now left.
  - intros k' v' Hin. apply (Habs k' v'). now right.
Qed.

Lemma fill_fold_get fields d f :
  dict_get
    (fold_left (fun d field => if dict_has d field then d else dict_set d field [])
               fields d) f =
  match dict_get d f with
  | Some v => Some v
  | None => if existsb (fun x => bool_decide (x = f)) fields then Some [] else None
  end.
Proof.
  revert d. induction fields as [|x fields IH]; intros d.
  - cbn. now destruct (dict_get d f).
  - cbn [fold_left existsb]. rewrite IH. unfold dict_has.
    destruct (dict_get d x) as [vx|] eqn:Ex.
    + destruct (dict_get d f) eqn:Ef; [reflexivity|].
      rewrite bool_decide_eq_false_2; [reflexivity|]. congruence.
    + rewrite dict_get_set. case_bool_decide as E.
      * subst. now rewrite Ex.
      * now destruct (dict_get d f).
Qed.

Lemma fill_missing_get d f :
  In f essential_fields ->
  dict_get (fill_missing d) f = Some (dict_get_or d f []).
Proof.
  intros Hf. unfold fill_missing. rewrite fill_fold_get.
  unfold dict_get_or. destruct (dict_get d f); [reflexivity|].
  cbn in Hf.
  repeat (destruct Hf as [<- | Hf]; [reflexivity|]). destruct Hf.
Qed.

Lemma consolidate_journal_other d d' f :
  consolidate_journal d = Some d' -> f <> lit "journal" ->
  dict_get d' f = dict_get d f.
Proof.
  unfold consolidate_journal. intros H Hf.
  destruct (negb (truthy (dict_get d (lit "journal"))) &&
            truthy (dict_get d (lit "booktitle"))).
  - destruct (dict_get d (lit "booktitle")); [|discriminate].
    injection H as <-. apply dict_get_set_ne.
    intros E. apply Hf. symmetry. exact E.
  - now injection H as <-.
Qed.

(** An entry without a journal gets the book title as its journal. *)
Lemma consolidate_journal_blank d d' b :
  consolidate_journal d = Some d' ->
  dict_get d (lit "journal") = Some [] ->
  dict_get d (lit "booktitle") = Some b ->
  dict_get d' (lit "journal") = Some b.
Proof.
  unfold consolidate_journal. intros H Hj Hb. rewrite Hj, Hb in H.
  destruct b as [|c b]; cbn in H; injection H as <-.
  - exact Hj.
  - apply dict_get_set_eq.
Qed.

Lemma standardize_entry_value id t e :
  fst (standardize_entry id t e) =
  option_map (final_entry id t)
    (consolidate_journal
       (fill_missing
          (dict_set (lowercase_fields e) (lit "doi")
             (fst (normalize_doi
                     (Some (dict_get_or (lowercase_fields e) (lit "doi") []))))))).
Proof. unfold standardize_entry. now rewrite fst_bind. Qed.

Lemma essential_has s :
  existsb (fun x => bool_decide (x = lit s)) essential_fields = true ->
  In (lit s) essential_fields.
Proof.
  intros H. apply existsb_exists in H as (x & Hx & E).
  apply bool_decide_eq_true in E. now subst.
Qed.

(** The fields of a written entry that the entry read does not have. *)
Lemma standardize_entry_absent id t e fe f :
  fst (standardize_entry id t e) = Some fe ->
  In f essential_fields -> field_absent e f ->
  dict_get fe f =
  if bool_decide (f = lit "journal") then dict_get fe (lit "booktitle") else Some [].
Proof.
  rewrite standardize_entry_value. intros Hfe Hf Habs.
  pose proof (lowercase_fields_absent e f Habs) as Hnone.
  set (d0 := lowercase_fields e) in *.
  set (doi := fst (normalize_doi (Some (dict_get_or d0 (lit "doi") [])))) in *.
  destruct (consolidate_journal (fill_missing (dict_set d0 (lit "doi") doi)))
    as [d3|] eqn:Hc; [|discriminate].
  cbn [option_map] in Hfe. injection Hfe as <-.
  assert (Hj : In (lit "journal") essential_fields) by (apply essential_has; reflexivity).
  assert (Hb : In (lit "booktitle") essential_fields) by (apply essential_has; reflexivity).
  assert (Hfill : dict_get (fill_missing (dict_set d0 (lit "doi") doi)) f = Some []).
  { rewrite fill_missing_get by exact Hf. unfold dict_get_or.
    rewrite dict_get_set. case_bool_decide as Ed.
    - subst f. subst doi. unfold dict_get_or. now rewrite Hnone.
    - now rewrite Hnone. }
  rewrite !final_entry_get by assumption. unfold dict_get_or.
  case_bool_decide as Ej.
  - subst f.
    rewrite (consolidate_journal_other _ _ (lit "booktitle") Hc) by discriminate.
    rewrite (fill_missing_get _ (lit "booktitle")) by exact Hb.
    erewrite consolidate_journal_blank; [reflexivity | exact Hc | exact Hfill |].
    now apply fill_missing_get.
  - rewrite (consolidate_journal_other _ _ f Hc) by exact Ej.
    now rewrite Hfill.
Qed.

End Fields.

(** ** Claims about [standardize_bibtex_file] *)

(** C2, as the code has it.  Every entry written by the standardizer
    has, after [ID] and [ENTRYTYPE], exactly the twelve fields doi, title,
    abstract, keywords, author, year, publisher, journal, booktitle,
    pages, volume, number, in this order, whatever fields the entry read
    had; [ID] and [ENTRYTYPE] are those of an entry read, and a field
    absent from that entry is the empty string, except that an absent
    journal takes the value of booktitle. *)
Theorem standardized_entry_fields (entries : list entry) (fe : entry) :
  In fe (fst (standardize_bibtex_file entries)) ->
  keys fe = ID :: ENTRYTYPE :: essential_fields /\
  exists e,
    In e entries /\
    dict_get fe ID = dict_get e ID /\
    dict_get fe ENTRYTYPE = dict_get e ENTRYTYPE /\
    forall f, In f essential_fields -> field_absent e f ->
      dict_get fe f =
      if bool_decide (f = lit "journal") then dict_get fe (lit "booktitle")
      else Some [].
Proof.
  intros Hin.
  destruct (standardize_origin _ _ Hin) as (e & id & t & He & Hid & Ht & Hfe).
  destruct (standardize_entry_some id t e) as [d Hd].
  assert (fe = final_entry id t d) as Hfd by congruence.
  split.
  - rewrite Hfd. apply final_entry_keys.
  - exists e. repeat split.
    + exact He.
    + rewrite Hid, Hfd. apply final_entry_id.
    + rewrite Ht, Hfd. apply final_entry_type.
    + intros f Hf Habs. eapply standardize_entry_absent; eassumption.
Qed.

Lemma standardized_entry_fields_witness :
  keys (hd [] (fst (standardize_bibtex_file [sample_inproceedings])))
    = ID :: ENTRYTYPE :: essential_fields /\
  exists e,
    In e [sample_inproceedings] /\
    dict_get (hd [] (fst (standardize_bibtex_file [sample_inproceedings]))) ID
      = dict_get e ID /\
    dict_get (hd [] (fst (standardize_bibtex_file [sample_inproceedings]))) ENTRYTYPE
      = dict_get e ENTRYTYPE /\
    forall f, In f essential_fields -> field_absent e f ->
      dict_get (hd [] (fst (standardize_bibtex_file [sample_inproceedings]))) f =
      if bool_decide (f = lit "journal")
      then dict_get (hd [] (fst (standardize_bibtex_file [sample_inproceedings])))
                    (lit "booktitle")
      else Some [].
Proof.
  apply (standardized_entry_fields [sample_inproceedings]).
  vm_compute. left. reflexivity.
Defined.

(** C2, as stated, fails: the entry written for an article with only a
    title has the twelve fields above, so its fields are not the eleven
    fields of the specification. *)
Lemma standardized_entry_has_booktitle :
  map keys (fst (standardize_bibtex_file [sample_article]))
    = [ID :: ENTRYTYPE :: essential_fields] /\
  ~ Forall (fun fe => keys fe = ID :: ENTRYTYPE :: spec_fields)
           (fst (standardize_bibtex_file [sample_article])).
Proof.
  split.
  - vm_compute. reflexivity.
  - intros H. apply Forall_cons_1 in H as [H _]. vm_compute in H. discriminate.
Qed.

Section StandardizeClaims.

Local Abbreviation has_id d := (fun fe : entry => bool_decide (dict_get fe ID = Some d)).

Lemma standardize_fst l :
  fst (standardize_bibtex_file l) =
  standardized_entries (fst (for_each standardize_step l (StdState [] ∅))).
Proof. unfold standardize_bibtex_file. now rewrite fst_bind. Qed.

Lemma standardize_snd l :
  snd (standardize_bibtex_file l) =
  snd (for_each standardize_step l (StdState [] ∅)).
Proof.
  unfold standardize_bibtex_file. rewrite snd_bind. cbn [ret snd].
  apply app_nil_r.
Qed.

Lemma untyped_missing e : truthy (dict_get e ENTRYTYPE) = false -> missing_id_or_type e = true.
Proof. unfold missing_id_or_type. intros ->. apply orb_true_r. Qed.

Lemma standardize_first_typed pre r1 d t :
  d <> [] -> t <> [] ->
  dict_get r1 ID = Some d -> dict_get r1 ENTRYTYPE = Some t ->
  (forall e, In e pre -> dict_get e ID = Some d ->
             truthy (dict_get e ENTRYTYPE) = false) ->
  exists fe st1,
    fst (standardize_entry d t r1) = Some fe /\
    fst (for_each standardize_step (pre ++ [r1]) (StdState [] ∅)) = st1 /\
    d ∈ processed_ids st1 /\
    List.filter (has_id d) (standardized_entries st1) = [fe].
Proof.
  intros Hd Ht Hid Hty Hpre.
  destruct (std_run_untyped pre (StdState [] ∅) d) as [Hnp Hf].
  { intros e He Hde. apply untyped_missing. now apply Hpre. }
  { cbn [processed_ids]. apply not_elem_of_empty. }
  pose proof (missing_false_intro r1 d t Hid Hty Hd Ht) as Hm.
  destruct (standardize_step_accepted _ r1 d t Hm Hid Hty Hnp) as (fe & Hfe & Hst).
  exists fe. eexists. split; [exact Hfe|]. split; [reflexivity|].
  rewrite for_each_app_fst, for_each_cons. cbn [for_each ret fst].
  rewrite Hst. cbn [processed_ids standardized_entries]. split.
  - apply elem_of_union. right. now apply elem_of_singleton.
  - rewrite List.filter_app, Hf. cbn [standardized_entries List.filter app].
    rewrite (standardize_entry_id _ _ _ _ Hfe).
    now rewrite bool_decide_eq_true_2.
Qed.

End StandardizeClaims.

(** C6, as the code has it.  When a batch contains two entries with the
    same non-empty identifier [d], of which the earlier one [r1] is the
    first entry with that identifier to carry a type, exactly one entry
    with identifier [d] is written: the one built from [r1].  The later
    one [r2] is skipped with a warning: about the duplicate identifier,
    or about the missing type if it has none. *)
Theorem standardize_first_typed_wins (pre mid post : list entry) (r1 r2 : entry) (d t : str) :
  d <> [] -> t <> [] ->
  dict_get r1 ID = Some d -> dict_get r1 ENTRYTYPE = Some t ->
  (forall e, In e pre -> dict_get e ID = Some d ->
             truthy (dict_get e ENTRYTYPE) = false) ->
  dict_get r2 ID = Some d ->
  exists fe,
    fst (standardize_entry d t r1) = Some fe /\
    List.filter (fun fe' => bool_decide (dict_get fe' ID = Some d))
      (fst (standardize_bibtex_file (pre ++ r1 :: mid ++ r2 :: post))) = [fe] /\
    In (if truthy (dict_get r2 ENTRYTYPE) then DuplicateEntryId d
        else EntryWithoutIdOrType r2)
       (snd (standardize_bibtex_file (pre ++ r1 :: mid ++ r2 :: post))).
Proof.
  intros Hd Ht Hid Hty Hpre Hid2.
  destruct (standardize_first_typed pre r1 d t Hd Ht Hid Hty Hpre)
    as (fe & st1 & Hfe & Hst1 & Hin1 & Hf1).
  exists fe. split; [exact Hfe|]. split.
  - rewrite standardize_fst.
    replace (pre ++ r1 :: mid ++ r2 :: post) with ((pre ++ [r1]) ++ mid ++ r2 :: post)
      by (now rewrite <- app_assoc).
    rewrite for_each_app_fst, Hst1.
    rewrite std_run_processed by exact Hin1. exact Hf1.
  - rewrite standardize_snd.
    replace (pre ++ r1 :: mid ++ r2 :: post) with (((pre ++ [r1]) ++ mid) ++ r2 :: post)
      by (now rewrite <- !app_assoc).
    apply for_each_logs.
    rewrite for_each_app_fst, Hst1.
    destruct (std_run_spec mid st1) as (_ & _ & Hp & _).
    assert (Hin2 : d ∈ processed_ids (fst (for_each standardize_step mid st1)))
      by now apply Hp.
    destruct (truthy (dict_get r2 ENTRYTYPE)) eqn:Hty2.
    + rewrite (standardize_step_duplicate _ r2 d); [now left | | exact Hid2 | exact Hin2].
      apply truthy_some in Hty2 as (c & s & Hty2).
      apply (missing_false_intro r2 d (c :: s)); auto.
    + rewrite standardize_step_rejected by now apply untyped_missing.
      now left.
Qed.

Lemma standardize_first_typed_wins_witness :
  exists fe,
    fst (standardize_entry (lit "a") (lit "article") sample_typed_second) = Some fe /\
    List.filter (fun fe' => bool_decide (dict_get fe' ID = Some (lit "a")))
      (fst (standardize_bibtex_file
              ([sample_no_type; sample_untyped_first] ++
               sample_typed_second :: [sample_no_id] ++ sample_typed_third :: [])))
      = [fe] /\
    In (if truthy (dict_get sample_typed_third ENTRYTYPE)
        then DuplicateEntryId (lit "a")
        else EntryWithoutIdOrType sample_typed_third)
       (snd (standardize_bibtex_file
               ([sample_no_type; sample_untyped_first] ++
                sample_typed_second :: [sample_no_id] ++ sample_typed_third :: []))).
Proof.
  apply (standardize_first_typed_wins
           [sample_no_type; sample_untyped_first] [sample_no_id] []
           sample_typed_second sample_typed_third (lit "a") (lit "article")).
  - discriminate.
  - discriminate.
  - reflexivity.
  - reflexivity.
  - intros e [<- | [<- | []]]; [discriminate | reflexivity].
  - reflexivity.
Defined.

(** C6, as stated, fails: when the first of two entries with one
    identifier has no type, the entry written is built from the second,
    and the one skipped with a warning is the first. *)
Lemma standardize_second_occurrence_written :
  map (fun fe => dict_get fe (lit "title"))
      (fst (standardize_bibtex_file [sample_untyped_first; sample_typed_second]))
    = [Some (lit "second")] /\
  snd (standardize_bibtex_file [sample_untyped_first; sample_typed_second])
    = [EntryWithoutIdOrType sample_untyped_first].
Proof. split; vm_compute; reflexivity. Qed.

(** C8, as the code has it.  An entry whose identifier or type is
    missing is skipped with a warning, and the rest of the batch is
    processed as if the entry were not there.  When all the other entries
    have identifier and type, with pairwise distinct identifiers, the
    number of entries written is one less than the number read. *)
Theorem standardize_skips_incomplete (pre post : list entry) (r : entry) :
  missing_id_or_type r = true ->
  fst (standardize_bibtex_file (pre ++ r :: post))
    = fst (standardize_bibtex_file (pre ++ post)) /\
  In (EntryWithoutIdOrType r) (snd (standardize_bibtex_file (pre ++ r :: post))) /\
  (Forall (fun e => missing_id_or_type e = false) (pre ++ post) ->
   NoDup (map (fun e => dict_get e ID) (pre ++ post)) ->
   length (fst (standardize_bibtex_file (pre ++ r :: post)))
     = length (pre ++ r :: post) - 1).
Proof.
  intros Hr.
  assert (Hskip : fst (standardize_bibtex_file (pre ++ r :: post))
                  = fst (standardize_bibtex_file (pre ++ post))).
  { rewrite !standardize_fst. f_equal. apply for_each_skip.
    now rewrite standardize_step_rejected. }
  split; [exact Hskip|]. split.
  - rewrite standardize_snd. apply for_each_logs.
    rewrite standardize_step_rejected by exact Hr. now left.
  - intros Hv Hnd. rewrite Hskip, standardize_fst.
    rewrite std_run_length; try assumption.
    + cbn [standardized_entries length]. rewrite !length_app. cbn [length]. lia.
    + intros e id _ _. cbn [processed_ids]. apply not_elem_of_empty.
Qed.

Lemma standardize_skips_incomplete_witness :
  fst (standardize_bibtex_file
         ([sample_article] ++ sample_no_type :: [sample_inproceedings]))
    = fst (standardize_bibtex_file ([sample_article] ++ [sample_inproceedings])) /\
  In (EntryWithoutIdOrType sample_no_type)
     (snd (standardize_bibtex_file
             ([sample_article] ++ sample_no_type :: [sample_inproceedings]))) /\
  length (fst (standardize_bibtex_file
                 ([sample_article] ++ sample_no_type :: [sample_inproceedings])))
    = 2.
Proof.
  destruct (standardize_skips_incomplete [sample_article] [sample_inproceedings]
              sample_no_type eq_refl) as (H1 & H2 & H3).
  split; [exact H1|]. split; [exact H2|].
  apply H3.
  - repeat constructor.
  - apply NoDup_ListNoDup. repeat constructor; cbn; intuition discriminate.
Defined.

(** C8, as stated, fails: in a batch of two entries of which exactly one
    lacks its type tag, the other lacking its identifier, nothing is
    written, which is two less than what was read. *)
Lemma standardize_count_two_less :
  List.filter (fun e => negb (truthy (dict_get e ENTRYTYPE)))
              [sample_no_id; sample_no_type] = [sample_no_type] /\
  length (fst (standardize_bibtex_file [sample_no_id; sample_no_type]))
    <> length [sample_no_id; sample_no_type] - 1.
Proof. split; vm_compute; [reflexivity | discriminate]. Qed.

(* ================================================================== *)
(** * [remove_duplicates_by_doi] *)
(* ================================================================== *)

Section RemoveDuplicates.

Variable entries_y : list entry.

Local Abbreviation dois_y := (collect_dois entries_y).
Local Abbreviation run l st := (fst (for_each (filter_step dois_y) l st)).

Lemma collect_fold_spec (l : list entry) (acc : gset str) (d : str) :
  d ∈ fold_left
        (fun dois e =>
           let doi := entry_doi e in
           if truthy (Some doi) then dois ∪ {[ doi ]} else dois) l acc
  <-> d ∈ acc \/ (d <> [] /\ exists e, In e l /\ entry_doi e = d).
Proof.
  revert acc. induction l as [|e l IH]; intros acc; cbn [fold_left].
  - split; [now left|]. intros [H|(_ & e & [] & _)]. exact H.
  - rewrite IH. cbn zeta. destruct (entry_doi e) as [|c s] eqn:E; cbn [truthy].
    + split.
      * intros [H|(Hd & e' & He' & Hde)]; [now left|].
        right. split; [exact Hd|]. exists e'. split; [now right | exact Hde].
      * intros [H|(Hd & e' & [<-|He'] & Hde)]; [now left | congruence |].
        right. split; [exact Hd|]. now exists e'.
    + split.
      * intros [H|(Hd & e' & He' & Hde)].
        -- apply elem_of_union in H as [H|H]; [now left|].
           apply elem_of_singleton in H as ->.
           right. split; [discriminate|]. exists e. split; [now left | exact E].
        -- right. split; [exact Hd|]. exists e'. split; [now right | exact Hde].
      * intros [H|(Hd & e' & [<-|He'] & Hde)].
        -- left. apply elem_of_union. now left.
        -- left. apply elem_of_union. right. apply elem_of_singleton. congruence.
        -- right. split; [exact Hd|]. now exists e'.
Qed.

(** The set built from file Y holds the non-empty trimmed DOIs of its
    entries. *)
Lemma collect_dois_spec d :
  d ∈ dois_y <-> d <> [] /\ exists e, In e entries_y /\ entry_doi e = d.
Proof.
  unfold collect_dois. rewrite collect_fold_spec. split.
  - intros [H|H]; [|exact H]. now apply not_elem_of_empty in H.
  - now right.
Qed.

Lemma doi_among_spec d :
  doi_among entries_y d = true <-> exists e, In e entries_y /\ entry_doi e = d.
Proof.
  unfold doi_among. rewrite existsb_exists. split.
  - intros (e & He & Hd). apply bool_decide_eq_true in Hd. eauto.
  - intros (e & He & Hd). exists e. split; [exact He|].
    now apply bool_decide_eq_true.
Qed.

(** The test of line 184 on the set is the test on the entries. *)
Lemma keep_test e :
  negb (truthy (Some (entry_doi e))) || negb (bool_decide (entry_doi e ∈ dois_y))
  = kept entries_y e.
Proof.
  unfold kept. destruct (entry_doi e) as [|c s] eqn:E; [reflexivity|].
  cbn [truthy negb orb]. f_equal.
  destruct (doi_among entries_y (c :: s)) eqn:Ha.
  - apply bool_decide_eq_true. apply collect_dois_spec.
    split; [discriminate|]. now apply doi_among_spec.
  - apply bool_decide_eq_false. intros H. apply collect_dois_spec in H as [_ H].
    apply doi_among_spec in H. congruence.
Qed.

(** The three ways through one iteration. *)
Lemma filter_step_seen st e :
  dict_get e ID ∈ processed_ids_x st ->
  filter_step dois_y st e = (st, [DuplicateEntryIdX (dict_get e ID)]).
Proof.
  intros H. unfold filter_step. now rewrite bool_decide_eq_true_2.
Qed.

Lemma filter_step_kept st e :
  dict_get e ID ∉ processed_ids_x st -> kept entries_y e = true ->
  filter_step dois_y st e =
  (FilterState (unique_entries_x st ++ [e]) (removed_count st)
               (processed_ids_x st ∪ {[ dict_get e ID ]}), []).
Proof.
  intros H Hk. unfold filter_step. rewrite bool_decide_eq_false_2 by exact H.
  cbn zeta. now rewrite keep_test, Hk.
Qed.

Lemma filter_step_removed st e :
  dict_get e ID ∉ processed_ids_x st -> kept entries_y e = false ->
  filter_step dois_y st e =
  (FilterState (unique_entries_x st) (removed_count st + 1)
               (processed_ids_x st ∪ {[ dict_get e ID ]}),
   [RemovingEntry (dict_get e ID) (entry_doi e)]).
Proof.
  intros H Hk. unfold filter_step. rewrite bool_decide_eq_false_2 by exact H.
  cbn zeta. now rewrite keep_test, Hk.
Qed.

(** After an iteration the identifier of its entry is recorded, and
    nothing recorded or kept before is lost. *)
Lemma filter_step_grows st e :
  dict_get e ID ∈ processed_ids_x (fst (filter_step dois_y st e)) /\
  processed_ids_x st ⊆ processed_ids_x (fst (filter_step dois_y st e)) /\
  (forall i, i ∈ processed_ids_x (fst (filter_step dois_y st e)) ->
             i ∈ processed_ids_x st \/ i = dict_get e ID) /\
  exists new, unique_entries_x (fst (filter_step dois_y st e))
              = unique_entries_x st ++ new.
Proof.
  destruct (decide (dict_get e ID ∈ processed_ids_x st)) as [Hin|Hin].
  - rewrite filter_step_seen by exact Hin. cbn [fst].
    repeat split; auto. exists []. now rewrite app_nil_r.
  - destruct (kept entries_y e) eqn:Hk.
    + rewrite filter_step_kept by assumption.
      cbn [fst processed_ids_x unique_entries_x]. repeat split.
      * apply elem_of_union. right. now apply elem_of_singleton.
      * intros x Hx. apply elem_of_union. now left.
      * intros i Hi. apply elem_of_union in Hi as [Hi|Hi]; [now left|].
        right. now apply elem_of_singleton in Hi.
      * now exists [e].
    + rewrite filter_step_removed by assumption.
      cbn [fst processed_ids_x unique_entries_x]. repeat split.
      * apply elem_of_union. right. now apply elem_of_singleton.
      * intros x Hx. apply elem_of_union. now left.
      * intros i Hi. apply elem_of_union in Hi as [Hi|Hi]; [now left|].
        right. now apply elem_of_singleton in Hi.
      * exists []. now rewrite app_nil_r.
Qed.

Lemma filter_run_grows l st :
  processed_ids_x st ⊆ processed_ids_x (run l st) /\
  (forall i, i ∈ processed_ids_x (run l st) ->
             i ∈ processed_ids_x st \/ exists e, In e l /\ dict_get e ID = i) /\
  exists new, unique_entries_x (run l st) = unique_entries_x st ++ new.
Proof.
  revert st. induction l as [|e l IH]; intros st.
  - cbn [for_each ret fst]. repeat split; auto.
    exists []. now rewrite app_nil_r.
  - rewrite for_each_cons. cbn [fst].
    destruct (filter_step_grows st e) as (_ & Hs & Hi & new1 & Hn1).
    destruct (IH (fst (filter_step dois_y st e))) as (Hs' & Hi' & new2 & Hn2).
    repeat split.
    + intros x Hx. now apply Hs', Hs.
    + intros i Hin. destruct (Hi' i Hin) as [H|(e' & He' & H)].
      * destruct (Hi i H) as [H'|H']; [now left|].
        right. exists e. split; [now left | now symmetry].
      * right. exists e'. split; [now right | exact H].
    + exists (new1 ++ new2). rewrite Hn2, Hn1. now rewrite app_assoc.
Qed.

(** With pairwise distinct, fresh identifiers the loop is a filter. *)
Lemma filter_run_nodup l st :
  NoDup (map (fun e => dict_get e ID) l) ->
  (forall e, In e l -> dict_get e ID ∉ processed_ids_x st) ->
  unique_entries_x (run l st) = unique_entries_x st ++ List.filter (kept entries_y) l.
Proof.
  revert st. induction l as [|e l IH]; intros st Hnd Hfresh.
  - cbn [for_each ret fst List.filter]. now rewrite app_nil_r.
  - rewrite for_each_cons. cbn [fst List.filter].
    cbn [map] in Hnd. apply NoDup_cons in Hnd as [Hne Hnd].
    assert (He : dict_get e ID ∉ processed_ids_x st) by (apply Hfresh; now left).
    assert (Hfresh' : forall st',
               processed_ids_x st' = processed_ids_x st ∪ {[ dict_get e ID ]} ->
               forall e', In e' l -> dict_get e' ID ∉ processed_ids_x st').
    { intros st' Hst' e' He'. rewrite Hst'. apply not_elem_of_union. split.
      - apply Hfresh. now right.
      - rewrite elem_of_singleton. intros Heq. apply Hne.
        rewrite <- Heq. apply list_elem_of_In.
        apply (in_map (fun e => dict_get e ID)), He'. }
    destruct (kept entries_y e) eqn:Hk.
    + rewrite filter_step_kept by assumption. cbn [fst].
      rewrite IH; [| exact Hnd | now apply Hfresh'].
      cbn [unique_entries_x]. now rewrite <- app_assoc.
    + rewrite filter_step_removed by assumption. cbn [fst].
      rewrite IH; [| exact Hnd | now apply Hfresh'].
      reflexivity.
Qed.

(** Whatever is written passed the test of line 184. *)
Lemma filter_run_kept_only l st e :
  In e (unique_entries_x (run l st)) ->
  In e (unique_entries_x st) \/ (In e l /\ kept entries_y e = true).
Proof.
  revert st. induction l as [|x l IH]; intros st; [now left|].
  rewrite for_each_cons. cbn [fst]. intros Hin.
  destruct (IH _ Hin) as [H|[H Hk]]; [|right; split; [now right | exact Hk]].
  destruct (decide (dict_get x ID ∈ processed_ids_x st)) as [Hs|Hs].
  - rewrite filter_step_seen in H by exact Hs. now left.
  - destruct (kept entries_y x) eqn:Hk.
    + rewrite filter_step_kept in H by assumption.
      cbn [fst unique_entries_x] in H. apply in_app_or in H as [H|[<-|[]]].
      * now left.
      * right. split; [now left | exact Hk].
    + rewrite filter_step_removed in H by assumption. now left.
Qed.

(** An entry that passes the test is written when its identifier has not
    occurred before it. *)
Lemma filter_run_first_seen pre r post :
  (forall e, In e pre -> dict_get e ID <> dict_get r ID) ->
  kept entries_y r = true ->
  In r (unique_entries_x (run (pre ++ r :: post) (FilterState [] 0 ∅))).
Proof.
  intros Hpre Hk. rewrite for_each_app_fst, for_each_cons. cbn [fst].
  set (st := run pre (FilterState [] 0 ∅)).
  assert (Hnew : dict_get r ID ∉ processed_ids_x st).
  { intros Hin.
    destruct (proj1 (proj2 (filter_run_grows pre _)) _ Hin) as [H|(e & He & Hid)].
    - now apply not_elem_of_empty in H.
    - now apply (Hpre e He). }
  rewrite filter_step_kept by assumption. cbn [fst].
  destruct (filter_run_grows post
              (FilterState (unique_entries_x st ++ [r]) (removed_count st)
                           (processed_ids_x st ∪ {[ dict_get r ID ]})))
    as (_ & _ & new & ->).
  cbn [unique_entries_x]. apply in_or_app. left.
  apply in_or_app. right. now left.
Qed.

Lemma remove_duplicates_fst l :
  fst (remove_duplicates_by_doi l entries_y) =
  unique_entries_x (run l (FilterState [] 0 ∅)).
Proof. unfold remove_duplicates_by_doi. cbn zeta. now rewrite !fst_bind. Qed.

Lemma remove_duplicates_snd l d :
  In d (snd (for_each (filter_step dois_y) l (FilterState [] 0 ∅))) ->
  In d (snd (remove_duplicates_by_doi l entries_y)).
Proof.
  intros H. unfold remove_duplicates_by_doi. cbn zeta. rewrite !snd_bind.
  apply in_or_app. right. apply in_or_app. now left.
Qed.

End RemoveDuplicates.

(** ** Claims about [remove_duplicates_by_doi] *)

(** C4, as the code has it.  When the identifiers ([ID]) of the entries
    of X are pairwise distinct, the entries written are exactly those
    entries of X, in their order, whose trimmed DOI is empty or is not
    the trimmed DOI of an entry of Y; in particular, when every entry of
    X has an empty trimmed DOI, X is written unchanged. *)
Theorem remove_duplicates_is_filter (entries_x entries_y : list entry) :
  NoDup (map (fun e => dict_get e ID) entries_x) ->
  fst (remove_duplicates_by_doi entries_x entries_y)
    = List.filter (kept entries_y) entries_x /\
  (Forall (fun e => entry_doi e = []) entries_x ->
   fst (remove_duplicates_by_doi entries_x entries_y) = entries_x).
Proof.
  intros Hnd.
  assert (H : fst (remove_duplicates_by_doi entries_x entries_y)
              = List.filter (kept entries_y) entries_x).
  { rewrite remove_duplicates_fst, filter_run_nodup; [reflexivity | exact Hnd |].
    intros e _. cbn [processed_ids_x]. apply not_elem_of_empty. }
  split; [exact H|].
  intros Hall. rewrite H. clear H Hnd.
  induction Hall as [|e l He _ IH]; [reflexivity|].
  cbn [List.filter]. unfold kept at 1. rewrite He. cbn [truthy negb orb].
  now rewrite IH.
Qed.

Lemma remove_duplicates_is_filter_witness :
  fst (remove_duplicates_by_doi
         [sample_article; sample_with_doi; sample_no_id]
         (scenario_y ++ [sample_with_doi]))
    = [sample_article; sample_no_id] /\
  fst (remove_duplicates_by_doi
         [sample_article; sample_no_id] (scenario_y ++ [sample_with_doi]))
    = [sample_article; sample_no_id].
Proof.
  split.
  - apply (remove_duplicates_is_filter
             [sample_article; sample_with_doi; sample_no_id]
             (scenario_y ++ [sample_with_doi])).
    apply NoDup_ListNoDup. repeat constructor; cbn; intuition discriminate.
  - apply (remove_duplicates_is_filter
             [sample_article; sample_no_id] (scenario_y ++ [sample_with_doi])).
    + apply NoDup_ListNoDup. repeat constructor; cbn; intuition discriminate.
    + repeat constructor.
Defined.

(** C4, as stated, fails: two entries of X with the same identifier and
    no DOI are not both written, although every entry of X has an empty
    DOI. *)
Lemma remove_duplicates_drops_repeated_id :
  Forall (fun e => entry_doi e = []) [sample_untyped_first; sample_typed_second] /\
  fst (remove_duplicates_by_doi [sample_untyped_first; sample_typed_second] [])
    <> [sample_untyped_first; sample_typed_second].
Proof.
  split.
  - repeat constructor.
  - vm_compute. discriminate.
Qed.

(** C9.  When an entry of X without an [ID] field comes after another
    entry without one, the guard of line 176 drops it: the warning for
    the repeated identifier [None] is logged, and the entries written are
    those written when the later entry is taken out of X.  The first
    entry without [ID] is the only one that reaches the test of line 184:
    it is written exactly when it passes that test. *)
Theorem later_idless_entry_dropped
    (pre mid post entries_y : list entry) (r1 r2 : entry) :
  dict_get r1 ID = None -> dict_get r2 ID = None ->
  fst (remove_duplicates_by_doi (pre ++ r1 :: mid ++ r2 :: post) entries_y)
    = fst (remove_duplicates_by_doi (pre ++ r1 :: mid ++ post) entries_y) /\
  In (DuplicateEntryIdX None)
     (snd (remove_duplicates_by_doi (pre ++ r1 :: mid ++ r2 :: post) entries_y)) /\
  (Forall (fun e => dict_get e ID <> None) pre ->
   (In r1 (fst (remove_duplicates_by_doi (pre ++ r1 :: mid ++ r2 :: post) entries_y))
    <-> kept entries_y r1 = true)).
Proof.
  intros H1 H2.
  assert (Hl : pre ++ r1 :: mid ++ r2 :: post = ((pre ++ [r1]) ++ mid) ++ r2 :: post)
    by (now rewrite <- !app_assoc).
  assert (Hl' : pre ++ r1 :: mid ++ post = ((pre ++ [r1]) ++ mid) ++ post)
    by (now rewrite <- !app_assoc).
  set (dois := collect_dois entries_y).
  set (st0 := FilterState [] 0 ∅).
  assert (Hseen : dict_get r2 ID ∈
            processed_ids_x
              (fst (for_each (filter_step dois) ((pre ++ [r1]) ++ mid) st0))).
  { rewrite H2, !for_each_app_fst.
    apply (proj1 (filter_run_grows entries_y mid _)).
    cbn [for_each]. rewrite fst_bind. cbn [ret fst].
    rewrite <- H1. exact (proj1 (filter_step_grows entries_y _ r1)). }
  split; [|split].
  - rewrite Hl, Hl', !remove_duplicates_fst. f_equal. apply for_each_skip.
    now rewrite filter_step_seen.
  - rewrite Hl. apply remove_duplicates_snd, for_each_logs.
    rewrite filter_step_seen by exact Hseen. rewrite H2. now left.
  - intros Hpre. rewrite remove_duplicates_fst. split.
    + intros Hin. apply filter_run_kept_only in Hin as [[]|[_ Hk]]. exact Hk.
    + intros Hk. apply filter_run_first_seen; [|exact Hk].
      intros e He. rewrite H1. rewrite List.Forall_forall in Hpre. now apply Hpre.
Qed.

Lemma later_idless_entry_dropped_witness :
  fst (remove_duplicates_by_doi
         ([sample_article] ++ sample_idless_first ::
          [sample_with_doi] ++ sample_idless_second :: [sample_no_type]) [])
    = fst (remove_duplicates_by_doi
             ([sample_article] ++ sample_idless_first ::
              [sample_with_doi] ++ [sample_no_type]) []) /\
  In (DuplicateEntryIdX None)
     (snd (remove_duplicates_by_doi
             ([sample_article] ++ sample_idless_first ::
              [sample_with_doi] ++ sample_idless_second :: [sample_no_type]) [])) /\
  (In sample_idless_first
      (fst (remove_duplicates_by_doi
              ([sample_article] ++ sample_idless_first ::
               [sample_with_doi] ++ sample_idless_second :: [sample_no_type]) []))
   <-> kept [] sample_idless_first = true).
Proof.
  destruct (later_idless_entry_dropped
              [sample_article] [sample_with_doi] [sample_no_type] []
              sample_idless_first sample_idless_second eq_refl eq_refl)
    as (H1 & H2 & H3).
  split; [exact H1|]. split; [exact H2|].
  apply H3. repeat constructor; discriminate.
Defined.

Lemma blank_strip v : blank v = true -> strip v = [].
Proof.
  intros H. unfold strip.
  replace (lstrip v) with (@nil ascii); [reflexivity|].
  induction v as [|c v IH]; [reflexivity|].
  cbn in H. apply andb_prop in H as [Hc Hv]. cbn. rewrite Hc. now apply IH.
Qed.

Lemma blank_entry_doi e :
  blank (dict_get_or e (lit "doi") []) = true -> entry_doi e = [].
Proof. apply blank_strip. Qed.

(** C10, as the code has it.  An entry whose [doi] value is only white
    space counts as an entry without DOI on both sides.  In X it is
    written, whatever Y is, whenever its identifier has not occurred
    earlier in X; in Y it adds nothing to the set of DOIs, so the result
    and the log are those obtained without it. *)
Theorem blank_doi_is_empty (r : entry) :
  blank (dict_get_or r (lit "doi") []) = true ->
  (forall pre post entries_y,
      (forall e, In e pre -> dict_get e ID <> dict_get r ID) ->
      In r (fst (remove_duplicates_by_doi (pre ++ r :: post) entries_y))) /\
  (forall y1 y2,
      collect_dois (y1 ++ r :: y2) = collect_dois (y1 ++ y2)) /\
  (forall entries_x y1 y2,
      remove_duplicates_by_doi entries_x (y1 ++ r :: y2)
      = remove_duplicates_by_doi entries_x (y1 ++ y2)).
Proof.
  intros Hb. apply blank_entry_doi in Hb.
  assert (Hy : forall y1 y2, collect_dois (y1 ++ r :: y2) = collect_dois (y1 ++ y2)).
  { intros y1 y2. unfold collect_dois. rewrite !fold_left_app.
    cbn [fold_left]. cbn zeta. now rewrite Hb. }
  split; [|split; [exact Hy|]].
  - intros pre post entries_y Hpre.
    rewrite remove_duplicates_fst. apply filter_run_first_seen; [exact Hpre|].
    unfold kept. now rewrite Hb.
  - intros entries_x y1 y2. unfold remove_duplicates_by_doi. now rewrite Hy.
Qed.

Lemma blank_doi_is_empty_witness :
  In sample_blank_doi
     (fst (remove_duplicates_by_doi
             ([sample_with_doi; sample_no_type] ++ sample_blank_doi :: [sample_article])
             [sample_blank_doi; sample_with_doi])) /\
  remove_duplicates_by_doi [sample_with_doi] ([] ++ sample_blank_doi :: scenario_y)
    = remove_duplicates_by_doi [sample_with_doi] ([] ++ scenario_y).
Proof.
  destruct (blank_doi_is_empty sample_blank_doi eq_refl) as (Hx & _ & Hy).
  split.
  - apply Hx. intros e [<- | [<- | []]]; discriminate.
  - apply Hy.
Defined.

(** C10, as stated, fails: an entry of X with a blank DOI is not written
    when its identifier has occurred earlier in X. *)
Lemma blank_doi_entry_not_kept :
  blank (dict_get_or sample_blank_doi (lit "doi") []) = true /\
  ~ In sample_blank_doi
       (fst (remove_duplicates_by_doi [sample_article; sample_blank_doi] [])).
Proof.
  split; [reflexivity|].
  vm_compute. intros [H | []]. discriminate.
Qed.

(** ** The scenario of the specification *)

(** C1, as the code has it.  When the two record sets of the scenario,
    each entry with a type tag, are first standardized, removing from X
    the entries whose DOI is in Y writes nothing and logs the removal of
    entry [a]: the Standardizer has put both DOIs in lower case and taken
    the one of Y out of its resolver URL. *)
Theorem scenario_after_standardization (tx ty : str) :
  tx <> [] -> ty <> [] ->
  remove_duplicates_by_doi
    (fst (standardize_bibtex_file (scenario_x_typed tx)))
    (fst (standardize_bibtex_file (scenario_y_typed ty)))
  = ([], [FoundDois 1;
          RemovingEntry (Some (lit "a")) (lit "10.1234/example.doi");
          RemovedCount 1]).
Proof.
  intros Hx Hy.
  destruct tx as [|cx tx]; [congruence|]. destruct ty as [|cy ty]; [congruence|].
  vm_compute. reflexivity.
Qed.

Lemma scenario_after_standardization_witness :
  remove_duplicates_by_doi
    (fst (standardize_bibtex_file (scenario_x_typed (lit "article"))))
    (fst (standardize_bibtex_file (scenario_y_typed (lit "article"))))
  = ([], [FoundDois 1;
          RemovingEntry (Some (lit "a")) (lit "10.1234/example.doi");
          RemovedCount 1]).
Proof.
  apply (scenario_after_standardization (lit "article") (lit "article")); discriminate.
Defined.

(** C1, as stated, fails: on the two record sets as they are written,
    nothing is removed, because [remove_duplicates_by_doi] compares the
    stored [doi] values after trimming only. *)
Lemma scenario_without_standardization :
  fst (remove_duplicates_by_doi scenario_x scenario_y) = scenario_x /\
  fst (remove_duplicates_by_doi scenario_x scenario_y) <> [].
Proof. split; vm_compute; [reflexivity | discriminate]. Qed.

(* ================================================================== *)
(** * Further properties of [normalize_doi] *)
(* ================================================================== *)

Section NormalizeMore.

Lemma contains_doi_strip_intro s : contains_doi s -> contains_doi (strip s).
Proof.
  intros (pre & m & post & -> & Hm).
  exists (lstrip pre), m, (rstrip post). split; [|exact Hm].
  now apply strip_around_doi.
Qed.

Lemma contains_doi_lower_intro s : contains_doi s -> contains_doi (lower s).
Proof.
  intros (pre & m & post & -> & Hm).
  exists (lower pre), (lower m), (lower post). split.
  - now rewrite !lower_app.
  - now apply doi_shape_lower.
Qed.

(** What [normalize_doi] returns is empty, has the shape of a DOI, or is
    the cleaned input in which no DOI was found. *)
Lemma normalize_doi_cases s :
  normalize_doi s = ([], []) \/
  (doi_shape (fst (normalize_doi s)) /\ snd (normalize_doi s) = []) \/
  (exists t, s = Some t /\ t <> [] /\ ~ contains_doi t /\
             normalize_doi s = (lower (strip t), [DoiNotStandard (lower (strip t))])).
Proof.
  destruct s as [[|c s]|]; [now left | | now left].
  rewrite normalize_doi_some by discriminate.
  destruct (re_search doi_pattern (lower (strip (c :: s)))) as [g|] eqn:E.
  - right. left. apply re_search_doi_shape in E as [Hg _]. now split.
  - right. right. exists (c :: s). repeat split; [discriminate|].
    intros H. apply re_search_none in E. apply E.
    now apply contains_doi_lower_intro, contains_doi_strip_intro.
Qed.

Lemma normalize_doi_strip s : strip (fst (normalize_doi s)) = fst (normalize_doi s).
Proof.
  destruct (normalize_doi_cases s) as [-> | [[Hg _] | (t & _ & _ & _ & ->)]].
  - reflexivity.
  - now apply strip_doi_shape.
  - cbn [fst]. now rewrite strip_lower, strip_idem.
Qed.


End NormalizeMore.



(* ================================================================== *)
(** * Further properties of [standardize_bibtex_file] *)
(* ================================================================== *)

Section StandardizeMore.

Local Abbreviation run l st := (fst (for_each standardize_step l st)).
Local Abbreviation id_of := (fun e : entry => dict_get e ID).

Lemma normalize_doi_no_skip s : List.filter is_skip (snd (normalize_doi s)) = [].
Proof.
  destruct (normalize_doi_cases s) as [-> | [[_ ->] | (t & _ & _ & _ & ->)]];
    reflexivity.
Qed.

Lemma standardize_entry_no_skip id t e :
  List.filter is_skip (snd (standardize_entry id t e)) = [].
Proof.
  unfold standardize_entry. rewrite snd_bind. cbn [ret snd].
  rewrite app_nil_r. apply normalize_doi_no_skip.
Qed.

Lemma standardize_step_accepted_log st e id t :
  missing_id_or_type e = false ->
  dict_get e ID = Some id -> dict_get e ENTRYTYPE = Some t ->
  id ∉ processed_ids st ->
  List.filter is_skip (snd (standardize_step st e)) = [].
Proof.
  intros Hm Hid Ht Hin.
  destruct (missing_false e Hm) as (id' & t' & Hid' & Ht' & Hne & Hnt).
  rewrite Hid in Hid'. injection Hid' as <-.
  rewrite Ht in Ht'. injection Ht' as <-.
  destruct (standardize_entry_some id t e) as [d Hd].
  rewrite standardize_step_shape, Hid, Ht.
  destruct id as [|c1 s1]; [congruence|]. destruct t as [|c2 s2]; [congruence|].
  rewrite bool_decide_eq_false_2 by exact Hin.
  rewrite snd_bind, Hd. cbn [ret snd]. rewrite app_nil_r.
  apply standardize_entry_no_skip.
Qed.

(** The loop, entry by entry: which entries are taken, what is built
    from them, and how many are skipped. *)
Lemma std_run_full l st :
  exists acc new,
    acc `sublist_of` l /\
    Forall2 standardized_from acc new /\
    standardized_entries (run l st) = standardized_entries st ++ new /\
    NoDup (map id_of acc) /\
    (forall e id, In e acc -> dict_get e ID = Some id -> id ∉ processed_ids st) /\
    length l = length new +
               length (List.filter is_skip (snd (for_each standardize_step l st))).
Proof.
  revert st. induction l as [|e l IH]; intros st.
  - exists [], []. cbn [for_each ret fst snd]. rewrite app_nil_r.
    repeat split; try constructor. intros e id [].
  - rewrite for_each_cons. cbn [fst snd]. rewrite List.filter_app, length_app.
    destruct (missing_id_or_type e) eqn:Hm.
    + rewrite standardize_step_rejected by exact Hm. cbn [fst snd].
      destruct (IH st) as (acc & new & Hs & Hf & He & Hnd & Hfr & Hlen).
      exists acc, new. repeat split; auto.
      * now apply sublist_cons.
      * cbn [List.filter is_skip length]. lia.
    + destruct (missing_false e Hm) as (id & t & Hid & Ht & Hne & Hnt).
      destruct (decide (id ∈ processed_ids st)) as [Hin|Hin].
      * rewrite (standardize_step_duplicate st e id) by assumption. cbn [fst snd].
        destruct (IH st) as (acc & new & Hs & Hf & He & Hnd & Hfr & Hlen).
        exists acc, new. repeat split; auto.
        -- now apply sublist_cons.
        -- cbn [List.filter is_skip length]. lia.
      * rewrite (standardize_step_accepted_log st e id t) by assumption.
        destruct (standardize_step_accepted st e id t Hm Hid Ht Hin)
          as (fe & Hfe & ->).
        destruct (IH (StdState (standardized_entries st ++ [fe])
                               (processed_ids st ∪ {[ id ]})))
          as (acc & new & Hs & Hf & He & Hnd & Hfr & Hlen).
        cbn [standardized_entries processed_ids] in *.
        exists (e :: acc), (fe :: new). repeat split.
        -- now apply sublist_skip.
        -- constructor; [|exact Hf]. exists id, t. repeat split; assumption.
        -- rewrite He. now rewrite <- app_assoc.
        -- cbn [map]. apply NoDup_cons. split; [|exact Hnd].
           intros Hx. apply list_elem_of_In, in_map_iff in Hx as (e' & He' & Hin').
           rewrite Hid in He'. apply (Hfr e' id Hin' He').
           apply elem_of_union. right. now apply elem_of_singleton.
        -- intros e' id' [<-|Hin'] Hid'.
           ++ rewrite Hid in Hid'. now injection Hid' as <-.
           ++ intros Hx. apply (Hfr e' id' Hin' Hid').
              apply elem_of_union. now left.
        -- cbn [length]. lia.
Qed.

Lemma standardized_from_id e fe : standardized_from e fe -> dict_get fe ID = dict_get e ID.
Proof.
  intros (id & t & Hid & _ & _ & _ & Hfe). rewrite Hid.
  now apply standardize_entry_id in Hfe.
Qed.

Lemma Forall2_map_id acc new :
  Forall2 standardized_from acc new -> map id_of new = map id_of acc.
Proof.
  induction 1 as [|e fe acc new H _ IH]; [reflexivity|].
  cbn [map]. now rewrite IH, (standardized_from_id e fe H).
Qed.

End StandardizeMore.

(** X4.  The entries written by the standardizer come from entries read,
    in the order in which they were read: they are built, one for one,
    from a subsequence of the input. *)
Theorem standardize_keeps_order (entries : list entry) :
  exists taken,
    taken `sublist_of` entries /\
    Forall2 standardized_from taken (fst (standardize_bibtex_file entries)).
Proof.
  destruct (std_run_full entries (StdState [] ∅))
    as (acc & new & Hs & Hf & He & _).
  exists acc. split; [exact Hs|].
  rewrite standardize_fst, He. exact Hf.
Qed.

(** X5.  No two entries written by the standardizer have the same [ID]. *)
Theorem standardize_ids_distinct (entries : list entry) :
  NoDup (map (fun fe => dict_get fe ID) (fst (standardize_bibtex_file entries))).
Proof.
  destruct (std_run_full entries (StdState [] ∅))
    as (acc & new & _ & Hf & He & Hnd & _).
  rewrite standardize_fst, He. cbn [standardized_entries app].
  now rewrite (Forall2_map_id acc new Hf).
Qed.

(** X6.  Nothing is dropped silently: every entry read is either written
    or skipped with one warning (missing identifier or type, duplicate
    identifier, or error), so the number of entries read is the number
    written plus the number of these warnings. *)
Theorem standardize_accounts_for_all (entries : list entry) :
  length entries
  = length (fst (standardize_bibtex_file entries))
    + length (List.filter is_skip (snd (standardize_bibtex_file entries))).
Proof.
  destruct (std_run_full entries (StdState [] ∅))
    as (acc & new & _ & _ & He & _ & _ & Hlen).
  rewrite standardize_fst, standardize_snd, He. exact Hlen.
Qed.

(* ================================================================== *)
(** * The values of a standardized entry *)
(* ================================================================== *)

Section FieldValues.

Local Abbreviation lower_step :=
  (fun (d : entry) (kv : str * str) =>
     if bool_decide (fst kv = ID) || bool_decide (fst kv = ENTRYTYPE) then d
     else dict_set d (lower (fst kv)) (snd kv)).



Lemma lowercase_fold_absent e acc f :
  field_absent e f -> dict_get (fold_left lower_step e acc) f = dict_get acc f.
Proof.
  revert acc. induction e as [|[k v] e IH]; intros acc Habs; [reflexivity|].
  cbn [fold_left fst snd]. rewrite IH.
  - destruct (bool_decide (k = ID)) eqn:E1; [reflexivity|].
    destruct (bool_decide (k = ENTRYTYPE)) eqn:E2; [reflexivity|].
    cbn [orb]. apply dict_get_set_ne.
    apply bool_decide_eq_false_1 in E1. apply bool_decide_eq_false_1 in E2.
    apply (Habs k v); auto. now left.
  - intros k' v' Hin. apply (Habs k' v'). now right.
Qed.

(** Of several fields whose names differ only in letter case, the last
    one gives the value. *)
Lemma lowercase_fields_last e1 k v e2 :
  k <> ID -> k <> ENTRYTYPE -> field_absent e2 (lower k) ->
  dict_get (lowercase_fields (e1 ++ (k, v) :: e2)) (lower k) = Some v.
Proof.
  intros H1 H2 Habs. unfold lowercase_fields.
  rewrite fold_left_app. cbn [fold_left fst snd].
  rewrite !bool_decide_eq_false_2 by assumption. cbn [orb].
  rewrite lowercase_fold_absent by exact Habs.
  apply dict_get_set_eq.
Qed.

(** The values of the twelve fields, from the lower-cased fields of the
    entry read. *)
Lemma standardize_entry_values id t e fe :
  fst (standardize_entry id t e) = Some fe ->
  dict_get fe (lit "doi")
    = Some (fst (normalize_doi (Some (dict_get_or (lowercase_fields e) (lit "doi") [])))) /\
  dict_get fe (lit "journal")
    = Some (if negb (truthy (Some (dict_get_or (lowercase_fields e) (lit "journal") [])))
               && truthy (Some (dict_get_or (lowercase_fields e) (lit "booktitle") []))
            then dict_get_or (lowercase_fields e) (lit "booktitle") []
            else dict_get_or (lowercase_fields e) (lit "journal") []) /\
  (forall f, In f essential_fields -> f <> lit "doi" -> f <> lit "journal" ->
     dict_get fe f = Some (dict_get_or (lowercase_fields e) f [])).
Proof.
  rewrite standardize_entry_value.
  set (d0 := lowercase_fields e).
  set (doi := fst (normalize_doi (Some (dict_get_or d0 (lit "doi") [])))).
  set (d1 := dict_set d0 (lit "doi") doi).
  destruct (consolidate_journal (fill_missing d1)) as [d3|] eqn:Hc; [|discriminate].
  cbn [option_map]. intros [= <-].
  assert (Hd : In (lit "doi") essential_fields) by (apply essential_has; reflexivity).
  assert (Hj : In (lit "journal") essential_fields) by (apply essential_has; reflexivity).
  assert (Hb : In (lit "booktitle") essential_fields) by (apply essential_has; reflexivity).
  assert (Hother : forall f, In f essential_fields -> f <> lit "doi" ->
            dict_get (fill_missing d1) f = Some (dict_get_or d0 f [])).
  { intros f Hf Hfd. rewrite fill_missing_get by exact Hf.
    unfold dict_get_or, d1. rewrite dict_get_set_ne; [reflexivity|].
    intros E. apply Hfd. now symmetry. }
  split; [|split].
  - rewrite final_entry_get by exact Hd. unfold dict_get_or at 1.
    rewrite (consolidate_journal_other _ _ (lit "doi") Hc) by discriminate.
    rewrite fill_missing_get by exact Hd. unfold dict_get_or at 1, d1.
    now rewrite dict_get_set_eq.
  - rewrite final_entry_get by exact Hj. f_equal. unfold dict_get_or at 1.
    pose proof (Hother _ Hj ltac:(discriminate)) as Ej.
    pose proof (Hother _ Hb ltac:(discriminate)) as Eb.
    unfold consolidate_journal in Hc. rewrite Ej, Eb in Hc.
    destruct (negb (truthy (Some (dict_get_or d0 (lit "journal") []))) &&
              truthy (Some (dict_get_or d0 (lit "booktitle") []))).
    + injection Hc as <-. now rewrite dict_get_set_eq.
    + injection Hc as <-. now rewrite Ej.
  - intros f Hf Hfd Hfj. rewrite final_entry_get by exact Hf. unfold dict_get_or at 1.
    rewrite (consolidate_journal_other _ _ f Hc) by exact Hfj.
    now rewrite Hother.
Qed.

End FieldValues.

Section Restandardize.

Local Abbreviation run l st := (fst (for_each standardize_step l st)).


(** In a written entry the journal is empty only if the book title is. *)
Lemma standardize_entry_journal id t e fe :
  fst (standardize_entry id t e) = Some fe ->
  dict_get fe (lit "booktitle") = Some [] \/ truthy (dict_get fe (lit "journal")) = true.
Proof.
  intros H. destruct (standardize_entry_values id t e fe H) as (_ & Hj & Ho).
  rewrite Hj, (Ho (lit "booktitle")); [| apply essential_has; reflexivity
                                       | discriminate | discriminate].
  destruct (dict_get_or (lowercase_fields e) (lit "booktitle") []) as [|cb b];
    [now left | right].
  now destruct (dict_get_or (lowercase_fields e) (lit "journal") []).
Qed.



End Restandardize.


(** X8.  In every entry written by the standardizer the journal is empty
    only if the book title is empty too: a book title is never left
    without a journal. *)
Theorem standardized_journal_filled (entries : list entry) :
  Forall (fun fe => dict_get fe (lit "booktitle") = Some [] \/
                    truthy (dict_get fe (lit "journal")) = true)
         (fst (standardize_bibtex_file entries)).
Proof.
  apply List.Forall_forall. intros fe Hin.
  destruct (standardize_origin _ _ Hin) as (e & id & t & _ & _ & _ & Hfe).
  exact (standardize_entry_journal id t e fe Hfe).
Qed.


(** X10.  A field of the entry read keeps its value under its lower-cased
    name; of several fields whose names differ only in letter case the
    last one counts.  The exceptions are the [doi], which is normalised,
    and an empty journal, which takes the value of booktitle. *)
Theorem standardize_entry_keeps_value
    (id t : str) (e1 e2 : entry) (k v : str) (fe : entry) :
  fst (standardize_entry id t (e1 ++ (k, v) :: e2)) = Some fe ->
  k <> ID -> k <> ENTRYTYPE ->
  In (lower k) essential_fields ->
  field_absent e2 (lower k) ->
  dict_get fe (lower k) =
    if bool_decide (lower k = lit "doi") then Some (fst (normalize_doi (Some v)))
    else if bool_decide (lower k = lit "journal") && negb (truthy (Some v))
         then dict_get fe (lit "booktitle")
         else Some v.
Proof.
  intros Hfe Hk1 Hk2 Hess Habs.
  destruct (standardize_entry_values _ _ _ _ Hfe) as (Hd & Hj & Ho).
  pose proof (lowercase_fields_last e1 k v e2 Hk1 Hk2 Habs) as Hv.
  assert (Hget : dict_get_or (lowercase_fields (e1 ++ (k, v) :: e2)) (lower k) [] = v)
    by (unfold dict_get_or; now rewrite Hv).
  case_bool_decide as Ed.
  - rewrite Ed in *. now rewrite Hd, Hget.
  - case_bool_decide as Ej.
    + rewrite Ej in *. rewrite Hj, Hget.
      rewrite (Ho (lit "booktitle")); [| apply essential_has; reflexivity
                                       | discriminate | discriminate].
      destruct v as [|c v]; cbn [truthy negb andb]; [|reflexivity].
      now destruct (dict_get_or _ (lit "booktitle") []).
    + cbn [andb]. now rewrite (Ho _ Hess Ed Ej), Hget.
Qed.

Lemma standardize_entry_keeps_value_witness :
  dict_get (hd [] (fst (standardize_bibtex_file [sample_case_collision])))
           (lower (lit "TITLE"))
  = Some (lit "second").
Proof.
  apply (standardize_entry_keeps_value (lit "c1") (lit "misc")
           [(ID, lit "c1"); (ENTRYTYPE, lit "misc"); (lit "Title", lit "first")]
           [(lit "Journal", []); (lit "booktitle", lit "Proc. Y")]
           (lit "TITLE") (lit "second")).
  - vm_compute. reflexivity.
  - discriminate.
  - discriminate.
  - vm_compute. tauto.
  - intros k v [[= <- <-] | [[= <- <-] | []]] _ _; vm_compute; discriminate.
Defined.

(* ================================================================== *)
(** * Further properties of [remove_duplicates_by_doi] *)
(* ================================================================== *)

Section FirstById.

Local Abbreviation id_of := (fun e : entry => dict_get e ID).

Lemma filter_sublist {A} (p : A -> bool) (l : list A) : List.filter p l `sublist_of` l.
Proof.
  induction l as [|x l IH]; [constructor|].
  cbn [List.filter]. destruct (p x); now constructor.
Qed.

Lemma sublist_in {A} (l k : list A) (x : A) :
  l `sublist_of` k -> In x l -> In x k.
Proof.
  induction 1 as [|y l k _ IH|y l k _ IH]; [intros [] | |].
  - intros [<-|H]; [now left | right; now apply IH].
  - intros H. right. now apply IH.
Qed.

Lemma sublist_map {A B} (f : A -> B) (l k : list A) :
  l `sublist_of` k -> map f l `sublist_of` map f k.
Proof. induction 1; cbn [map]; now constructor. Qed.

Lemma filter_andb {A} (p q : A -> bool) (l : list A) :
  List.filter (fun x => p x && q x) l = List.filter q (List.filter p l).
Proof.
  induction l as [|x l IH]; [reflexivity|].
  cbn [List.filter]. destruct (p x); cbn [andb List.filter]; [|exact IH].
  destruct (q x); now rewrite IH.
Qed.

Lemma filter_nil_length {A} (p : A -> bool) (l : list A) :
  length (List.filter p l) = 0 -> List.filter p l = [].
Proof. now destruct (List.filter p l). Qed.

Lemma first_by_id_sublist seen l : first_by_id seen l `sublist_of` l.
Proof.
  revert seen. induction l as [|e l IH]; intros seen; [constructor|].
  cbn [first_by_id]. case_bool_decide; constructor; apply IH.
Qed.

Lemma first_by_id_fresh seen l e :
  In e (first_by_id seen l) -> dict_get e ID ∉ seen.
Proof.
  revert seen. induction l as [|x l IH]; intros seen; [intros []|].
  cbn [first_by_id]. case_bool_decide as Hx.
  - apply IH.
  - intros [<-|Hin]; [exact Hx|].
    intros Hs. apply (IH _ Hin). apply elem_of_union. now left.
Qed.

Lemma first_by_id_nodup seen l : NoDup (map id_of (first_by_id seen l)).
Proof.
  revert seen. induction l as [|x l IH]; intros seen; [constructor|].
  cbn [first_by_id]. case_bool_decide as Hx; [apply IH|].
  cbn [map]. apply NoDup_cons. split; [|apply IH].
  intros Hin. apply list_elem_of_In, in_map_iff in Hin as (e & He & Hin).
  apply first_by_id_fresh in Hin. apply Hin.
  apply elem_of_union. right. apply elem_of_singleton. now symmetry.
Qed.

(** On entries with fresh, pairwise distinct identifiers nothing is left
    out. *)
Lemma first_by_id_all seen l :
  NoDup (map id_of l) -> (forall e, In e l -> dict_get e ID ∉ seen) ->
  first_by_id seen l = l.
Proof.
  revert seen. induction l as [|x l IH]; intros seen Hnd Hfr; [reflexivity|].
  cbn [first_by_id]. rewrite bool_decide_eq_false_2 by (apply Hfr; now left).
  cbn [map] in Hnd. apply NoDup_cons in Hnd as [Hx Hnd].
  f_equal. apply IH; [exact Hnd|].
  intros e He. apply not_elem_of_union. split; [apply Hfr; now right|].
  rewrite elem_of_singleton. intros Heq. apply Hx.
  rewrite <- Heq. apply list_elem_of_In, (in_map id_of), He.
Qed.

Lemma first_by_id_length seen l : length (first_by_id seen l) <= length l.
Proof. apply sublist_length, first_by_id_sublist. Qed.

End FirstById.

Section RemoveMore.

Variable entries_y : list entry.

Local Abbreviation dois_y := (collect_dois entries_y).
Local Abbreviation run l st := (fst (for_each (filter_step dois_y) l st)).
Local Abbreviation logs l st := (snd (for_each (filter_step dois_y) l st)).

(** The loop, entry by entry: what is written, what is counted, and what
    is logged. *)
Lemma filter_run_full l st :
  unique_entries_x (run l st)
    = unique_entries_x st
      ++ List.filter (kept entries_y) (first_by_id (processed_ids_x st) l) /\
  removed_count (run l st)
    = removed_count st + length (List.filter is_removal (logs l st)) /\
  length (first_by_id (processed_ids_x st) l)
    = length (List.filter (kept entries_y) (first_by_id (processed_ids_x st) l))
      + length (List.filter is_removal (logs l st)) /\
  length l
    = length (first_by_id (processed_ids_x st) l)
      + length (List.filter is_duplicate_x (logs l st)).
Proof.
  revert st. induction l as [|e l IH]; intros st.
  - cbn [for_each ret fst snd first_by_id List.filter length].
    rewrite app_nil_r. repeat split; lia.
  - rewrite !for_each_cons. cbn [fst snd first_by_id].
    rewrite !List.filter_app, !length_app.
    destruct (decide (dict_get e ID ∈ processed_ids_x st)) as [Hs|Hs].
    + rewrite filter_step_seen by exact Hs. cbn [fst snd].
      rewrite bool_decide_eq_true_2 by exact Hs.
      destruct (IH st) as (H1 & H2 & H3 & H4).
      cbn [List.filter is_removal is_duplicate_x length].
      repeat split; [exact H1 | exact H2 | exact H3 | lia].
    + rewrite bool_decide_eq_false_2 by exact Hs.
      destruct (kept entries_y e) eqn:Hk.
      * rewrite filter_step_kept by assumption. cbn [fst snd].
        destruct (IH (FilterState (unique_entries_x st ++ [e]) (removed_count st)
                                  (processed_ids_x st ∪ {[ dict_get e ID ]})))
          as (H1 & H2 & H3 & H4).
        cbn [unique_entries_x removed_count processed_ids_x] in *.
        cbn [List.filter length]. rewrite Hk. cbn [length].
        repeat split; [| exact H2 | lia | lia].
        rewrite H1. now rewrite <- app_assoc.
      * rewrite filter_step_removed by assumption. cbn [fst snd].
        destruct (IH (FilterState (unique_entries_x st) (removed_count st + 1)
                                  (processed_ids_x st ∪ {[ dict_get e ID ]})))
          as (H1 & H2 & H3 & H4).
        cbn [unique_entries_x removed_count processed_ids_x] in *.
        cbn [List.filter is_removal is_duplicate_x length]. rewrite Hk.
        repeat split; [exact H1 | lia | lia | lia].
Qed.

Lemma remove_duplicates_entries l :
  fst (remove_duplicates_by_doi l entries_y)
  = List.filter (kept entries_y) (first_by_id ∅ l).
Proof.
  rewrite remove_duplicates_fst.
  now rewrite (proj1 (filter_run_full l (FilterState [] 0 ∅))).
Qed.

Lemma remove_duplicates_log l :
  snd (remove_duplicates_by_doi l entries_y)
  = FoundDois (size dois_y) :: logs l (FilterState [] 0 ∅)
    ++ [RemovedCount (removed_count (run l (FilterState [] 0 ∅)))].
Proof. unfold remove_duplicates_by_doi. cbn zeta. now rewrite !snd_bind. Qed.

Lemma kept_spec e :
  kept entries_y e = true <->
  entry_doi e = [] \/ forall e', In e' entries_y -> entry_doi e' <> entry_doi e.
Proof.
  unfold kept. destruct (entry_doi e) as [|c d] eqn:E; cbn [truthy negb orb].
  - split; [now left | reflexivity].
  - rewrite negb_true_iff. split.
    + intros Hn. right. intros e' He' Heq.
      assert (doi_among entries_y (c :: d) = true) as Ht
        by (apply doi_among_spec; eauto).
      congruence.
    + intros [H|H]; [discriminate|].
      destruct (doi_among entries_y (c :: d)) eqn:Ha; [|reflexivity].
      apply doi_among_spec in Ha as (e' & He' & Heq). now destruct (H e' He').
Qed.

End RemoveMore.

Lemma filter_first_nodup (p : entry -> bool) seen l :
  NoDup (map (fun e => dict_get e ID) (List.filter p (first_by_id seen l))).
Proof.
  apply (sublist_NoDup _ (map (fun e => dict_get e ID) (first_by_id seen l))).
  - apply first_by_id_nodup.
  - apply sublist_map, filter_sublist.
Qed.

Lemma kept_app y1 y2 e : kept (y1 ++ y2) e = kept y1 e && kept y2 e.
Proof.
  unfold kept, doi_among. rewrite existsb_app.
  destruct (truthy (Some (entry_doi e))); cbn [negb orb]; [|reflexivity].
  apply negb_orb.
Qed.

Lemma collect_dois_app y1 y2 :
  collect_dois (y1 ++ y2) = collect_dois y1 ∪ collect_dois y2.
Proof.
  apply set_eq. intros d.
  rewrite elem_of_union, !collect_dois_spec. split.
  - intros (Hd & e & He & Heq). apply in_app_or in He as [He|He]; eauto.
  - intros [(Hd & e & He & Heq)|(Hd & e & He & Heq)];
      (split; [exact Hd|]); exists e; (split; [|exact Heq]);
      apply in_or_app; auto.
Qed.

(** X11.  For every X and Y, the entries written are the entries of X
    that are the first with their [ID] (an absent [ID] counting as one
    value) and whose trimmed DOI is empty or is not the trimmed DOI of
    an entry of Y, in the order of X. *)
Theorem remove_duplicates_first_by_id (entries_x entries_y : list entry) :
  fst (remove_duplicates_by_doi entries_x entries_y)
  = List.filter (kept entries_y) (first_by_id ∅ entries_x).
Proof. apply remove_duplicates_entries. Qed.

(** X12.  [remove_duplicates_by_doi] only leaves entries out: what it
    writes is a subsequence of X, with the entries unchanged and in their
    order. *)
Theorem remove_duplicates_sublist (entries_x entries_y : list entry) :
  fst (remove_duplicates_by_doi entries_x entries_y) `sublist_of` entries_x.
Proof.
  rewrite remove_duplicates_entries.
  transitivity (first_by_id ∅ entries_x).
  - apply filter_sublist.
  - apply first_by_id_sublist.
Qed.

(** X13.  No two entries written by [remove_duplicates_by_doi] have the
    same [ID], and at most one of them has no [ID]. *)
Theorem remove_duplicates_ids_distinct (entries_x entries_y : list entry) :
  NoDup (map (fun e => dict_get e ID)
             (fst (remove_duplicates_by_doi entries_x entries_y))).
Proof.
  rewrite remove_duplicates_entries. apply filter_first_nodup.
Qed.

(** X14.  [remove_duplicates_by_doi] never writes an entry whose
    non-empty trimmed DOI is the trimmed DOI of an entry of Y. *)
Theorem remove_duplicates_no_doi_of_y (entries_x entries_y : list entry) :
  Forall (fun e => entry_doi e = [] \/
                   forall e', In e' entries_y -> entry_doi e' <> entry_doi e)
         (fst (remove_duplicates_by_doi entries_x entries_y)).
Proof.
  rewrite remove_duplicates_entries. apply List.Forall_forall.
  intros e He. apply filter_In in He as [_ Hk]. now apply kept_spec.
Qed.

(** X15.  Every entry of X is accounted for: the number of entries of X
    is the number written, plus the number of removal messages, plus the
    number of warnings for a repeated [ID]; and the count reported at
    the end is the number of removal messages. *)
Theorem remove_duplicates_accounts_for_all (entries_x entries_y : list entry) :
  length entries_x
  = length (fst (remove_duplicates_by_doi entries_x entries_y))
    + length (List.filter is_removal (snd (remove_duplicates_by_doi entries_x entries_y)))
    + length (List.filter is_duplicate_x
                (snd (remove_duplicates_by_doi entries_x entries_y))) /\
  In (RemovedCount
        (length (List.filter is_removal
                   (snd (remove_duplicates_by_doi entries_x entries_y)))))
     (snd (remove_duplicates_by_doi entries_x entries_y)).
Proof.
  destruct (filter_run_full entries_y entries_x (FilterState [] 0 ∅))
    as (_ & H2 & H3 & H4).
  cbn [removed_count processed_ids_x] in *.
  rewrite remove_duplicates_entries, remove_duplicates_log.
  cbn [List.filter is_removal is_duplicate_x].
  rewrite !List.filter_app. cbn [List.filter is_removal is_duplicate_x].
  rewrite !app_nil_r. split; [lia|].
  right. apply in_or_app. right. left. f_equal. exact H2.
Qed.

(** X16.  Removing the duplicates a second time against the same Y
    changes nothing. *)
Theorem remove_duplicates_idempotent (entries_x entries_y : list entry) :
  fst (remove_duplicates_by_doi
         (fst (remove_duplicates_by_doi entries_x entries_y)) entries_y)
  = fst (remove_duplicates_by_doi entries_x entries_y).
Proof.
  rewrite !remove_duplicates_entries.
  rewrite (first_by_id_all ∅ (List.filter _ _)).
  - rewrite <- filter_andb. apply filter_ext. intros e. apply andb_diag.
  - apply filter_first_nodup.
  - intros e _. apply not_elem_of_empty.
Qed.

(** X17.  Removing against Y1 and then against Y2 writes the same
    entries as removing once against the entries of Y1 followed by those
    of Y2. *)
Theorem remove_duplicates_sequential (entries_x y1 y2 : list entry) :
  fst (remove_duplicates_by_doi (fst (remove_duplicates_by_doi entries_x y1)) y2)
  = fst (remove_duplicates_by_doi entries_x (y1 ++ y2)).
Proof.
  rewrite !remove_duplicates_entries.
  rewrite (first_by_id_all ∅ (List.filter _ _)).
  - rewrite <- filter_andb. apply filter_ext. intros e. symmetry. apply kept_app.
  - apply filter_first_nodup.
  - intros e _. apply not_elem_of_empty.
Qed.

(** X18.  The order of the entries of Y does not matter: for a
    reordering of Y the entries written and the log are the same. *)
Theorem remove_duplicates_y_order (entries_x y y' : list entry) :
  Permutation y y' ->
  remove_duplicates_by_doi entries_x y = remove_duplicates_by_doi entries_x y'.
Proof.
  intros Hp.
  assert (E : collect_dois y = collect_dois y').
  { apply set_eq. intros d. rewrite !collect_dois_spec.
    split; intros (Hd & e & He & Heq); (split; [exact Hd|]); exists e;
      (split; [|exact Heq]).
    - eapply Permutation_in; eassumption.
    - eapply Permutation_in; [symmetry|]; eassumption. }
  unfold remove_duplicates_by_doi. now rewrite E.
Qed.

Lemma remove_duplicates_y_order_witness :
  remove_duplicates_by_doi [sample_with_doi; sample_article]
                           [sample_blank_doi; sample_with_doi]
  = remove_duplicates_by_doi [sample_with_doi; sample_article]
                             [sample_with_doi; sample_blank_doi].
Proof.
  apply remove_duplicates_y_order. apply perm_swap.
Defined.

(** X19.  Removing from a file what is in the file itself leaves only
    entries without DOI. *)
Theorem remove_duplicates_against_itself (entries_x : list entry) :
  Forall (fun e => entry_doi e = [])
         (fst (remove_duplicates_by_doi entries_x entries_x)).
Proof.
  rewrite remove_duplicates_entries. apply List.Forall_forall.
  intros e He. apply filter_In in He as [Hin Hk].
  apply kept_spec in Hk as [H|H]; [exact H|].
  exfalso. apply (H e); [|reflexivity].
  apply (sublist_in (first_by_id ∅ entries_x)); [apply first_by_id_sublist | exact Hin].
Qed.

(* ================================================================== *)
(** * Standardizing, then removing duplicates *)
(* ================================================================== *)

Lemma standardize_ids_nodup l :
  NoDup (map (fun fe => dict_get fe ID) (fst (standardize_bibtex_file l))).
Proof.
  destruct (std_run_full l (StdState [] ∅)) as (acc & new & _ & Hf & He & Hnd & _).
  rewrite standardize_fst, He. cbn [standardized_entries app].
  now rewrite (Forall2_map_id acc new Hf).
Qed.

Lemma standardized_entry_doi l fe :
  In fe (fst (standardize_bibtex_file l)) ->
  dict_get fe (lit "doi") = Some (entry_doi fe).
Proof.
  intros Hin.
  destruct (standardize_origin _ _ Hin) as (e & id & t & _ & _ & _ & Hfe).
  destruct (standardize_entry_values id t e fe Hfe) as (Hd & _ & _).
  unfold entry_doi, dict_get_or. rewrite Hd.
  cbn [default from_option Datatypes.id]. now rewrite normalize_doi_strip.
Qed.

(** X20.  On a file written by the standardizer the guard against
    repeated identifiers never fires: [remove_duplicates_by_doi] is then
    the plain filter by DOI, and logs no warning for a repeated [ID]. *)
Theorem pipeline_is_filter (raw_x entries_y : list entry) :
  fst (remove_duplicates_by_doi (fst (standardize_bibtex_file raw_x)) entries_y)
    = List.filter (kept entries_y) (fst (standardize_bibtex_file raw_x)) /\
  List.filter is_duplicate_x
    (snd (remove_duplicates_by_doi (fst (standardize_bibtex_file raw_x)) entries_y))
    = [].
Proof.
  pose proof (standardize_ids_nodup raw_x) as Hnd.
  assert (Hall : first_by_id ∅ (fst (standardize_bibtex_file raw_x))
                 = fst (standardize_bibtex_file raw_x)).
  { apply first_by_id_all; [exact Hnd|]. intros e _. apply not_elem_of_empty. }
  split.
  - now rewrite remove_duplicates_entries, Hall.
  - destruct (filter_run_full entries_y (fst (standardize_bibtex_file raw_x))
                (FilterState [] 0 ∅)) as (_ & _ & _ & H4).
    cbn [processed_ids_x] in H4. rewrite Hall in H4.
    rewrite remove_duplicates_log. cbn [List.filter is_duplicate_x].
    rewrite List.filter_app. cbn [List.filter is_duplicate_x]. rewrite app_nil_r.
    apply filter_nil_length. lia.
Qed.

(** X21.  After standardization, an entry of X whose [doi] is not empty
    and is also the [doi] of an entry of Y is not written. *)
Theorem pipeline_removes_equal_doi
    (raw_x raw_y : list entry) (fe fe' : entry) (d : str) :
  In fe (fst (standardize_bibtex_file raw_x)) ->
  In fe' (fst (standardize_bibtex_file raw_y)) ->
  dict_get fe (lit "doi") = Some d ->
  dict_get fe' (lit "doi") = Some d ->
  d <> [] ->
  ~ In fe (fst (remove_duplicates_by_doi (fst (standardize_bibtex_file raw_x))
                                         (fst (standardize_bibtex_file raw_y)))).
Proof.
  intros Hx Hy Hd Hd' Hne Hin.
  rewrite remove_duplicates_entries in Hin. apply filter_In in Hin as [_ Hk].
  pose proof (standardized_entry_doi _ _ Hx) as Ex.
  pose proof (standardized_entry_doi _ _ Hy) as Ey.
  rewrite Hd in Ex. rewrite Hd' in Ey. injection Ex as Ex. injection Ey as Ey.
  apply kept_spec in Hk as [Hk|Hk].
  - congruence.
  - apply (Hk fe' Hy). congruence.
Qed.

Lemma pipeline_removes_equal_doi_witness :
  ~ In (hd [] (fst (standardize_bibtex_file (scenario_y_typed (lit "article")))))
       (fst (remove_duplicates_by_doi
               (fst (standardize_bibtex_file (scenario_y_typed (lit "article"))))
               (fst (standardize_bibtex_file
                       (sample_inproceedings :: scenario_x_typed (lit "misc")))))).
Proof.
  apply (pipeline_removes_equal_doi
           (scenario_y_typed (lit "article"))
           (sample_inproceedings :: scenario_x_typed (lit "misc"))
           (hd [] (fst (standardize_bibtex_file (scenario_y_typed (lit "article")))))
           (hd [] (fst (standardize_bibtex_file (scenario_x_typed (lit "misc")))))
           (lit "10.1234/example.doi")).
  - vm_compute. left. reflexivity.
  - vm_compute. right. left. reflexivity.
  - vm_compute. reflexivity.
  - vm_compute. reflexivity.
  - discriminate.
Defined.

(* ================================================================== *)
(** * [convert_bibtex_to_csv] *)
(* ================================================================== *)

Section Csv.

Lemma one_line_app a b : one_line (a ++ b) = one_line a && one_line b.
Proof. apply forallb_app. Qed.

Lemma one_line_rev s : one_line s = true -> one_line (rev s) = true.
Proof.
  unfold one_line. rewrite !forallb_forall. intros H c Hc.
  apply H. now apply in_rev.
Qed.

Lemma splitlines_from_one_line n s cur :
  length s <= n -> one_line cur = true ->
  Forall (fun line => one_line line = true) (splitlines_from cur s).
Proof.
  revert s cur. induction n as [|n IH]; intros s cur Hn Hcur.
  - destruct s; [|cbn in Hn; lia]. cbn [splitlines_from].
    destruct cur; constructor; [now apply one_line_rev | constructor].
  - destruct s as [|c s]; cbn [splitlines_from].
    + destruct cur; constructor; [now apply one_line_rev | constructor].
    + cbn [length] in Hn. destruct (is_linebreak c) eqn:Ec.
      * constructor; [now apply one_line_rev|].
        destruct s as [|c2 s2]; [apply IH; [cbn; lia | reflexivity]|].
        cbn [length] in Hn.
        destruct (Ascii.eqb c "013" && Ascii.eqb c2 "010");
          apply IH; cbn [length]; try lia; reflexivity.
      * apply IH; [lia|]. cbn. now rewrite Ec.
Qed.

Lemma join_one_line sep parts :
  one_line sep = true -> Forall (fun line => one_line line = true) parts ->
  one_line (join sep parts) = true.
Proof.
  intros Hsep. induction 1 as [|x parts Hx Hparts IH]; [reflexivity|].
  cbn [join]. destruct parts as [|y parts]; [exact Hx|].
  rewrite !one_line_app, Hx, Hsep. exact IH.
Qed.

Lemma strip_one_line s : one_line s = true -> one_line (strip s) = true.
Proof.
  destruct (strip_infix s) as (l & r & Hs). intros H. rewrite Hs in H.
  rewrite !one_line_app in H.
  apply andb_prop in H as [_ H]. now apply andb_prop in H as [H _].
Qed.

Lemma clean_cell_one_line v : one_line (clean_cell v) = true.
Proof.
  apply strip_one_line, join_one_line; [reflexivity|].
  now apply (splitlines_from_one_line (length v)).
Qed.

(** A text without line boundary is its own single line. *)
Lemma splitlines_from_plain s cur :
  one_line s = true ->
  splitlines_from cur s =
  match rev cur ++ s with
  | [] => []
  | line => [line]
  end.
Proof.
  revert cur. induction s as [|c s IH]; intros cur H.
  - cbn [splitlines_from]. rewrite app_nil_r.
    destruct cur as [|x cur]; [reflexivity|].
    cbn [rev]. now destruct (rev cur).
  - cbn in H. apply andb_prop in H as [Hc Hs].
    apply negb_true_iff in Hc. cbn [splitlines_from]. rewrite Hc.
    rewrite IH by exact Hs. cbn [rev]. now rewrite <- app_assoc.
Qed.

Lemma clean_cell_of_one_line v : one_line v = true -> clean_cell v = strip v.
Proof.
  intros H. unfold clean_cell, splitlines.
  rewrite splitlines_from_plain by exact H. cbn [rev app].
  now destruct v.
Qed.

Lemma clean_cell_again v : clean_cell (clean_cell v) = clean_cell v.
Proof.
  rewrite (clean_cell_of_one_line (clean_cell v)) by apply clean_cell_one_line.
  unfold clean_cell. apply strip_idem.
Qed.

(** The cells of the row of an entry. *)
Lemma csv_row_cells e :
  dict_to_list csv_header (clean_row (row_data e)) = Some (map clean_cell (csv_values e)).
Proof. vm_compute. reflexivity. Qed.

Lemma write_rows_all l :
  write_rows l = (map (fun e => map clean_cell (csv_values e)) l, true).
Proof.
  induction l as [|e l IH]; [reflexivity|].
  cbn [write_rows map]. rewrite csv_row_cells, IH. reflexivity.
Qed.

Lemma linebreak_lower c : is_linebreak (char_lower c) = is_linebreak c.
Proof. each_char c. Qed.

Lemma cr_lower c : Ascii.eqb (char_lower c) "013" = Ascii.eqb c "013".
Proof. each_char c. Qed.

Lemma lf_lower c : Ascii.eqb (char_lower c) "010" = Ascii.eqb c "010".
Proof. each_char c. Qed.

Lemma doi_char_not_linebreak c : doi_char c = true -> is_linebreak c = false.
Proof. each_char c. Qed.

Lemma digit_not_linebreak c : isdigit c = true -> is_linebreak c = false.
Proof. each_char c. Qed.

Lemma lower_rev s : lower (rev s) = rev (lower s).
Proof. unfold lower. now rewrite map_rev. Qed.

Lemma splitlines_from_lower n s cur :
  length s <= n ->
  splitlines_from (lower cur) (lower s) = map lower (splitlines_from cur s).
Proof.
  revert s cur. induction n as [|n IH]; intros s cur Hn.
  - destruct s; [|cbn in Hn; lia]. cbn [lower map splitlines_from].
    destruct cur; [reflexivity|]. cbn [map]. now rewrite <- lower_rev.
  - destruct s as [|c s].
    + cbn [lower map splitlines_from].
      destruct cur; [reflexivity|]. cbn [map]. now rewrite <- lower_rev.
    + cbn [length] in Hn.
      change (lower (c :: s)) with (char_lower c :: lower s).
      cbn [splitlines_from]. rewrite linebreak_lower.
      destruct (is_linebreak c).
      * cbn [map]. rewrite <- lower_rev. f_equal.
        destruct s as [|c2 s2]; [reflexivity|].
        change (lower (c2 :: s2)) with (char_lower c2 :: lower s2).
        cbn [length] in Hn. rewrite cr_lower, lf_lower.
        destruct (Ascii.eqb c "013" && Ascii.eqb c2 "010").
        -- apply (IH s2 []). lia.
        -- apply (IH (c2 :: s2) []). cbn [length]. lia.
      * apply (IH s (c :: cur)). lia.
Qed.

Lemma join_lower sep parts :
  join (lower sep) (map lower parts) = lower (join sep parts).
Proof.
  induction parts as [|x parts IH]; [reflexivity|].
  cbn [map join]. destruct parts as [|y parts]; [reflexivity|].
  cbn [map] in *. now rewrite IH, !lower_app.
Qed.

Lemma clean_cell_lower v : clean_cell (lower v) = lower (clean_cell v).
Proof.
  unfold clean_cell, splitlines.
  pose proof (splitlines_from_lower (length v) v [] (le_n _)) as E.
  change (lower []) with (@nil ascii) in E. rewrite E.
  change (lit " ") with (lower (lit " ")) at 1.
  now rewrite join_lower, strip_lower.
Qed.

Lemma doi_shape_one_line m : doi_shape m -> one_line m = true.
Proof.
  intros (digits & run & -> & _ & Hd & _ & Hr).
  rewrite one_line_app. apply andb_true_intro. split; [reflexivity|].
  rewrite one_line_app. apply andb_true_intro. split.
  - unfold one_line. apply forallb_forall. intros c Hc.
    rewrite forallb_forall in Hd. now rewrite digit_not_linebreak by now apply Hd.
  - change (one_line ("/"%char :: run)) with (one_line run).
    unfold one_line. apply forallb_forall. intros c Hc.
    rewrite forallb_forall in Hr. now rewrite doi_char_not_linebreak by now apply Hr.
Qed.

Lemma convert_rows l :
  convert_bibtex_to_csv l
    = (csv_header :: map (fun e => map clean_cell (csv_values e)) l, true).
Proof. unfold convert_bibtex_to_csv. now rewrite write_rows_all. Qed.

End Csv.

(** X22.  Writing the CSV never fails on the rows, whatever the entries
    hold: the file has the header and then one row per entry, in the order
    of the entries, and each row is the twelve column values of its entry,
    each of them cleaned. *)
Theorem convert_writes_every_entry (entries : list entry) :
  snd (convert_bibtex_to_csv entries) = true /\
  hd_error (fst (convert_bibtex_to_csv entries)) = Some csv_header /\
  tl (fst (convert_bibtex_to_csv entries))
    = map (fun e => map clean_cell (csv_values e)) entries /\
  length (fst (convert_bibtex_to_csv entries)) = S (length entries).
Proof.
  rewrite convert_rows. cbn [fst snd hd_error tl length].
  now rewrite length_map.
Qed.

(** X23.  Every row of the CSV, the header included, has twelve cells,
    and no cell holds a line boundary or has white space at either end. *)
Theorem convert_cells_clean (entries : list entry) :
  Forall (fun row =>
            length row = 12 /\
            Forall (fun cell => one_line cell = true /\ strip cell = cell) row)
         (fst (convert_bibtex_to_csv entries)).
Proof.
  rewrite convert_rows. cbn [fst]. constructor.
  - split; [reflexivity|].
    repeat (constructor; [split; vm_compute; reflexivity|]). constructor.
  - apply List.Forall_forall. intros row Hrow.
    apply in_map_iff in Hrow as (e & <- & _). split; [reflexivity|].
    apply List.Forall_forall. intros cell Hcell.
    apply in_map_iff in Hcell as (v & <- & _). split.
    + apply clean_cell_one_line.
    + unfold clean_cell. apply strip_idem.
Qed.

(** X24.  On a value without line boundary the cleaning of a cell is
    plain trimming; cleaning a cleaned cell changes nothing. *)
Theorem clean_cell_one_line_is_strip (v : str) :
  one_line v = true ->
  clean_cell v = strip v /\ clean_cell (clean_cell v) = clean_cell v.
Proof.
  intros H. split; [now apply clean_cell_of_one_line | apply clean_cell_again].
Qed.

Lemma clean_cell_one_line_is_strip_witness :
  clean_cell (lit "  Forests 16(6) ") = strip (lit "  Forests 16(6) ") /\
  clean_cell (clean_cell (lit "  Forests 16(6) ")) = clean_cell (lit "  Forests 16(6) ").
Proof. apply clean_cell_one_line_is_strip. reflexivity. Defined.

(** X25.  The last column holds the entry type in lower case, whatever
    the case in which the entry has it. *)
Theorem convert_type_column_lower (entries : list entry) :
  Forall (fun row => exists cell, nth_error row 11 = Some cell /\ lower cell = cell)
         (tl (fst (convert_bibtex_to_csv entries))) /\
  map (fun row => nth 11 row []) (tl (fst (convert_bibtex_to_csv entries)))
    = map (fun e => lower (clean_cell (dict_get_or e ENTRYTYPE []))) entries.
Proof.
  rewrite convert_rows. cbn [fst tl]. split.
  - apply List.Forall_forall. intros row Hrow.
    apply in_map_iff in Hrow as (e & <- & _).
    eexists. split; [reflexivity|].
    now rewrite clean_cell_lower, lower_idem.
  - rewrite map_map. apply map_ext. intros e.
    cbn [csv_values map nth]. apply clean_cell_lower.
Qed.

(** X26.  Through the whole pipeline (standardize X and Y, remove from
    X the entries of Y, write the CSV): when the [doi] values of the
    standardized entries of X hold no line boundary, the second column of
    the CSV is exactly the [doi] values of the entries kept, row by row. *)
Theorem pipeline_doi_column (raw_x raw_y : list entry) :
  Forall (fun fe => one_line (entry_doi fe) = true)
         (fst (standardize_bibtex_file raw_x)) ->
  map (fun row => nth 1 row [])
      (tl (fst (convert_bibtex_to_csv
                  (fst (remove_duplicates_by_doi
                          (fst (standardize_bibtex_file raw_x))
                          (fst (standardize_bibtex_file raw_y)))))))
    = map entry_doi
          (fst (remove_duplicates_by_doi
                  (fst (standardize_bibtex_file raw_x))
                  (fst (standardize_bibtex_file raw_y)))).
Proof.
  intros H.
  rewrite convert_rows. cbn [fst tl]. rewrite map_map.
  apply map_ext_in. intros fe Hkept.
  assert (Hin : In fe (fst (standardize_bibtex_file raw_x))).
  { apply (sublist_in _ _ _ (first_by_id_sublist ∅ _)).
    rewrite remove_duplicates_entries in Hkept.
    apply filter_In in Hkept as [Hkept _]. exact Hkept. }
  rewrite List.Forall_forall in H. specialize (H fe Hin).
  cbn [csv_values map nth].
  unfold dict_get_or. rewrite (standardized_entry_doi raw_x fe Hin).
  cbn [default from_option Datatypes.id].
  rewrite clean_cell_of_one_line by exact H.
  unfold entry_doi. apply strip_idem.
Qed.

Lemma pipeline_doi_column_witness :
  map (fun row => nth 1 row [])
      (tl (fst (convert_bibtex_to_csv
                  (fst (remove_duplicates_by_doi
                          (fst (standardize_bibtex_file [sample_mdpi; sample_multiline]))
                          (fst (standardize_bibtex_file [sample_multiline])))))))
    = map entry_doi
          (fst (remove_duplicates_by_doi
                  (fst (standardize_bibtex_file [sample_mdpi; sample_multiline]))
                  (fst (standardize_bibtex_file [sample_multiline])))).
Proof.
  apply pipeline_doi_column. vm_compute. repeat constructor.
Defined.

(* ================================================================== *)
(** * Text of arbitrary code points: characters *)
(* ================================================================== *)

Section AnyCharacters.

Import Unicode.

Lemma in_ranges_range table c :
  in_ranges table c = true -> In c (flat_map range table).
Proof.
  unfold in_ranges. rewrite existsb_exists. intros ([lo hi] & Hr & Hc).
  apply in_flat_map. exists (lo, hi). split; [exact Hr|].
  cbn [fst snd] in *. apply andb_prop in Hc as [H1 H2].
  apply N.leb_le in H1, H2. unfold range. cbn [fst snd].
  apply in_map_iff. exists (N.to_nat (c - lo)). split.
  - rewrite N2Nat.id. lia.
  - apply in_seq. lia.
Qed.

Lemma in_run_chars c r : in_run c r = true -> In c (run_chars r).
Proof.
  destruct r as [[[lo hi] step] target]. unfold in_run, run_chars.
  intros H. apply andb_prop in H as [H H3]. apply andb_prop in H as [H1 H2].
  apply N.leb_le in H1, H2. apply N.eqb_eq in H3.
  apply in_map_iff. exists (N.to_nat ((c - lo) / step)). split.
  - rewrite N2Nat.id.
    pose proof (N.Div0.div_mod (c - lo) step) as Hd. rewrite H3 in Hd.
    revert Hd. generalize (step * ((c - lo) / step))%N. lia.
  - apply in_seq.
    assert (H : ((c - lo) / step <= (hi - lo) / step)%N)
      by (apply N.Div0.div_le_mono; lia).
    revert H. generalize ((c - lo) / step)%N ((hi - lo) / step)%N. lia.
Qed.

(** [tolower] takes a character of a run to its image, and leaves a
    character outside the runs alone. *)
Lemma tolower_cases c :
  (exists r, In r lowercase_runs /\ in_run c r = true /\ tolower c = run_image r c) \/
  (existsb (in_run c) lowercase_runs = false /\ tolower c = c).
Proof.
  unfold tolower. destruct (find (in_run c) lowercase_runs) as [r|] eqn:E.
  - left. apply find_some in E as [Hin Hr]. exists r.
    destruct r as [[[lo hi] step] target]. auto.
  - right. split; [|reflexivity].
    destruct (existsb (in_run c) lowercase_runs) eqn:Ex; [|reflexivity].
    apply existsb_exists in Ex as (r & Hin & Hr).
    now rewrite (find_none _ _ E r Hin) in Hr.
Qed.

(** A property of [c] and [tolower c] that holds when [c] is its own
    lower case holds for every character once it is checked on the
    characters of the runs. *)
Lemma tolower_ind (P : N -> N -> bool) c :
  forallb (fun r => forallb (fun c => P c (run_image r c)) (run_chars r))
          lowercase_runs = true ->
  (existsb (in_run c) lowercase_runs = false -> P c c = true) ->
  P c (tolower c) = true.
Proof.
  intros Hruns Hself.
  destruct (tolower_cases c) as [(r & Hin & Hr & ->) | [Hno ->]].
  - rewrite forallb_forall in Hruns. specialize (Hruns r Hin).
    rewrite forallb_forall in Hruns. apply Hruns. now apply in_run_chars.
  - now apply Hself.
Qed.

Lemma same_class_refl c : same_class c c = true.
Proof.
  unfold same_class. rewrite !eqb_reflx. cbn [forallb andb].
  now rewrite !eqb_reflx.
Qed.

Lemma tolower_same_class c : same_class c (tolower c) = true.
Proof.
  apply tolower_ind; [vm_compute; reflexivity|].
  intros _. apply same_class_refl.
Qed.

Lemma same_class_spec c x :
  same_class c x = true ->
  isdecimal x = isdecimal c /\ doi_char x = doi_char c /\
  (forall l, In l (lit "10./") -> (x =? l)%N = (c =? l)%N).
Proof.
  unfold same_class. intros H.
  apply andb_prop in H as [H H3]. apply andb_prop in H as [H1 H2].
  apply eqb_prop in H1, H2. repeat split; [congruence | congruence |].
  rewrite forallb_forall in H3. intros l Hl.
  symmetry. apply eqb_prop. apply H3.
  cbn in Hl. cbn. intuition.
Qed.

Lemma doi_char_elements c :
  doi_char c = true ->
  In c (flat_map range [(65, 90); (97, 122); (48, 57)]%N ++ lit "-._;()/:"
        ++ [304; 305; 383; 8490]%N).
Proof.
  unfold doi_char. intros H.
  apply orb_prop in H as [H|H]; [apply orb_prop in H as [H|H]|].
  - apply in_or_app. left. now apply in_ranges_range.
  - apply in_or_app. right. apply in_or_app. left.
    apply existsb_exists in H as (x & Hx & E). apply N.eqb_eq in E. now subst.
  - apply in_or_app. right. apply in_or_app. right.
    apply existsb_exists in H as (x & Hx & E). apply N.eqb_eq in E. now subst.
Qed.

(** The set of the pattern, case ignored, is [doi_char]. *)
Lemma u_ignorecase_doi_set c : ignorecase doi_set c = doi_char c.
Proof.
  apply eqb_prop. unfold ignorecase.
  apply (tolower_ind
           (fun c x => eqb (existsb (N.eqb x) (charmap doi_set)) (doi_char c)));
    [vm_compute; reflexivity|].
  intros Hno.
  destruct (existsb (N.eqb c) (charmap doi_set)) eqn:E1;
    destruct (doi_char c) eqn:E2; try reflexivity; exfalso.
  - apply existsb_exists in E1 as (x & Hx & E). apply N.eqb_eq in E. subst x.
    assert (Hall : forallb (fun x => doi_char x || existsb (in_run x) lowercase_runs)
                     (charmap doi_set) = true) by (vm_compute; reflexivity).
    rewrite forallb_forall in Hall. specialize (Hall c Hx).
    rewrite E2, Hno in Hall. discriminate.
  - apply doi_char_elements in E2.
    assert (Hall : forallb (fun x => existsb (N.eqb x) (charmap doi_set)
                                     || existsb (in_run x) lowercase_runs)
                     (flat_map range [(65, 90); (97, 122); (48, 57)]%N
                      ++ lit "-._;()/:" ++ [304; 305; 383; 8490]%N) = true)
      by (vm_compute; reflexivity).
    rewrite forallb_forall in Hall. specialize (Hall c E2).
    rewrite E1, Hno in Hall. discriminate.
Qed.

(** No character of a DOI is white space. *)
Lemma doi_char_not_space_u c : doi_char c = true -> isspace c = false.
Proof.
  intros H. apply doi_char_elements in H.
  assert (Hall : forallb (fun x => negb (isspace x))
                   (flat_map range [(65, 90); (97, 122); (48, 57)]%N
                    ++ lit "-._;()/:" ++ [304; 305; 383; 8490]%N) = true)
    by (vm_compute; reflexivity).
  rewrite forallb_forall in Hall. apply negb_true_iff. now apply Hall.
Qed.

End AnyCharacters.

(* ================================================================== *)
(** * Text of arbitrary code points: [strip] and the matcher *)
(* ================================================================== *)

Section AnyText.

Import Unicode.

Lemma u_lstrip_suffix s : exists sp, s = sp ++ lstrip s.
Proof.
  induction s as [|c s [sp IH]]; [now exists []|].
  cbn [lstrip]. destruct (isspace c).
  - exists (c :: sp). cbn [app]. now rewrite <- IH.
  - now exists [].
Qed.

Lemma u_rstrip_prefix s : exists sp, s = rstrip s ++ sp.
Proof.
  unfold rstrip. destruct (u_lstrip_suffix (rev s)) as [sp H].
  exists (rev sp).
  rewrite <- rev_app_distr, <- H. symmetry. apply rev_involutive.
Qed.

Lemma u_strip_infix s : exists l r, s = l ++ strip s ++ r.
Proof.
  destruct (u_lstrip_suffix s) as [l Hl].
  destruct (u_rstrip_prefix (lstrip s)) as [r Hr].
  exists l, r. unfold strip. now rewrite <- Hr.
Qed.

Lemma u_lstrip_app_keep a c b :
  isspace c = false -> lstrip (a ++ c :: b) = lstrip a ++ c :: b.
Proof.
  intros Hc. induction a as [|x a IH]; cbn [app lstrip].
  - now rewrite Hc.
  - destruct (isspace x); [exact IH | reflexivity].
Qed.

Lemma u_rstrip_app_keep a c b :
  isspace c = false -> rstrip (a ++ c :: b) = a ++ c :: rstrip b.
Proof.
  intros Hc. unfold rstrip.
  rewrite rev_app_distr. cbn [rev]. rewrite <- app_assoc. cbn [app].
  rewrite u_lstrip_app_keep by exact Hc.
  rewrite rev_app_distr. cbn [rev]. rewrite rev_involutive.
  now rewrite <- app_assoc.
Qed.

Lemma u_span_all_le p s : span_all p s <= length s.
Proof.
  induction s as [|c s IH]; cbn; [lia|]. destruct (p c); cbn; lia.
Qed.

Lemma u_span_all_firstn p s j :
  j <= span_all p s -> forallb p (firstn j s) = true.
Proof.
  revert j. induction s as [|c s IH]; intros j Hj.
  - now destruct j.
  - destruct j as [|j]; [reflexivity|]. cbn in *.
    destruct (p c); [|lia]. cbn. apply IH. lia.
Qed.

Lemma u_span_all_app p a b :
  forallb p a = true -> span_all p (a ++ b) = length a + span_all p b.
Proof.
  induction a as [|c a IH]; intros H; [reflexivity|].
  cbn in *. apply andb_prop in H as [Hc Ha]. rewrite Hc. now rewrite IH.
Qed.

Lemma u_span_all_ext p q s :
  (forall c, p c = q c) -> span_all p s = span_all q s.
Proof.
  intros H. induction s as [|c s IH]; [reflexivity|].
  cbn. rewrite H, IH. reflexivity.
Qed.

Lemma u_span_le p limit s : span p limit s <= span_all p s.
Proof. destruct limit; cbn; lia. Qed.

Lemma u_backtrack_first k s lo n m :
  lo <= n -> k (skipn n s) = Some m -> backtrack k s lo n = Some (n + m).
Proof.
  intros Hlo Hk.
  destruct n; cbn [backtrack].
  - destruct (Nat.ltb_spec 0 lo); [lia|]. now rewrite Hk.
  - destruct (Nat.ltb_spec (S n) lo); [lia|]. now rewrite Hk.
Qed.

Lemma u_backtrack_sound k s lo n t :
  backtrack k s lo n = Some t ->
  exists j m, lo <= j <= n /\ k (skipn j s) = Some m /\ t = j + m.
Proof.
  induction n as [|n IH]; cbn [backtrack].
  - destruct (Nat.ltb_spec 0 lo); [discriminate|].
    destruct (k (skipn 0 s)) as [m|] eqn:E; [|discriminate].
    intros [= <-]. exists 0, m. repeat split; auto; lia.
  - destruct (Nat.ltb_spec (S n) lo); [discriminate|].
    destruct (k (skipn (S n) s)) as [m|] eqn:E.
    + intros [= <-]. exists (S n), m. repeat split; auto; lia.
    + intros H'. destruct (IH H') as (j & m & Hj & Hk & ->).
      exists j, m. repeat split; auto; lia.
Qed.

Lemma u_match_here_le r s n : match_here r s = Some n -> n <= length s.
Proof.
  revert s n. induction r as [|a r IH]; intros s n; cbn [match_here].
  - intros [= <-]. lia.
  - intros H. apply u_backtrack_sound in H as (j & m & Hj & Hk & ->).
    apply IH in Hk. rewrite length_skipn in Hk.
    pose proof (u_span_le (cls a) (rmax a) s).
    pose proof (u_span_all_le (cls a) s). lia.
Qed.

Lemma u_match_here_cons a r s :
  match_here (a :: r) s =
  backtrack (match_here r) s (rmin a) (span (cls a) (rmax a) s).
Proof. reflexivity. Qed.

Lemma u_match_here_chr c r s :
  match_here (chr c :: r) s =
  match s with
  | x :: s' => if (c =? x)%N then option_map S (match_here r s') else None
  | [] => None
  end.
Proof.
  rewrite u_match_here_cons. cbn [chr rmin rmax cls span].
  destruct s as [|x s]; [reflexivity|]. cbn [span_all].
  destruct (c =? x)%N; [|reflexivity].
  rewrite (Nat.min_l 1) by lia.
  cbn [backtrack Nat.ltb Nat.leb skipn].
  change (skipn 0 s) with s.
  now destruct (match_here r s).
Qed.

Lemma u_match_here_last p lo s :
  match_here [Atom p lo None] s =
  if span_all p s <? lo then None else Some (span_all p s).
Proof.
  rewrite u_match_here_cons. cbn [rmin rmax cls span match_here].
  destruct (span_all p s) as [|u]; cbn [backtrack].
  - destruct (Nat.ltb_spec 0 lo); auto.
  - now destruct (Nat.ltb_spec (S u) lo); rewrite ?Nat.add_0_r.
Qed.

Lemma u_re_search_sound r s m :
  re_search r s = Some m ->
  exists a b, s = a ++ m ++ b /\ match_here r (m ++ b) = Some (length m).
Proof.
  induction s as [|c s IH]; cbn [re_search].
  - destruct (match_here r []) as [n|] eqn:E; [|discriminate].
    intros [= <-]. exists [], []. pose proof (u_match_here_le _ _ _ E) as Hn.
    cbn in Hn. assert (n = 0) as -> by lia. now cbn.
  - destruct (match_here r (c :: s)) as [n|] eqn:E.
    + intros [= <-]. exists [], (skipn n (c :: s)).
      pose proof (u_match_here_le _ _ _ E).
      rewrite firstn_skipn, length_firstn. split; [reflexivity|].
      rewrite E. f_equal. lia.
    + intros H. destruct (IH H) as (a & b & -> & Hm).
      exists (c :: a), b. auto.
Qed.

Lemma u_re_search_leftmost r pre s n :
  (forall a b, pre = a ++ b -> b <> [] -> match_here r (b ++ s) = None) ->
  match_here r s = Some n ->
  re_search r (pre ++ s) = Some (firstn n s).
Proof.
  intros Hpre Hs. induction pre as [|c pre IH].
  - cbn [app]. destruct s; cbn [re_search]; now rewrite Hs.
  - cbn [app re_search].
    pose proof (Hpre [] (c :: pre) eq_refl ltac:(discriminate)) as Hc.
    cbn [app] in Hc. rewrite Hc.
    apply IH. intros a b -> Hb. apply (Hpre (c :: a) b); auto.
Qed.

Lemma u_re_search_complete r pre s n :
  match_here r s = Some n -> exists m, re_search r (pre ++ s) = Some m.
Proof.
  intros Hs. induction pre as [|c pre IH].
  - exists (firstn n s). cbn [app]. destruct s; cbn [re_search]; now rewrite Hs.
  - cbn [app re_search].
    destruct (match_here r (c :: pre ++ s)); eauto.
Qed.

Lemma u_doi_shape_length m : doi_shape m -> 9 <= length m.
Proof.
  intros (ds & run & -> & Hlen & _ & Hrun & _).
  rewrite !length_app. cbn [length lit list_ascii_of_string map].
  destruct run; [congruence|]. cbn [length]. lia.
Qed.

(** At the start of a string that begins with a DOI the matcher takes
    the DOI and as much of what follows as continues its run. *)
Lemma u_match_doi_complete m q :
  doi_shape m ->
  match_here doi_pattern (m ++ q) = Some (length m + span_all doi_char q).
Proof.
  intros (ds & run & -> & Hlen & Hds & Hrun & Hrc).
  unfold doi_pattern. change (lit "10.") with [49; 48; 46]%N.
  rewrite <- !app_assoc. cbn [app].
  rewrite !u_match_here_chr, !N.eqb_refl.
  rewrite u_match_here_cons. cbn [rmin rmax cls span].
  rewrite u_span_all_app by exact Hds. cbn [span_all].
  change (isdecimal 47) with false.
  rewrite Nat.add_0_r, Nat.min_r by lia.
  rewrite (u_backtrack_first _ _ _ _ (S (length run + span_all doi_char q))).
  - cbn [option_map length]. f_equal. rewrite length_app. cbn [length]. lia.
  - lia.
  - rewrite drop_app_length, u_match_here_chr, N.eqb_refl.
    rewrite u_match_here_last.
    rewrite (u_span_all_ext _ doi_char) by apply u_ignorecase_doi_set.
    rewrite u_span_all_app by exact Hrc.
    destruct run; [congruence|]. cbn [length].
    destruct (Nat.ltb_spec (S (length run) + span_all doi_char q) 1); [lia|].
    reflexivity.
Qed.

(** Whatever the matcher takes has the shape of a DOI. *)
Lemma u_match_doi_sound s n :
  match_here doi_pattern s = Some n -> doi_shape (firstn n s).
Proof.
  unfold doi_pattern. rewrite u_match_here_chr.
  destruct s as [|x1 s]; [discriminate|].
  destruct (N.eqb_spec 49 x1) as [<-|]; [|discriminate].
  rewrite u_match_here_chr.
  destruct s as [|x2 s]; [discriminate|].
  destruct (N.eqb_spec 48 x2) as [<-|]; [|discriminate].
  rewrite u_match_here_chr.
  destruct s as [|x3 s]; [discriminate|].
  destruct (N.eqb_spec 46 x3) as [<-|]; [|discriminate].
  rewrite u_match_here_cons. cbn [rmin rmax cls span].
  destruct (backtrack _ s 4 _) as [t|] eqn:Hb; [|discriminate].
  cbn [option_map]. intros [= <-].
  apply u_backtrack_sound in Hb as (j & m & Hj & Hk & ->).
  rewrite u_match_here_chr in Hk.
  destruct (skipn j s) as [|x5 s5] eqn:Hs5; [discriminate|].
  destruct (N.eqb_spec 47 x5) as [<-|]; [|discriminate].
  rewrite u_match_here_last in Hk.
  rewrite (u_span_all_ext _ doi_char) in Hk by apply u_ignorecase_doi_set.
  destruct (Nat.ltb_spec (span_all doi_char s5) 1) as [|Hu]; [discriminate|].
  cbn [option_map] in Hk. injection Hk as <-.
  pose proof (u_span_all_le isdecimal s) as Hle.
  assert (Hjs : j <= span_all isdecimal s) by lia.
  exists (firstn j s), (firstn (span_all doi_char s5) s5).
  assert (Hlj : length (firstn j s) = j) by (rewrite length_firstn; lia).
  repeat split.
  - cbn [firstn]. change (lit "10.") with [49; 48; 46]%N.
    cbn [app]. do 3 f_equal.
    rewrite <- (firstn_skipn j s) at 1. rewrite Hs5.
    rewrite firstn_app, Hlj.
    replace (j + S (span_all doi_char s5) - j) with (S (span_all doi_char s5)) by lia.
    rewrite firstn_firstn. rewrite Nat.min_r by lia. reflexivity.
  - lia.
  - lia.
  - now apply u_span_all_firstn.
  - pose proof (u_span_all_le doi_char s5).
    intros Hnil. apply (f_equal (@length _)) in Hnil.
    rewrite length_firstn in Hnil. cbn in Hnil. lia.
  - now apply u_span_all_firstn.
Qed.

Lemma u_re_search_doi_shape s m :
  re_search doi_pattern s = Some m ->
  doi_shape m /\ exists a b, s = a ++ m ++ b.
Proof.
  intros H. apply u_re_search_sound in H as (a & b & -> & Hm).
  apply u_match_doi_sound in Hm. rewrite firstn_app, Nat.sub_diag in Hm.
  rewrite firstn_all in Hm. cbn in Hm. rewrite app_nil_r in Hm. eauto.
Qed.

(** The search finds something exactly when a DOI occurs in the text. *)
Lemma u_re_search_contains s :
  contains_doi s <-> exists m, re_search doi_pattern s = Some m.
Proof.
  split.
  - intros (pre & m & post & -> & Hm).
    eapply u_re_search_complete. now apply u_match_doi_complete.
  - intros (m & H). apply u_re_search_doi_shape in H as (Hm & a & b & ->).
    now exists a, m, b.
Qed.

Lemma u_re_search_none s :
  re_search doi_pattern s = None <-> ~ contains_doi s.
Proof.
  rewrite u_re_search_contains. split.
  - intros -> (m & [=]).
  - intros H. destruct (re_search doi_pattern s) eqn:E; [|reflexivity].
    exfalso. eauto.
Qed.

(** A match that nothing precedes and nothing continues is the one the
    search returns. *)
Lemma u_re_search_exact pre m post :
  doi_shape m ->
  no_earlier_match pre (m ++ post) ->
  run_ends post ->
  re_search doi_pattern (pre ++ m ++ post) = Some m.
Proof.
  intros Hm Hpre Hpost.
  rewrite (u_re_search_leftmost _ _ _ (length m)).
  - now rewrite firstn_app, Nat.sub_diag, firstn_all, app_nil_r.
  - intros a b Hab Hb.
    destruct (match_here doi_pattern (b ++ m ++ post)) as [k|] eqn:E; [|reflexivity].
    exfalso. apply (Hpre a b Hab Hb).
    exists (firstn k (b ++ m ++ post)), (skipn k (b ++ m ++ post)). split.
    + now apply u_match_doi_sound.
    + symmetry. apply firstn_skipn.
  - rewrite u_match_doi_complete by exact Hm.
    destruct post as [|c post]; [now rewrite Nat.add_0_r|].
    cbn in Hpost. cbn [span_all]. rewrite Hpost. now rewrite Nat.add_0_r.
Qed.

End AnyText.

(* ================================================================== *)
(** * Text of arbitrary code points: [lower] *)
(* ================================================================== *)

Section AnyLower.

Import Unicode.

(** What [lower] makes of a text is the text with every character
    replaced by one of the same class, capital I with dot above apart. *)
Lemma lower_char_lowered before after c s t :
  lowered s t -> lowered (c :: s) (lower_char before after c ++ t).
Proof.
  intros H. unfold lower_char.
  destruct (N.eqb_spec c 931) as [->|_].
  - destruct (final_sigma before after); cbn [app];
      (apply lowered_char; [vm_compute; reflexivity | exact H]).
  - destruct (N.eqb_spec c 304) as [->|_]; cbn [app].
    + now apply lowered_dotted.
    + apply lowered_char; [apply tolower_same_class | exact H].
Qed.

Lemma lower_from_lowered before s : lowered s (lower_from before s).
Proof.
  revert before. induction s as [|c s IH]; intros before; cbn [lower_from].
  - constructor.
  - apply lower_char_lowered, IH.
Qed.

Lemma lower_from_app before a b :
  exists x, lower_from before (a ++ b) = x ++ lower_from (rev a ++ before) b /\
            lowered a x.
Proof.
  revert before. induction a as [|c a IH]; intros before.
  - exists []. split; [reflexivity | constructor].
  - cbn [app lower_from rev].
    destruct (IH (c :: before)) as (x & E & Hx).
    exists (lower_char before (a ++ b) c ++ x). split.
    + rewrite E, <- !app_assoc. reflexivity.
    + now apply lower_char_lowered.
Qed.

(** Where neither capital sigma nor capital I with dot above occurs,
    [lower] works character by character. *)
Lemma lower_from_plain before m b :
  ~ In 931%N m -> ~ In 304%N m ->
  lower_from before (m ++ b) = map tolower m ++ lower_from (rev m ++ before) b.
Proof.
  revert before. induction m as [|c m IH]; intros before Hs Hd; [reflexivity|].
  cbn [app lower_from rev map].
  rewrite IH; [| intros H; apply Hs; now right | intros H; apply Hd; now right].
  unfold lower_char.
  destruct (N.eqb_spec c 931) as [->|_]; [exfalso; apply Hs; now left|].
  destruct (N.eqb_spec c 304) as [->|_]; [exfalso; apply Hd; now left|].
  rewrite <- !app_assoc. reflexivity.
Qed.

Lemma lower_plain m :
  ~ In 931%N m -> ~ In 304%N m -> lower m = map tolower m.
Proof.
  intros Hs Hd. unfold lower.
  rewrite <- (app_nil_r m) at 1. rewrite lower_from_plain by assumption.
  cbn [lower_from]. apply app_nil_r.
Qed.

Lemma lowered_app s1 t1 s2 t2 :
  lowered s1 t1 -> lowered s2 t2 -> lowered (s1 ++ s2) (t1 ++ t2).
Proof.
  induction 1 as [|c x s t Hc H IH|s t H IH]; intros H2; cbn [app].
  - exact H2.
  - apply lowered_char; auto.
  - apply lowered_dotted; auto.
Qed.

Lemma lowered_literal_back l s t :
  In l [49; 48; 46; 47]%N -> lowered s (l :: t) ->
  exists s', s = l :: s' /\ lowered s' t.
Proof.
  intros Hl H. inversion H as [|c x s' t' Hc Hs|s' t' Hs]; subst.
  - apply same_class_spec in Hc as (_ & _ & Hlit).
    specialize (Hlit l Hl). rewrite N.eqb_refl in Hlit.
    symmetry in Hlit. apply N.eqb_eq in Hlit. subst. eauto.
  - exfalso. cbn in Hl. intuition discriminate.
Qed.

Lemma lowered_literal_forth l s t :
  In l [49; 48; 46; 47]%N -> lowered (l :: s) t ->
  exists t', t = l :: t' /\ lowered s t'.
Proof.
  intros Hl H. inversion H as [|c x s' t' Hc Hs|s' t' Hs]; subst.
  - apply same_class_spec in Hc as (_ & _ & Hlit).
    specialize (Hlit l Hl). rewrite N.eqb_refl in Hlit.
    apply N.eqb_eq in Hlit. subst. eauto.
  - exfalso. cbn in Hl. intuition discriminate.
Qed.

Lemma lowered_digits_back ds s t :
  forallb isdecimal ds = true -> lowered s (ds ++ t) ->
  exists ds0 s', s = ds0 ++ s' /\ length ds0 = length ds /\
                 forallb isdecimal ds0 = true /\ lowered s' t.
Proof.
  revert s. induction ds as [|d ds IH]; intros s Hds H.
  - exists [], s. auto.
  - cbn [forallb] in Hds. apply andb_prop in Hds as [Hd Hds].
    cbn [app] in H. inversion H as [|c x s' t' Hc Hs|s' t' Hs]; subst.
    + apply same_class_spec in Hc as (Hc & _ & _).
      destruct (IH _ Hds Hs) as (ds0 & s0 & -> & Hlen & Hds0 & H0).
      exists (c :: ds0), s0. cbn [app length forallb].
      rewrite Hds0, <- Hc, Hd, Hlen. auto.
    + vm_compute in Hd. discriminate.
Qed.

Lemma lowered_digits_forth ds s t :
  forallb isdecimal ds = true -> lowered (ds ++ s) t ->
  exists ds0 t', t = ds0 ++ t' /\ length ds0 = length ds /\
                 forallb isdecimal ds0 = true /\ lowered s t'.
Proof.
  revert t. induction ds as [|d ds IH]; intros t Hds H.
  - exists [], t. auto.
  - cbn [forallb] in Hds. apply andb_prop in Hds as [Hd Hds].
    cbn [app] in H. inversion H as [|c x s' t' Hc Hs|s' t' Hs]; subst.
    + apply same_class_spec in Hc as (Hc & _ & _).
      destruct (IH _ Hds Hs) as (ds0 & t0 & -> & Hlen & Hds0 & H0).
      exists (x :: ds0), t0. cbn [app length forallb].
      rewrite Hds0, Hc, Hd, Hlen. auto.
    + vm_compute in Hd. discriminate.
Qed.

Lemma lowered_run_back x s t :
  doi_char x = true -> lowered s (x :: t) ->
  exists c s', s = c :: s' /\ doi_char c = true.
Proof.
  intros Hx H. inversion H as [|c x' s' t' Hc Hs|s' t' Hs]; subst.
  - apply same_class_spec in Hc as (_ & Hc & _). exists c, s'. split; congruence.
  - exists 304%N, s'. split; reflexivity.
Qed.

Lemma lowered_run_forth c s t :
  doi_char c = true -> lowered (c :: s) t ->
  exists x t', t = x :: t' /\ doi_char x = true.
Proof.
  intros Hx H. inversion H as [|c' x s' t' Hc Hs|s' t' Hs]; subst.
  - apply same_class_spec in Hc as (_ & Hc & _). exists x, t'. split; congruence.
  - exists 105%N, (775%N :: t'). split; reflexivity.
Qed.

(** A DOI at the start of the lowered text comes from one at the start
    of the text, and the other way round. *)
Lemma lowered_starts_back s t :
  lowered s t ->
  (exists m tl, doi_shape m /\ t = m ++ tl) ->
  exists m tl, doi_shape m /\ s = m ++ tl.
Proof.
  intros H (m & tl & (ds & run & -> & Hlen & Hds & Hrun & Hrc) & ->).
  change (lit "10.") with [49; 48; 46]%N in H.
  rewrite <- !app_assoc in H. cbn [app] in H.
  apply lowered_literal_back in H as (s1 & -> & H); [|cbn; auto].
  apply lowered_literal_back in H as (s2 & -> & H); [|cbn; auto].
  apply lowered_literal_back in H as (s3 & -> & H); [|cbn; auto].
  apply lowered_digits_back in H as (ds0 & s4 & -> & Hl0 & Hd0 & H); [|exact Hds].
  apply lowered_literal_back in H as (s5 & -> & H); [|cbn; auto 6].
  destruct run as [|x run]; [congruence|].
  cbn [forallb] in Hrc. apply andb_prop in Hrc as [Hx _]. cbn [app] in H.
  apply (lowered_run_back _ _ _ Hx) in H as (c & s6 & -> & Hc).
  exists (lit "10." ++ ds0 ++ 47%N :: [c]), s6. split.
  - exists ds0, [c]. repeat split; [lia | lia | exact Hd0 | discriminate |].
    cbn [forallb]. now rewrite Hc.
  - change (lit "10.") with [49; 48; 46]%N.
    rewrite <- !app_assoc. reflexivity.
Qed.

Lemma lowered_starts_forth s t :
  lowered s t ->
  (exists m tl, doi_shape m /\ s = m ++ tl) ->
  exists m tl, doi_shape m /\ t = m ++ tl.
Proof.
  intros H (m & tl & (ds & run & -> & Hlen & Hds & Hrun & Hrc) & ->).
  change (lit "10.") with [49; 48; 46]%N in H.
  rewrite <- !app_assoc in H. cbn [app] in H.
  apply lowered_literal_forth in H as (s1 & -> & H); [|cbn; auto].
  apply lowered_literal_forth in H as (s2 & -> & H); [|cbn; auto].
  apply lowered_literal_forth in H as (s3 & -> & H); [|cbn; auto].
  apply lowered_digits_forth in H as (ds0 & s4 & -> & Hl0 & Hd0 & H); [|exact Hds].
  apply lowered_literal_forth in H as (s5 & -> & H); [|cbn; auto 6].
  destruct run as [|x run]; [congruence|].
  cbn [forallb] in Hrc. apply andb_prop in Hrc as [Hx _]. cbn [app] in H.
  apply (lowered_run_forth _ _ _ Hx) in H as (c & s6 & -> & Hc).
  exists (lit "10." ++ ds0 ++ 47%N :: [c]), s6. split.
  - exists ds0, [c]. repeat split; [lia | lia | exact Hd0 | discriminate |].
    cbn [forallb]. now rewrite Hc.
  - change (lit "10.") with [49; 48; 46]%N.
    rewrite <- !app_assoc. reflexivity.
Qed.

Lemma doi_shape_first m : doi_shape m -> exists m', m = 49%N :: m'.
Proof. intros (ds & run & -> & _). eexists. reflexivity. Qed.

Lemma contains_doi_starts s :
  contains_doi s <->
  exists pre rest, s = pre ++ rest /\ exists m tl, doi_shape m /\ rest = m ++ tl.
Proof.
  split.
  - intros (pre & m & post & -> & Hm). exists pre, (m ++ post). eauto.
  - intros (pre & rest & -> & m & tl & Hm & ->). now exists pre, m, tl.
Qed.

Lemma lowered_contains_back s t :
  lowered s t -> contains_doi t -> contains_doi s.
Proof.
  intros H. rewrite !contains_doi_starts.
  intros (pre & rest & E & Hst). revert pre E.
  induction H as [|c x s t Hc H IH|s t H IH]; intros pre E.
  - destruct Hst as (m & tl & Hm & ->).
    apply u_doi_shape_length in Hm.
    apply (f_equal (@length _)) in E. rewrite !length_app in E. cbn in E. lia.
  - destruct pre as [|y pre]; cbn [app] in E.
    + subst rest. exists [], (c :: s). split; [reflexivity|].
      apply (lowered_starts_back (c :: s) (x :: t)); [now constructor | exact Hst].
    + injection E as _ E. destruct (IH pre E) as (pre0 & rest0 & -> & Hst0).
      exists (c :: pre0), rest0. auto.
  - destruct pre as [|y [|y2 pre]]; cbn [app] in E.
    + subst rest. exists [], (304%N :: s). split; [reflexivity|].
      apply (lowered_starts_back (304%N :: s) (105%N :: 775%N :: t));
        [now apply lowered_dotted | exact Hst].
    + injection E as _ E. subst rest.
      destruct Hst as (m & tl & Hm & E). apply doi_shape_first in Hm as [m' ->].
      discriminate.
    + injection E as _ _ E. destruct (IH pre E) as (pre0 & rest0 & -> & Hst0).
      exists (304%N :: pre0), rest0. auto.
Qed.

Lemma lowered_contains_forth s t :
  lowered s t -> contains_doi s -> contains_doi t.
Proof.
  intros H. rewrite !contains_doi_starts.
  intros (pre & rest & E & Hst). revert pre E.
  induction H as [|c x s t Hc H IH|s t H IH]; intros pre E.
  - destruct Hst as (m & tl & Hm & ->).
    apply u_doi_shape_length in Hm.
    apply (f_equal (@length _)) in E. rewrite !length_app in E. cbn in E. lia.
  - destruct pre as [|y pre]; cbn [app] in E.
    + subst rest. exists [], (x :: t). split; [reflexivity|].
      apply (lowered_starts_forth (c :: s) (x :: t)); [now constructor | exact Hst].
    + injection E as _ E. destruct (IH pre E) as (pre0 & rest0 & -> & Hst0).
      exists (x :: pre0), rest0. auto.
  - destruct pre as [|y pre]; cbn [app] in E.
    + subst rest. exists [], (105%N :: 775%N :: t). split; [reflexivity|].
      apply (lowered_starts_forth (304%N :: s) (105%N :: 775%N :: t));
        [now apply lowered_dotted | exact Hst].
    + injection E as _ E. destruct (IH pre E) as (pre0 & rest0 & -> & Hst0).
      exists (105%N :: 775%N :: pre0), rest0. auto.
Qed.

(** A split of the lowered text before a character other than the
    combining dot comes from a split of the text. *)
Lemma lowered_split s a b :
  lowered s (a ++ b) -> (forall tl, b <> 775%N :: tl) ->
  exists s1 s2, s = s1 ++ s2 /\ lowered s1 a /\ lowered s2 b.
Proof.
  intros H Hb. remember (a ++ b) as t eqn:E. revert a E.
  induction H as [|c x s t Hc H IH|s t H IH]; intros a E.
  - destruct a; [|discriminate]. cbn [app] in E. subst b.
    exists [], []. repeat split; constructor.
  - destruct a as [|y a]; cbn [app] in E.
    + subst b. exists [], (c :: s). repeat split; now constructor.
    + injection E as <- E. destruct (IH a E) as (s1 & s2 & -> & H1 & H2).
      exists (c :: s1), s2. repeat split; [now constructor | exact H2].
  - destruct a as [|y [|y2 a]]; cbn [app] in E.
    + subst b. exists [], (304%N :: s). repeat split; [constructor | now apply lowered_dotted].
    + injection E as _ E. exfalso. now apply (Hb t).
    + injection E as <- <- E. destruct (IH a E) as (s1 & s2 & -> & H1 & H2).
      exists (304%N :: s1), s2. repeat split; [now apply lowered_dotted | exact H2].
Qed.

Lemma u_contains_doi_lower s : contains_doi (lower s) <-> contains_doi s.
Proof.
  split.
  - apply lowered_contains_back, lower_from_lowered.
  - apply lowered_contains_forth, lower_from_lowered.
Qed.

Lemma u_doi_shape_ends m :
  doi_shape m ->
  exists body z, m = 49%N :: body ++ [z] /\ doi_char z = true.
Proof.
  intros (ds & run & -> & _ & _ & Hrun & Hrc).
  destruct (exists_last Hrun) as (run0 & z & ->).
  rewrite forallb_app in Hrc. apply andb_prop in Hrc as [_ Hz].
  cbn [forallb] in Hz. rewrite andb_true_r in Hz.
  exists ([48; 46]%N ++ ds ++ 47%N :: run0), z. split; [|exact Hz].
  change (lit "10.") with [49; 48; 46]%N. cbn [app].
  do 3 f_equal. rewrite <- app_assoc. reflexivity.
Qed.

Lemma u_strip_around_doi pre m post :
  doi_shape m -> strip (pre ++ m ++ post) = lstrip pre ++ m ++ rstrip post.
Proof.
  intros H. destruct (u_doi_shape_ends _ H) as (body & z & -> & Hz).
  unfold strip. cbn [app].
  rewrite u_lstrip_app_keep by reflexivity.
  replace (lstrip pre ++ 49%N :: (body ++ [z]) ++ post)
    with ((lstrip pre ++ 49%N :: body) ++ z :: post)
    by (now rewrite <- !app_assoc).
  rewrite u_rstrip_app_keep by now apply doi_char_not_space_u.
  now rewrite <- !app_assoc.
Qed.

Lemma u_contains_doi_strip s : contains_doi (strip s) <-> contains_doi s.
Proof.
  split.
  - intros (pre & m & post & H & Hm).
    destruct (u_strip_infix s) as (l & r & Hs).
    exists (l ++ pre), m, (post ++ r). split; [|exact Hm].
    rewrite Hs at 1. rewrite H. now rewrite <- !app_assoc.
  - intros (pre & m & post & -> & Hm).
    rewrite u_strip_around_doi by exact Hm.
    now exists (lstrip pre), m, (rstrip post).
Qed.

Lemma u_run_ends_rstrip post : run_ends post -> run_ends (rstrip post).
Proof.
  destruct (u_rstrip_prefix post) as [sp H]. intros Hp.
  destruct (rstrip post) as [|c r]; [exact I|].
  rewrite H in Hp. exact Hp.
Qed.

Lemma run_ends_lower_from before post :
  run_ends post -> run_ends (lower_from before post).
Proof.
  intros Hp. pose proof (lower_from_lowered before post) as H.
  destruct post as [|c post]; [exact I|].
  cbn [run_ends] in Hp.
  remember (lower_from before (c :: post)) as t eqn:Et. clear Et.
  inversion H as [|c' x s' t' Hc Hs|s' t' Hs]; subst.
  - apply same_class_spec in Hc as (_ & Hc & _). cbn [run_ends]. congruence.
  - vm_compute in Hp. discriminate.
Qed.

(** A DOI keeps its shape when its characters are put in lower case. *)
Lemma doi_shape_tolower m : doi_shape m -> doi_shape (map tolower m).
Proof.
  assert (Hall : forall p l, (forall c, p (tolower c) = p c) ->
                             forallb p (map tolower l) = forallb p l).
  { intros p l Hp. induction l as [|c l IH]; [reflexivity|].
    cbn [map forallb]. now rewrite Hp, IH. }
  assert (Hcls : forall c, isdecimal (tolower c) = isdecimal c /\
                           doi_char (tolower c) = doi_char c).
  { intros c. destruct (same_class_spec _ _ (tolower_same_class c)) as (H1 & H2 & _).
    auto. }
  intros (ds & run & -> & Hlen & Hds & Hrun & Hrc).
  exists (map tolower ds), (map tolower run). repeat split.
  - rewrite !map_app. reflexivity.
  - rewrite length_map. lia.
  - rewrite length_map. lia.
  - rewrite Hall; [exact Hds | apply Hcls].
  - intros H. apply map_eq_nil in H. contradiction.
  - rewrite Hall; [exact Hrc | apply Hcls].
Qed.

Lemma doi_shape_no_sigma m : doi_shape m -> ~ In 931%N m.
Proof.
  intros (ds & run & -> & _ & Hds & _ & Hrc) H.
  rewrite !in_app_iff in H. destruct H as [H | [H | H]].
  - cbn in H. intuition discriminate.
  - rewrite forallb_forall in Hds. apply Hds in H. vm_compute in H. discriminate.
  - destruct H as [H|H]; [discriminate|].
    rewrite forallb_forall in Hrc. apply Hrc in H. vm_compute in H. discriminate.
Qed.

Lemma u_no_match_in_spec pre rest :
  no_match_in pre rest = true -> no_earlier_match pre rest.
Proof.
  induction pre as [|c pre IH]; intros H a b Hab Hb.
  - now destruct a, b.
  - cbn [no_match_in] in H.
    destruct (match_here doi_pattern ((c :: pre) ++ rest)) eqn:E; [discriminate|].
    destruct a as [|x a]; cbn [app] in Hab.
    + subst b. intros (m' & tl & Hm' & Heq).
      rewrite Heq, u_match_doi_complete in E by exact Hm'. discriminate.
    + injection Hab as _ Hab. now apply (IH H a b).
Qed.

Lemma u_normalize_doi_some s :
  s <> [] ->
  normalize_doi (Some s) =
  match re_search doi_pattern (lower (strip s)) with
  | Some group1 => (group1, [])
  | None => (lower (strip s), [DoiNotStandard (lower (strip s))])
  end.
Proof. destruct s; [congruence | reflexivity]. Qed.

(** The search in the cleaned text, from a DOI in the text itself. *)
Lemma re_search_cleaned pre m post :
  doi_shape m ->
  ~ In 304%N m ->
  no_earlier_match pre (m ++ post) ->
  run_ends post ->
  re_search doi_pattern (lower (strip (pre ++ m ++ post))) = Some (lower m).
Proof.
  intros Hm Hdot Hpre Hpost.
  pose proof (doi_shape_no_sigma _ Hm) as Hsig.
  rewrite u_strip_around_doi by exact Hm.
  rewrite (lower_plain m) by assumption.
  unfold lower.
  destruct (lower_from_app [] (lstrip pre) (m ++ rstrip post)) as (x & -> & Hx).
  pose proof (lower_from_lowered (rev (lstrip pre) ++ []) (m ++ rstrip post)) as Hrest.
  rewrite lower_from_plain in Hrest |- * by assumption.
  apply u_re_search_exact.
  - now apply doi_shape_tolower.
  - intros a b Hab Hb (m' & tl & Hm' & Heq).
    assert (Hb775 : forall tl', b <> 775%N :: tl').
    { intros tl' ->. apply doi_shape_first in Hm' as [m'' ->]. discriminate. }
    rewrite Hab in Hx.
    destruct (lowered_split _ _ _ Hx Hb775) as (s1 & s2 & Hs & H1 & H2).
    assert (Hs2 : s2 <> []).
    { intros ->. inversion H2. now subst. }
    destruct (lowered_starts_back _ _ (lowered_app _ _ _ _ H2 Hrest))
      as (m0 & tl0 & Hm0 & E0); [now exists m', tl|].
    destruct (u_lstrip_suffix pre) as [sp Hsp].
    destruct (u_rstrip_prefix post) as [sp' Hsp'].
    apply (Hpre (sp ++ s1) s2).
    + rewrite Hsp at 1. rewrite Hs. now rewrite <- app_assoc.
    + exact Hs2.
    + exists m0, (tl0 ++ sp'). split; [exact Hm0|].
      rewrite Hsp' at 1. rewrite !app_assoc. rewrite <- (app_assoc s2).
      rewrite E0. now rewrite <- !app_assoc.
  - now apply run_ends_lower_from, u_run_ends_rstrip.
Qed.

End AnyLower.

(** ** Claims about [normalize_doi] on any text *)

(** C7, as the code has it.  For every string, of whatever characters,
    in which no substring has the shape of a DOI as the pattern takes it,
    [normalize_doi] returns the trimmed, lower-cased input, and when the
    string is not empty it logs one warning that names this value; for
    the empty string and for the absent input [None] it returns the empty
    string, and logs nothing. *)
Theorem normalize_doi_no_match (s : Unicode.str) :
  ~ Unicode.contains_doi s ->
  fst (Unicode.normalize_doi (Some s)) = Unicode.lower (Unicode.strip s) /\
  (s <> [] ->
   snd (Unicode.normalize_doi (Some s))
     = [Unicode.DoiNotStandard (Unicode.lower (Unicode.strip s))]) /\
  Unicode.normalize_doi (Some []) = ([], []) /\
  Unicode.normalize_doi None = ([], []).
Proof.
  intros Hno.
  assert (Hnone : Unicode.re_search Unicode.doi_pattern
                    (Unicode.lower (Unicode.strip s)) = None).
  { apply u_re_search_none. intros H. apply Hno.
    now apply u_contains_doi_strip, u_contains_doi_lower. }
  split; [|split; [|split; reflexivity]].
  - destruct s as [|c s]; [reflexivity|].
    rewrite u_normalize_doi_some by discriminate. now rewrite Hnone.
  - intros Hs. rewrite u_normalize_doi_some by exact Hs. now rewrite Hnone.
Qed.

Lemma normalize_doi_no_match_witness :
  fst (Unicode.normalize_doi (Some (Unicode.lit "  Not a DOI ")))
    = Unicode.lit "not a doi" /\
  snd (Unicode.normalize_doi (Some (Unicode.lit "  Not a DOI ")))
    = [Unicode.DoiNotStandard (Unicode.lit "not a doi")] /\
  Unicode.normalize_doi (Some []) = ([], []) /\
  Unicode.normalize_doi None = ([], []).
Proof.
  destruct (normalize_doi_no_match (Unicode.lit "  Not a DOI ")) as (H1 & H2 & H3 & H4).
  - apply u_re_search_none. vm_compute. reflexivity.
  - split; [exact H1|]. split; [|split; assumption].
    apply H2. discriminate.
Defined.

(** C7, as stated, fails when the digits are read as the ASCII digits:
    the text has no substring of that form, yet the pattern matches the
    Arabic-Indic digits, the match is returned and nothing is logged. *)
Lemma normalize_doi_other_digits_match :
  (forall pre m post, Unicode.sample_arabic_digits = pre ++ m ++ post ->
                      ~ Unicode.ascii_doi_shape m) /\
  fst (Unicode.normalize_doi (Some Unicode.sample_arabic_digits))
    <> Unicode.lower (Unicode.strip Unicode.sample_arabic_digits) /\
  Unicode.normalize_doi (Some Unicode.sample_arabic_digits)
    = (Unicode.lit "10." ++ [1633; 1634; 1635; 1636]%N ++ Unicode.lit "/a", []).
Proof.
  split; [|split; vm_compute; [discriminate | reflexivity]].
  intros pre m post E (ds & run & -> & Hlen & Hds & _).
  destruct ds as [|d ds]; [cbn in Hlen; lia|].
  cbn [forallb] in Hds. apply andb_prop in Hds as [Hd _].
  vm_compute in E.
  do 14 (destruct pre as [|? pre];
         [ cbn [app] in E; try discriminate E;
           injection E as; subst; vm_compute in Hd; discriminate
         | cbn [app] in E; try discriminate E; injection E as _ E ]).
Qed.

(** C3, as the code has it.  When [m] has the shape of a DOI and holds no
    capital I with dot above, no match starts before it in the text and
    the text after it does not continue its run of characters,
    [normalize_doi] returns [m] in lower case, whatever else surrounds it,
    and logs nothing. *)
Theorem normalize_doi_extracts (pre m post : Unicode.str) :
  Unicode.doi_shape m ->
  ~ In 304%N m ->
  Unicode.no_earlier_match pre (m ++ post) ->
  Unicode.run_ends post ->
  Unicode.normalize_doi (Some (pre ++ m ++ post)) = (Unicode.lower m, []).
Proof.
  intros Hm Hdot Hpre Hpost.
  assert (Hne : pre ++ m ++ post <> []).
  { intros H. apply (f_equal (@length _)) in H.
    rewrite !length_app in H. apply u_doi_shape_length in Hm. cbn in H. lia. }
  rewrite u_normalize_doi_some by exact Hne.
  now rewrite re_search_cleaned.
Qed.

Lemma normalize_doi_extracts_witness :
  Unicode.normalize_doi
    (Some ((8195%N :: Unicode.lit "https://doi.org/")
           ++ (Unicode.lit "10." ++ [1633; 1634; 1635; 1636]%N ++ Unicode.lit "/X.2024.1")
           ++ (8230%N :: Unicode.lit " ")))
  = (Unicode.lit "10." ++ [1633; 1634; 1635; 1636]%N ++ Unicode.lit "/x.2024.1", []).
Proof.
  apply (normalize_doi_extracts
           (8195%N :: Unicode.lit "https://doi.org/")
           (Unicode.lit "10." ++ [1633; 1634; 1635; 1636]%N ++ Unicode.lit "/X.2024.1")
           (8230%N :: Unicode.lit " ")).
  - exists [1633; 1634; 1635; 1636]%N, (Unicode.lit "X.2024.1").
    repeat split; cbn; (lia || discriminate).
  - vm_compute. intuition discriminate.
  - apply u_no_match_in_spec. vm_compute. reflexivity.
  - reflexivity.
Defined.

(** C3, as stated, fails: a text with two DOIs contains the second one,
    but the first one is returned. *)
Lemma normalize_doi_second_doi_not_returned :
  Unicode.doi_shape (Unicode.lit "10.5678/b") /\
  fst (Unicode.normalize_doi
         (Some (Unicode.lit "10.1234/a " ++ Unicode.lit "10.5678/b" ++ [])))
    <> Unicode.lower (Unicode.lit "10.5678/b").
Proof.
  split.
  - exists (Unicode.lit "5678"), (Unicode.lit "b").
    repeat split; cbn; (lia || discriminate).
  - vm_compute. discriminate.
Qed.

(** X2.  Whenever some substring of the input, of whatever characters,
    has the shape of a DOI as the pattern takes it, [normalize_doi]
    returns a string of that shape and logs nothing: the fallback to the
    cleaned input is taken only when there is no DOI. *)
Theorem normalize_doi_finds_doi (s : Unicode.str) :
  Unicode.contains_doi s ->
  Unicode.doi_shape (fst (Unicode.normalize_doi (Some s))) /\
  snd (Unicode.normalize_doi (Some s)) = [].
Proof.
  intros H.
  assert (Hne : s <> []).
  { destruct H as (pre & m & post & -> & Hm). apply u_doi_shape_length in Hm.
    intros E. apply (f_equal (@length _)) in E.
    rewrite !length_app in E. cbn in E. lia. }
  apply u_contains_doi_strip, u_contains_doi_lower in H.
  apply u_re_search_contains in H as [g Hg].
  rewrite u_normalize_doi_some by exact Hne. rewrite Hg. cbn [fst snd].
  split; [|reflexivity]. now apply u_re_search_doi_shape in Hg as [Hg _].
Qed.

Lemma normalize_doi_finds_doi_witness :
  Unicode.doi_shape
    (fst (Unicode.normalize_doi
            (Some (Unicode.lit "see HTTPS://DOI.ORG/" ++
                   (Unicode.lit "10.1016/J.X" ++ [304%N] ++ Unicode.lit "2024") ++
                   Unicode.lit " and 10.5555/y")))) /\
  snd (Unicode.normalize_doi
         (Some (Unicode.lit "see HTTPS://DOI.ORG/" ++
                (Unicode.lit "10.1016/J.X" ++ [304%N] ++ Unicode.lit "2024") ++
                Unicode.lit " and 10.5555/y"))) = [].
Proof.
  apply normalize_doi_finds_doi.
  exists (Unicode.lit "see HTTPS://DOI.ORG/"),
         (Unicode.lit "10.1016/J.X" ++ [304%N] ++ Unicode.lit "2024"),
         (Unicode.lit " and 10.5555/y").
  split; [reflexivity|].
  exists (Unicode.lit "1016"), (Unicode.lit "J.X" ++ [304%N] ++ Unicode.lit "2024").
  repeat split; cbn; (lia || discriminate).
Defined.

(* ================================================================== *)
(** * The two models of text agree on Latin-1 *)
(* ================================================================== *)

Section Latin1.

Lemma code_isspace c : Unicode.isspace (code c) = isspace c.
Proof. each_char c. Qed.

Lemma code_isdecimal c : Unicode.isdecimal (code c) = isdigit c.
Proof. each_char c. Qed.

Lemma code_doi_char c : Unicode.doi_char (code c) = doi_char c.
Proof. each_char c. Qed.

Lemma code_lower_char before after c :
  Unicode.lower_char before after (code c) = [code (char_lower c)].
Proof. each_char c. Qed.

Lemma code_eqb c x : (code c =? code x)%N = Ascii.eqb c x.
Proof.
  destruct (Ascii.eqb_spec c x) as [->|Hne].
  - apply N.eqb_refl.
  - apply N.eqb_neq. intros H. apply Hne.
    unfold code in H. rewrite <- (ascii_N_embedding c), <- (ascii_N_embedding x).
    now rewrite H.
Qed.

Lemma of_latin1_lstrip s : Unicode.lstrip (of_latin1 s) = of_latin1 (lstrip s).
Proof.
  induction s as [|c s IH]; [reflexivity|].
  cbn [of_latin1 map Unicode.lstrip lstrip]. rewrite code_isspace.
  destruct (isspace c); [exact IH | reflexivity].
Qed.

Lemma of_latin1_rstrip s : Unicode.rstrip (of_latin1 s) = of_latin1 (rstrip s).
Proof.
  unfold Unicode.rstrip, rstrip, of_latin1.
  rewrite <- map_rev. fold (of_latin1 (rev s)).
  rewrite of_latin1_lstrip. unfold of_latin1. now rewrite map_rev.
Qed.

Lemma of_latin1_strip s : Unicode.strip (of_latin1 s) = of_latin1 (strip s).
Proof.
  unfold Unicode.strip, strip. now rewrite of_latin1_lstrip, of_latin1_rstrip.
Qed.

Lemma of_latin1_lower_from before s :
  Unicode.lower_from before (of_latin1 s) = of_latin1 (lower s).
Proof.
  revert before. induction s as [|c s IH]; intros before; [reflexivity|].
  cbn [of_latin1 map Unicode.lower_from lower].
  rewrite code_lower_char. cbn [app]. f_equal. apply IH.
Qed.

Lemma of_latin1_lower s : Unicode.lower (of_latin1 s) = of_latin1 (lower s).
Proof. apply of_latin1_lower_from. Qed.

Lemma of_latin1_span_all p q s :
  (forall c, q (code c) = p c) ->
  Unicode.span_all q (of_latin1 s) = span_all p s.
Proof.
  intros H. induction s as [|c s IH]; [reflexivity|].
  cbn [of_latin1 map Unicode.span_all span_all]. rewrite H.
  destruct (p c); [f_equal; exact IH | reflexivity].
Qed.

Lemma of_latin1_backtrack k k' s lo n :
  (forall t, k' (of_latin1 t) = k t) ->
  Unicode.backtrack k' (of_latin1 s) lo n = backtrack k s lo n.
Proof.
  intros H.
  assert (Hk : forall j, k' (skipn j (of_latin1 s)) = k (skipn j s)).
  { intros j. unfold of_latin1. rewrite skipn_map. apply H. }
  induction n as [|n IH]; cbn [Unicode.backtrack backtrack]; rewrite Hk.
  - reflexivity.
  - destruct (S n <? lo); [reflexivity|].
    destruct (k (skipn (S n) s)); [reflexivity | exact IH].
Qed.

Lemma of_latin1_match_here r r' s :
  Forall2 same_atom r r' ->
  Unicode.match_here r' (of_latin1 s) = match_here r s.
Proof.
  intros H. revert s. induction H as [|a a' r r' (Hmin & Hmax & Hcls) _ IH]; intros s.
  - reflexivity.
  - cbn [Unicode.match_here match_here].
    rewrite <- Hmin, <- Hmax.
    replace (Unicode.span (Unicode.cls a') (rmax a) (of_latin1 s))
      with (span (cls a) (rmax a) s).
    + now apply of_latin1_backtrack.
    + unfold Unicode.span, span.
      now rewrite (of_latin1_span_all (cls a) (Unicode.cls a')).
Qed.

Lemma of_latin1_re_search r r' s :
  Forall2 same_atom r r' ->
  Unicode.re_search r' (of_latin1 s) = option_map of_latin1 (re_search r s).
Proof.
  intros H. induction s as [|c s IH].
  - cbn [Unicode.re_search re_search of_latin1 map].
    change (@nil N) with (of_latin1 []). rewrite (of_latin1_match_here r r') by exact H.
    destruct (match_here r []) as [n|]; [|reflexivity].
    cbn [option_map]. unfold of_latin1. now rewrite firstn_map.
  - change (of_latin1 (c :: s)) with (code c :: of_latin1 s).
    cbn [Unicode.re_search re_search].
    change (code c :: of_latin1 s) with (of_latin1 (c :: s)).
    rewrite (of_latin1_match_here r r') by exact H.
    destruct (match_here r (c :: s)) as [n|].
    + cbn [option_map]. unfold of_latin1. now rewrite firstn_map.
    + exact IH.
Qed.

Lemma doi_pattern_same : Forall2 same_atom doi_pattern Unicode.doi_pattern.
Proof.
  assert (Hlit : forall l, In l (lit "10./") ->
                           same_atom (chr l) (Unicode.chr (code l))).
  { intros l Hl. repeat split. intros c. cbn [Unicode.chr Unicode.cls chr cls].
    rewrite ignorecase_literal by exact Hl. apply code_eqb. }
  unfold doi_pattern, Unicode.doi_pattern.
  constructor; [apply (Hlit "1"%char); cbn; auto|].
  constructor; [apply (Hlit "0"%char); cbn; auto|].
  constructor; [apply (Hlit "."%char); cbn; auto|].
  constructor; [repeat split; intros c; apply code_isdecimal|].
  constructor; [apply (Hlit "/"%char); cbn; auto 6|].
  constructor; [|constructor].
  repeat split. intros c. cbn [Unicode.cls cls].
  rewrite u_ignorecase_doi_set, ignorecase_doi_set. apply code_doi_char.
Qed.

End Latin1.

(** X27.  On a text of Latin-1 characters the two models of
    [normalize_doi] agree: the model on arbitrary code points returns the
    value of the 8-bit model, and logs the warning that it logs. *)
Theorem normalize_doi_latin1 (s : option str) :
  Unicode.normalize_doi (option_map of_latin1 s)
  = (of_latin1 (fst (normalize_doi s)), doi_warnings (snd (normalize_doi s))).
Proof.
  destruct s as [[|c s]|]; try reflexivity.
  rewrite normalize_doi_some by discriminate.
  cbn [option_map]. change (of_latin1 (c :: s)) with (code c :: of_latin1 s).
  rewrite u_normalize_doi_some by discriminate.
  change (code c :: of_latin1 s) with (of_latin1 (c :: s)).
  rewrite of_latin1_strip, of_latin1_lower.
  rewrite (of_latin1_re_search doi_pattern) by apply doi_pattern_same.
  now destruct (re_search doi_pattern (lower (strip (c :: s)))).
Qed.
